(** * generate_pdf_request.py: waiver lookup for a list of EYF IDs

    A shallow embedding of [generate_pdf_request.py] and the properties of
    its four stages (identifier loader, format validator, matcher,
    reporter) and of the command-line orchestration in [main].

    Python values are modelled as follows.
    - [str] is a list of code points ([N]); [lit] turns a Rocq string
      literal into one.
    - The calls into [re], [fnmatch] and [pathlib] follow CPython 3.11
      with the POSIX flavour of [pathlib].
    - The file system, the console and the interpreter's exit status are
      explicit: every effectful call of the source appends an [event] to a
      trace, and a computation ends in a value or in a raised [exn].
    - Every path can be examined and every directory listed: failures
      of [os.stat] and [os.listdir] for lack of permission are left out.
    - [print] fails on a line the standard output cannot encode; the
      stream is otherwise writable, and interrupts arrive only while the
      program waits at its prompt. *)

From Stdlib Require Import List NArith Arith Bool Lia.
From Stdlib Require String Ascii DecimalString.
Import ListNotations.
Import String.StringSyntax.

Set Implicit Arguments.

(** ** Python strings *)

Definition str := list N.

Definition lit (s : String.string) : str :=
  List.map Ascii.N_of_ascii (String.list_ascii_of_string s).

Arguments lit s%_string_scope.

Definition newline : N := 10%N.

Definition nl : str := [newline].

Definition nilb {A} (l : list A) : bool :=
  match l with [] => true | _ :: _ => false end.

Fixpoint str_eqb (a b : str) : bool :=
  match a, b with
  | [], [] => true
  | x :: a', y :: b' => N.eqb x y && str_eqb a' b'
  | _, _ => false
  end.

Definition mem (c : N) (s : str) : bool := existsb (N.eqb c) s.

(** [s.startswith(p)] *)
Fixpoint startswith (p s : str) : bool :=
  match p, s with
  | [], _ => true
  | x :: p', y :: s' => N.eqb x y && startswith p' s'
  | _ :: _, [] => false
  end.

(** [s.endswith(p)] *)
Definition endswith (p s : str) : bool :=
  startswith (rev p) (rev s).

(** [p in s] for a substring [p] *)
Fixpoint contains (p s : str) : bool :=
  startswith p s || match s with [] => false | _ :: s' => contains p s' end.

(** [str.isspace] on one code point: the characters [str.strip()] removes. *)
Definition isspace (c : N) : bool :=
  ((9 <=? c) && (c <=? 13) || (28 <=? c) && (c <=? 32) ||
   (c =? 133) || (c =? 160) || (c =? 5760) ||
   (8192 <=? c) && (c <=? 8202) || (c =? 8232) || (c =? 8233) ||
   (c =? 8239) || (c =? 8287) || (c =? 12288))%N.

Fixpoint lstrip (s : str) : str :=
  match s with
  | c :: s' => if isspace c then lstrip s' else s
  | [] => []
  end.

Definition rstrip (s : str) : str := rev (lstrip (rev s)).

(** [s.strip()] *)
Definition strip (s : str) : str := rstrip (lstrip s).

(** [s.lower()] on the ASCII letters; other code points are left as they
    are (no code point other than [Y] and [y] lowercases to [y], so a
    comparison of the result with ['y'] is the one Python makes). *)
Definition lower (s : str) : str :=
  List.map (fun c => if ((65 <=? c) && (c <=? 90))%N then (c + 32)%N else c) s.

(** [str(n)] for a non-negative [int] *)
Definition str_of_nat (n : nat) : str :=
  lit (DecimalString.NilZero.string_of_uint (Nat.to_uint n)).

(** [sep.join(parts)] *)
Fixpoint join (sep : str) (parts : list str) : str :=
  match parts with
  | [] => []
  | [p] => p
  | p :: rest => p ++ sep ++ join sep rest
  end.

(** [s.split(sep)] for a one-character separator: [cur] holds the piece
    being read, reversed. *)
Fixpoint split_at (sep : N) (cur : str) (s : str) : list str :=
  match s with
  | [] => [rev cur]
  | c :: s' => if N.eqb c sep then rev cur :: split_at sep [] s'
               else split_at sep (c :: cur) s'
  end.

Definition split (sep : N) (s : str) : list str := split_at sep [] s.

(** ** [repr] of a string

    [repr] puts the string between quotes and escapes the quote, the
    backslash and every code point that [str.isprintable] rejects. *)

Definition hex_digit (d : N) : N := (if d <? 10 then 48 + d else 87 + d)%N.

(** [n] in [width] lower-case hexadecimal digits. *)
Fixpoint hex_fixed (width : nat) (n : N) : str :=
  match width with
  | 0 => []
  | S w => hex_fixed w (n / 16)%N ++ [hex_digit (n mod 16)%N]
  end.

(** The code points from 128 on that [str.isprintable] rejects in CPython
    3.11 (Unicode 14.0: the categories Cc, Cf, Cs, Co, Cn, Zl, Zp and Zs),
    as closed ranges in increasing order. *)
Definition not_printable_1 : list (N * N) :=
  [(128, 160); (173, 173); (888, 889); (896, 899); (907, 907); (909, 909);
   (930, 930); (1328, 1328); (1367, 1368); (1419, 1420); (1424, 1424);
   (1480, 1487); (1515, 1518); (1525, 1541); (1564, 1564); (1757, 1757);
   (1806, 1807); (1867, 1868); (1970, 1983); (2043, 2044); (2094, 2095);
   (2111, 2111); (2140, 2141); (2143, 2143); (2155, 2159); (2191, 2199);
   (2274, 2274); (2436, 2436); (2445, 2446); (2449, 2450); (2473, 2473);
   (2481, 2481); (2483, 2485); (2490, 2491); (2501, 2502); (2505, 2506);
   (2511, 2518); (2520, 2523); (2526, 2526); (2532, 2533); (2559, 2560);
   (2564, 2564); (2571, 2574); (2577, 2578); (2601, 2601); (2609, 2609);
   (2612, 2612); (2615, 2615); (2618, 2619); (2621, 2621); (2627, 2630);
   (2633, 2634); (2638, 2640); (2642, 2648); (2653, 2653); (2655, 2661);
   (2679, 2688); (2692, 2692); (2702, 2702); (2706, 2706); (2729, 2729);
   (2737, 2737); (2740, 2740); (2746, 2747); (2758, 2758); (2762, 2762);
   (2766, 2767); (2769, 2783); (2788, 2789); (2802, 2808); (2816, 2816);
   (2820, 2820); (2829, 2830); (2833, 2834); (2857, 2857); (2865, 2865);
   (2868, 2868); (2874, 2875); (2885, 2886); (2889, 2890); (2894, 2900);
   (2904, 2907); (2910, 2910); (2916, 2917); (2936, 2945); (2948, 2948);
   (2955, 2957); (2961, 2961); (2966, 2968); (2971, 2971); (2973, 2973);
   (2976, 2978); (2981, 2983); (2987, 2989); (3002, 3005); (3011, 3013);
   (3017, 3017); (3022, 3023); (3025, 3030); (3032, 3045)]%N.

Definition not_printable_2 : list (N * N) :=
  [(3067, 3071); (3085, 3085); (3089, 3089); (3113, 3113); (3130, 3131);
   (3141, 3141); (3145, 3145); (3150, 3156); (3159, 3159); (3163, 3164);
   (3166, 3167); (3172, 3173); (3184, 3190); (3213, 3213); (3217, 3217);
   (3241, 3241); (3252, 3252); (3258, 3259); (3269, 3269); (3273, 3273);
   (3278, 3284); (3287, 3292); (3295, 3295); (3300, 3301); (3312, 3312);
   (3315, 3327); (3341, 3341); (3345, 3345); (3397, 3397); (3401, 3401);
   (3408, 3411); (3428, 3429); (3456, 3456); (3460, 3460); (3479, 3481);
   (3506, 3506); (3516, 3516); (3518, 3519); (3527, 3529); (3531, 3534);
   (3541, 3541); (3543, 3543); (3552, 3557); (3568, 3569); (3573, 3584);
   (3643, 3646); (3676, 3712); (3715, 3715); (3717, 3717); (3723, 3723);
   (3748, 3748); (3750, 3750); (3774, 3775); (3781, 3781); (3783, 3783);
   (3790, 3791); (3802, 3803); (3808, 3839); (3912, 3912); (3949, 3952);
   (3992, 3992); (4029, 4029); (4045, 4045); (4059, 4095); (4294, 4294);
   (4296, 4300); (4302, 4303); (4681, 4681); (4686, 4687); (4695, 4695);
   (4697, 4697); (4702, 4703); (4745, 4745); (4750, 4751); (4785, 4785);
   (4790, 4791); (4799, 4799); (4801, 4801); (4806, 4807); (4823, 4823);
   (4881, 4881); (4886, 4887); (4955, 4956); (4989, 4991); (5018, 5023);
   (5110, 5111); (5118, 5119); (5760, 5760); (5789, 5791); (5881, 5887);
   (5910, 5918); (5943, 5951); (5972, 5983); (5997, 5997); (6001, 6001);
   (6004, 6015); (6110, 6111); (6122, 6127); (6138, 6143); (6158, 6158)]%N.

Definition not_printable_3 : list (N * N) :=
  [(6170, 6175); (6265, 6271); (6315, 6319); (6390, 6399); (6431, 6431);
   (6444, 6447); (6460, 6463); (6465, 6467); (6510, 6511); (6517, 6527);
   (6572, 6575); (6602, 6607); (6619, 6621); (6684, 6685); (6751, 6751);
   (6781, 6782); (6794, 6799); (6810, 6815); (6830, 6831); (6863, 6911);
   (6989, 6991); (7039, 7039); (7156, 7163); (7224, 7226); (7242, 7244);
   (7305, 7311); (7355, 7356); (7368, 7375); (7419, 7423); (7958, 7959);
   (7966, 7967); (8006, 8007); (8014, 8015); (8024, 8024); (8026, 8026);
   (8028, 8028); (8030, 8030); (8062, 8063); (8117, 8117); (8133, 8133);
   (8148, 8149); (8156, 8156); (8176, 8177); (8181, 8181); (8191, 8207);
   (8232, 8239); (8287, 8303); (8306, 8307); (8335, 8335); (8349, 8351);
   (8385, 8399); (8433, 8447); (8588, 8591); (9255, 9279); (9291, 9311);
   (11124, 11125); (11158, 11158); (11508, 11512); (11558, 11558);
   (11560, 11564); (11566, 11567); (11624, 11630); (11633, 11646);
   (11671, 11679); (11687, 11687); (11695, 11695); (11703, 11703);
   (11711, 11711); (11719, 11719); (11727, 11727); (11735, 11735);
   (11743, 11743); (11870, 11903); (11930, 11930); (12020, 12031);
   (12246, 12271); (12284, 12288); (12352, 12352); (12439, 12440);
   (12544, 12548); (12592, 12592); (12687, 12687); (12772, 12783);
   (12831, 12831); (42125, 42127); (42183, 42191); (42540, 42559);
   (42744, 42751); (42955, 42959); (42962, 42962); (42964, 42964);
   (42970, 42993); (43053, 43055); (43066, 43071); (43128, 43135);
   (43206, 43213); (43226, 43231); (43348, 43358); (43389, 43391);
   (43470, 43470)]%N.

Definition not_printable_4 : list (N * N) :=
  [(43482, 43485); (43519, 43519); (43575, 43583); (43598, 43599);
   (43610, 43611); (43715, 43738); (43767, 43776); (43783, 43784);
   (43791, 43792); (43799, 43807); (43815, 43815); (43823, 43823);
   (43884, 43887); (44014, 44015); (44026, 44031); (55204, 55215);
   (55239, 55242); (55292, 63743); (64110, 64111); (64218, 64255);
   (64263, 64274); (64280, 64284); (64311, 64311); (64317, 64317);
   (64319, 64319); (64322, 64322); (64325, 64325); (64451, 64466);
   (64912, 64913); (64968, 64974); (64976, 65007); (65050, 65055);
   (65107, 65107); (65127, 65127); (65132, 65135); (65141, 65141);
   (65277, 65280); (65471, 65473); (65480, 65481); (65488, 65489);
   (65496, 65497); (65501, 65503); (65511, 65511); (65519, 65531);
   (65534, 65535); (65548, 65548); (65575, 65575); (65595, 65595);
   (65598, 65598); (65614, 65615); (65630, 65663); (65787, 65791);
   (65795, 65798); (65844, 65846); (65935, 65935); (65949, 65951);
   (65953, 65999); (66046, 66175); (66205, 66207); (66257, 66271);
   (66300, 66303); (66340, 66348); (66379, 66383); (66427, 66431);
   (66462, 66462); (66500, 66503); (66518, 66559); (66718, 66719);
   (66730, 66735); (66772, 66775); (66812, 66815); (66856, 66863);
   (66916, 66926); (66939, 66939); (66955, 66955); (66963, 66963);
   (66966, 66966); (66978, 66978); (66994, 66994); (67002, 67002);
   (67005, 67071); (67383, 67391); (67414, 67423); (67432, 67455);
   (67462, 67462); (67505, 67505); (67515, 67583); (67590, 67591);
   (67593, 67593); (67638, 67638); (67641, 67643); (67645, 67646);
   (67670, 67670); (67743, 67750); (67760, 67807); (67827, 67827);
   (67830, 67834); (67868, 67870); (67898, 67902); (67904, 67967)]%N.

Definition not_printable_5 : list (N * N) :=
  [(68024, 68027); (68048, 68049); (68100, 68100); (68103, 68107);
   (68116, 68116); (68120, 68120); (68150, 68151); (68155, 68158);
   (68169, 68175); (68185, 68191); (68256, 68287); (68327, 68330);
   (68343, 68351); (68406, 68408); (68438, 68439); (68467, 68471);
   (68498, 68504); (68509, 68520); (68528, 68607); (68681, 68735);
   (68787, 68799); (68851, 68857); (68904, 68911); (68922, 69215);
   (69247, 69247); (69290, 69290); (69294, 69295); (69298, 69375);
   (69416, 69423); (69466, 69487); (69514, 69551); (69580, 69599);
   (69623, 69631); (69710, 69713); (69750, 69758); (69821, 69821);
   (69827, 69839); (69865, 69871); (69882, 69887); (69941, 69941);
   (69960, 69967); (70007, 70015); (70112, 70112); (70133, 70143);
   (70162, 70162); (70207, 70271); (70279, 70279); (70281, 70281);
   (70286, 70286); (70302, 70302); (70314, 70319); (70379, 70383);
   (70394, 70399); (70404, 70404); (70413, 70414); (70417, 70418);
   (70441, 70441); (70449, 70449); (70452, 70452); (70458, 70458);
   (70469, 70470); (70473, 70474); (70478, 70479); (70481, 70486);
   (70488, 70492); (70500, 70501); (70509, 70511); (70517, 70655);
   (70748, 70748); (70754, 70783); (70856, 70863); (70874, 71039);
   (71094, 71095); (71134, 71167); (71237, 71247); (71258, 71263);
   (71277, 71295); (71354, 71359); (71370, 71423); (71451, 71452);
   (71468, 71471); (71495, 71679); (71740, 71839); (71923, 71934);
   (71943, 71944); (71946, 71947); (71956, 71956); (71959, 71959);
   (71990, 71990); (71993, 71994); (72007, 72015); (72026, 72095);
   (72104, 72105); (72152, 72153); (72165, 72191); (72264, 72271);
   (72355, 72367); (72441, 72703); (72713, 72713); (72759, 72759)]%N.

Definition not_printable_6 : list (N * N) :=
  [(72774, 72783); (72813, 72815); (72848, 72849); (72872, 72872);
   (72887, 72959); (72967, 72967); (72970, 72970); (73015, 73017);
   (73019, 73019); (73022, 73022); (73032, 73039); (73050, 73055);
   (73062, 73062); (73065, 73065); (73103, 73103); (73106, 73106);
   (73113, 73119); (73130, 73439); (73465, 73647); (73649, 73663);
   (73714, 73726); (74650, 74751); (74863, 74863); (74869, 74879);
   (75076, 77711); (77811, 77823); (78895, 82943); (83527, 92159);
   (92729, 92735); (92767, 92767); (92778, 92781); (92863, 92863);
   (92874, 92879); (92910, 92911); (92918, 92927); (92998, 93007);
   (93018, 93018); (93026, 93026); (93048, 93052); (93072, 93759);
   (93851, 93951); (94027, 94030); (94088, 94094); (94112, 94175);
   (94181, 94191); (94194, 94207); (100344, 100351); (101590, 101631);
   (101641, 110575); (110580, 110580); (110588, 110588); (110591, 110591);
   (110883, 110927); (110931, 110947); (110952, 110959); (111356, 113663);
   (113771, 113775); (113789, 113791); (113801, 113807); (113818, 113819);
   (113824, 118527); (118574, 118575); (118599, 118607); (118724, 118783);
   (119030, 119039); (119079, 119080); (119155, 119162); (119275, 119295);
   (119366, 119519); (119540, 119551); (119639, 119647); (119673, 119807);
   (119893, 119893); (119965, 119965); (119968, 119969); (119971, 119972);
   (119975, 119976); (119981, 119981); (119994, 119994); (119996, 119996);
   (120004, 120004); (120070, 120070); (120075, 120076); (120085, 120085);
   (120093, 120093); (120122, 120122); (120127, 120127); (120133, 120133);
   (120135, 120137); (120145, 120145); (120486, 120487); (120780, 120781);
   (121484, 121498); (121504, 121504); (121520, 122623); (122655, 122879);
   (122887, 122887); (122905, 122906); (122914, 122914); (122917, 122917)]%N.

Definition not_printable_7 : list (N * N) :=
  [(122923, 123135); (123181, 123183); (123198, 123199); (123210, 123213);
   (123216, 123535); (123567, 123583); (123642, 123646); (123648, 124895);
   (124903, 124903); (124908, 124908); (124911, 124911); (124927, 124927);
   (125125, 125126); (125143, 125183); (125260, 125263); (125274, 125277);
   (125280, 126064); (126133, 126208); (126270, 126463); (126468, 126468);
   (126496, 126496); (126499, 126499); (126501, 126502); (126504, 126504);
   (126515, 126515); (126520, 126520); (126522, 126522); (126524, 126529);
   (126531, 126534); (126536, 126536); (126538, 126538); (126540, 126540);
   (126544, 126544); (126547, 126547); (126549, 126550); (126552, 126552);
   (126554, 126554); (126556, 126556); (126558, 126558); (126560, 126560);
   (126563, 126563); (126565, 126566); (126571, 126571); (126579, 126579);
   (126584, 126584); (126589, 126589); (126591, 126591); (126602, 126602);
   (126620, 126624); (126628, 126628); (126634, 126634); (126652, 126703);
   (126706, 126975); (127020, 127023); (127124, 127135); (127151, 127152);
   (127168, 127168); (127184, 127184); (127222, 127231); (127406, 127461);
   (127491, 127503); (127548, 127551); (127561, 127567); (127570, 127583);
   (127590, 127743); (128728, 128732); (128749, 128751); (128765, 128767);
   (128884, 128895); (128985, 128991); (129004, 129007); (129009, 129023);
   (129036, 129039); (129096, 129103); (129114, 129119); (129160, 129167);
   (129198, 129199); (129202, 129279); (129620, 129631); (129646, 129647);
   (129653, 129655); (129661, 129663); (129671, 129679); (129709, 129711);
   (129723, 129727); (129734, 129743); (129754, 129759); (129768, 129775);
   (129783, 129791); (129939, 129939); (129995, 130031); (130042, 131071);
   (173792, 173823); (177977, 177983); (178206, 178207); (183970, 183983);
   (191457, 194559); (195102, 196607); (201547, 917759); (918000, 1114111)]%N.

Definition not_printable : list (N * N) :=
  not_printable_1
  ++ not_printable_2
  ++ not_printable_3
  ++ not_printable_4
  ++ not_printable_5
  ++ not_printable_6
  ++ not_printable_7.

(** [chr(c).isprintable()] *)
Definition isprintable (c : N) : bool :=
  if (c <? 128)%N then ((32 <=? c) && (c <? 127))%N
  else negb (existsb (fun r => ((fst r <=? c) && (c <=? snd r))%N) not_printable).

(** One code point as [repr] writes it between quotes of kind [quote]. *)
Definition repr_char (quote c : N) : str :=
  if ((c =? quote) || (c =? 92))%N then [92%N; c]
  else if (c =? 9)%N then lit "\t"
  else if (c =? 10)%N then lit "\n"
  else if (c =? 13)%N then lit "\r"
  else if isprintable c then [c]
  else if (c <=? 255)%N then lit "\x" ++ hex_fixed 2 c
  else if (c <=? 65535)%N then lit "\u" ++ hex_fixed 4 c
  else lit "\U" ++ hex_fixed 8 c.

(** [repr(s)]: single quotes, unless the string holds a single quote and
    no double quote. *)
Definition repr (s : str) : str :=
  let quote := (if mem 39 s && negb (mem 34 s) then 34 else 39)%N in
  quote :: flat_map (repr_char quote) s ++ [quote].

(** ** Regular expressions ([re])

    The compiled form of a pattern.  [Dot] is [.] without [re.DOTALL],
    [AnyChar] is [.] under [(?s:...)], [Bol] is [^], [Eol] is [$] (end of
    the subject, or just before a newline that ends it) and [Eos] is [\Z]. *)

Inductive cset_item :=
| One (c : N)
| Range (lo hi : N).

Inductive regex :=
| Eps
| Lit (c : N)
| Dot
| AnyChar
| CharSet (negated : bool) (items : list cset_item)
| Bol
| Eol
| Eos
| Seq (r1 r2 : regex)
| Star (r : regex).

(** [r+] *)
Definition Plus (r : regex) : regex := Seq r (Star r).

Definition seq_of (rs : list regex) : regex := fold_right Seq Eps rs.

Definition lits (s : str) : list regex := List.map Lit s.

Definition item_has (c : N) (i : cset_item) : bool :=
  match i with
  | One d => N.eqb c d
  | Range lo hi => (lo <=? c)%N && (c <=? hi)%N
  end.

Definition in_cset (negated : bool) (items : list cset_item) (c : N) : bool :=
  xorb negated (existsb (item_has c) items).

(** One character against a one-character pattern [r]. *)
Definition char_ok (r : regex) (c : N) : bool :=
  match r with
  | Lit d => N.eqb c d
  | Dot => negb (N.eqb c newline)
  | AnyChar => true
  | CharSet n items => in_cset n items c
  | _ => false
  end.

(** The repetition [r*]: [step] matches one [r]; an iteration that
    consumes nothing is not repeated, so [length s] iterations suffice. *)
Fixpoint star_loop (step : bool -> str -> (bool -> str -> bool) -> bool)
    (fuel : nat) (b : bool) (s : str) (k : bool -> str -> bool) : bool :=
  match fuel with
  | O => k b s
  | S f =>
      step b s (fun b' s' => (length s' <? length s) && star_loop step f b' s' k)
      || k b s
  end.

(** The backtracking matcher.  [b] tells whether the current position is
    the start of the subject, [s] is the rest of the subject and [k] is
    what has to match after [r]. *)
Fixpoint accept (r : regex) (b : bool) (s : str) (k : bool -> str -> bool) : bool :=
  match r with
  | Eps => k b s
  | Lit _ | Dot | AnyChar | CharSet _ _ =>
      match s with
      | c :: s' => char_ok r c && k false s'
      | [] => false
      end
  | Bol => b && k b s
  | Eol => (nilb s || str_eqb s [newline]) && k b s
  | Eos => nilb s && k b s
  | Seq r1 r2 => accept r1 b s (fun b' s' => accept r2 b' s' k)
  | Star r1 => star_loop (accept r1) (length s) b s k
  end.

(** [pattern.match(s) is not None] *)
Definition re_match (r : regex) (s : str) : bool :=
  accept r true s (fun _ _ => true).

(** [pattern.fullmatch(s) is not None] *)
Definition re_fullmatch (r : regex) (s : str) : bool :=
  accept r true s (fun _ rest => nilb rest).

(** What it means for [r] to match the piece [u] of the subject, [v] being
    the rest of the subject after [u] and [b] telling whether [u] starts
    the subject. *)
Inductive Matches : regex -> bool -> str -> str -> Prop :=
| M_Eps b v : Matches Eps b [] v
| M_Lit c b v : Matches (Lit c) b [c] v
| M_Dot c b v : c <> newline -> Matches Dot b [c] v
| M_Any c b v : Matches AnyChar b [c] v
| M_Set n items c b v :
    in_cset n items c = true -> Matches (CharSet n items) b [c] v
| M_Bol v : Matches Bol true [] v
| M_Eol b v : v = [] \/ v = [newline] -> Matches Eol b [] v
| M_Eos b : Matches Eos b [] []
| M_Seq r1 r2 b u1 u2 v :
    Matches r1 b u1 (u2 ++ v) ->
    Matches r2 (b && nilb u1) u2 v ->
    Matches (Seq r1 r2) b (u1 ++ u2) v
| M_Star0 r b v : Matches (Star r) b [] v
| M_StarS r b u1 u2 v :
    u1 <> [] ->
    Matches r b u1 (u2 ++ v) ->
    Matches (Star r) false u2 v ->
    Matches (Star r) b (u1 ++ u2) v.

(** Some prefix of [s] matches [r]: the meaning of [pattern.match(s)]. *)
Definition re_matches (r : regex) (s : str) : Prop :=
  exists u v, s = u ++ v /\ Matches r true u v.

(** [re.compile] for the patterns made of ordinary characters, escaped
    punctuation, [.], [^], [$], bracket sets of characters and ranges, and
    the postfix [*] and [+]; [None] on any other syntax. *)

Definition is_alnum (c : N) : bool :=
  ((48 <=? c) && (c <=? 57) || (65 <=? c) && (c <=? 90) || (97 <=? c) && (c <=? 122))%N.

Fixpoint re_set_items (s : str) : option (list cset_item * str) :=
  match s with
  | [] => None
  | c :: rest =>
      if N.eqb c 93 then Some ([], rest)
      else if N.eqb c 92 || N.eqb c 91 then None
      else
        let single :=
          match re_set_items rest with
          | Some (items, after) => Some (One c :: items, after)
          | None => None
          end in
        match rest with
        | d :: hi :: rest' =>
            if N.eqb d 45 && negb (N.eqb hi 93) then
              if N.eqb hi 92 || N.eqb hi 91 || (hi <? c)%N then None
              else match re_set_items rest' with
                   | Some (items, after) => Some (Range c hi :: items, after)
                   | None => None
                   end
            else single
        | _ => single
        end
  end.

Definition re_set (s : str) : option (regex * str) :=
  let (negated, body) :=
    match s with
    | 94%N :: body => (true, body)
    | _ => (false, s)
    end in
  match body with
  | 93%N :: _ => None
  | _ => match re_set_items body with
         | Some (items, after) => Some (CharSet negated items, after)
         | None => None
         end
  end.

Definition re_atom (c : N) (rest : str) : option (regex * str) :=
  if N.eqb c 94 then Some (Bol, rest)
  else if N.eqb c 36 then Some (Eol, rest)
  else if N.eqb c 46 then Some (Dot, rest)
  else if N.eqb c 91 then re_set rest
  else if N.eqb c 92 then
    match rest with
    | d :: rest' => if is_alnum d then None else Some (Lit d, rest')
    | [] => None
    end
  else if mem c (lit "*+?{}()|") then None
  else Some (Lit c, rest).

Fixpoint re_parse (fuel : nat) (s : str) : option (list regex) :=
  match fuel, s with
  | _, [] => Some []
  | O, _ :: _ => None
  | S f, c :: rest =>
      match re_atom c rest with
      | None => None
      | Some (a, after) =>
          let (piece, after') :=
            match after with
            | q :: after' =>
                if N.eqb q 42 then (Star a, after')
                else if N.eqb q 43 then (Plus a, after')
                else (a, after)
            | [] => (a, after)
            end in
          let repeated := negb (length after' =? length after) in
          match a, repeated, after' with
          | (Bol | Eol), true, _ => None
          | _, true, q :: _ =>
              if N.eqb q 63 || N.eqb q 43 || N.eqb q 42 then None
              else option_map (cons piece) (re_parse f after')
          | _, _, _ => option_map (cons piece) (re_parse f after')
          end
      end
  end.

Definition re_compile (s : str) : option regex :=
  option_map seq_of (re_parse (length s) s).

(** ** Shell patterns ([fnmatch.translate])

    [bracket rest] finds the end of a bracket expression whose opening
    bracket has just been read: the text between the brackets and what
    follows the closing one, or [None] when no bracket closes it (the
    opening bracket is then an ordinary character). *)

Definition take_if (c : N) (s : str) : str * str :=
  match s with
  | x :: s' => if N.eqb x c then ([x], s') else ([], s)
  | [] => ([], [])
  end.

Fixpoint until_close (s : str) : option (str * str) :=
  match s with
  | [] => None
  | c :: s' =>
      if N.eqb c 93 then Some ([], s')
      else match until_close s' with
           | Some (body, rest) => Some (c :: body, rest)
           | None => None
           end
  end.

Definition bracket (rest : str) : option (str * str) :=
  let (bang, r1) := take_if 33 rest in
  let (close, r2) := take_if 93 r1 in
  match until_close r2 with
  | Some (body, after) => Some (bang ++ close ++ body, after)
  | None => None
  end.

(** The members of a bracket expression: [lo-hi] is a range, anything else
    stands for itself. *)
Fixpoint cset_items (s : str) : list cset_item :=
  match s with
  | [] => []
  | lo :: rest =>
      match rest with
      | d :: hi :: s' =>
          if N.eqb d 45 then Range lo hi :: cset_items s'
          else One lo :: cset_items rest
      | _ => One lo :: cset_items rest
      end
  end.

Definition empty_range (i : cset_item) : bool :=
  match i with
  | Range lo hi => (hi <? lo)%N
  | One _ => false
  end.

(** [translate] drops the ranges that are empty and only then looks for the
    [!] of a complemented set, so that an [!] brought to the front by a
    dropped range complements the set too. *)
Definition cset_of (stuff : str) : regex :=
  match stuff with
  | 33%N :: body => CharSet true (cset_items body)
  | _ =>
      match filter (fun i => negb (empty_range i)) (cset_items stuff) with
      | One 33 :: items => CharSet true items
      | Range 33 hi :: items => CharSet true (One 45 :: One hi :: items)
      | items => CharSet false items
      end
  end.

(** The pieces of the translated pattern.  Consecutive [*] are one [*];
    [after_star] tells that the piece before is a [*].  One step reads at
    least one character, so [length pat] steps read all of [pat]. *)
Fixpoint translate_pieces (fuel : nat) (after_star : bool) (pat : str) : list regex :=
  match fuel, pat with
  | S f, c :: rest =>
      if N.eqb c 42 then
        (if after_star then [] else [Star AnyChar]) ++ translate_pieces f true rest
      else if N.eqb c 63 then AnyChar :: translate_pieces f false rest
      else if N.eqb c 91 then
        match bracket rest with
        | Some (stuff, after) => cset_of stuff :: translate_pieces f false after
        | None => Lit c :: translate_pieces f false rest
        end
      else Lit c :: translate_pieces f false rest
  | _, _ => []
  end.

(** [re.compile(fnmatch.translate(pat))]: the pattern [(?s:...)\Z].  The
    atomic groups that [translate] puts around an inner [*] only prune the
    search: they do not change which names match. *)
Definition translate (pat : str) : regex :=
  Seq (seq_of (translate_pieces (length pat) false pat)) Eos.

(** ** Paths ([pathlib.PurePosixPath]) *)

Record Path := { root : str; parts : list str }.

Fixpoint lstrip_sep (s : str) : str :=
  match s with
  | c :: s' => if N.eqb c 47 then lstrip_sep s' else s
  | [] => []
  end.

Definition splitroot (part : str) : str * str :=
  if startswith (lit "/") part then
    let stripped := lstrip_sep part in
    if length part - length stripped =? 2 then (lit "//", stripped)
    else (lit "/", stripped)
  else ([], part).

Definition parse_parts (s : str) : Path :=
  let (rt, rel) := splitroot s in
  {| root := rt;
     parts := filter (fun x => negb (nilb x) && negb (str_eqb x (lit "."))) (split 47 rel) |}.

(** [str(p)] *)
Definition path_str (p : Path) : str :=
  match root p, parts p with
  | [], [] => lit "."
  | rt, ps => rt ++ join (lit "/") ps
  end.

(** [p._make_child_relpath(name)] *)
Definition child (p : Path) (name : str) : Path :=
  {| root := root p; parts := parts p ++ [name] |}.

(** [p.name] *)
Definition path_name (p : Path) : str := last (parts p) [].

(** ** The file system, exceptions and the trace of a run *)

Inductive kind := RegularFile | Directory | OtherKind.

Inductive errno := ENOENT | EACCES | EISDIR | ENOTDIR.

Inductive exn :=
| ValueError (msg : str)
| NotImplementedError (msg : str)
| OSError (e : errno) (filename : str)
| UnicodeDecodeError (msg : str)
| UnicodeEncodeError (msg : str)
| EOFError
| RuntimeError (msg : str)
| OtherException (msg : str)
| SystemExit (code : nat)
| KeyboardInterrupt.

Inductive open_result :=
| Text (content : str)
| CannotOpen (e : errno)
| CannotDecode (msg : str).

(** What the program can observe of the machine.
    - [fs_stat p] is what [os.stat] finds at [p], following links, or
      [None] when it fails.
    - [fs_listdir p] lists the names in the directory [p], in the order
      the operating system gives them.
    - [fs_open p] is the decoded content of the file [p] before newline
      translation, or the reason why it cannot be read.
    - [fs_glob_below p parts] is what [pathlib] finds from [p] for a
      pattern that leaves the directory [p] itself: one with several
      components, or with the recursive component: the paths found,
      or the message of the exception raised; nothing else is assumed
      about it. *)
Record filesystem := {
  fs_stat : str -> option kind;
  fs_listdir : str -> list str;
  fs_open : str -> open_result;
  fs_glob_below : str -> list str -> str + list str
}.

(** The standard output, as far as [print] depends on it: [out line] is
    [None] when the encoding of the stream can represent [line], and
    otherwise the message of the [UnicodeEncodeError] that writing the line
    raises.  The stream itself is taken to be writable: a pipe closed by
    its reader and the flush at exit are not modelled. *)
Definition console := str -> option str.

(** The standard input at the time of the prompt: a line typed by the
    user (given without its newline), the end of the input, no standard
    input at all ([sys.stdin] is [None], as when the descriptor is closed),
    or an interrupt from the keyboard while the program waits. *)
Inductive stdin_state :=
| Line (answer : str)
| EndOfInput
| Lost
| Interrupted.

Inductive event :=
| Print (line : str)
| Input (prompt : str)
| SysOpen (path : str)
| SysExists (path : str)
| SysIterdir (path : str)
| SysIsFile (path : str)
| SysGlob (path : str) (pattern : str).

(** A computation: the events it caused, then its value or the exception
    it raised. *)
Definition M (A : Type) : Type := (list event * (exn + A))%type.

Definition ret {A} (a : A) : M A := ([], inr a).

Definition raise {A} (e : exn) : M A := ([], inl e).

Definition bind {A B} (m : M A) (f : A -> M B) : M B :=
  match m with
  | (t, inl e) => (t, inl e)
  | (t, inr a) => let (t', r) := f a in (t ++ t', r)
  end.

Definition emit (e : event) : M unit := ([e], inr tt).

Declare Scope py_scope.
Delimit Scope py_scope with py.
Notation "x <- m ;; k" := (bind m (fun x => k))
  (at level 61, m at next level, right associativity) : py_scope.
Notation "' p <- m ;; k" := (bind m (fun x => let p := x in k))
  (at level 61, p pattern, m at next level, right associativity) : py_scope.
Notation "m ;; k" := (bind m (fun _ => k))
  (at level 61, right associativity) : py_scope.
Open Scope py_scope.

(** [for x in xs: s = body(x, s)] *)
Fixpoint for_each {A S} (xs : list A) (body : A -> S -> M S) (s : S) : M S :=
  match xs with
  | [] => ret s
  | x :: xs' => s' <- body x s ;; for_each xs' body s'
  end.

(** [Exception] and its subclasses: what [except Exception] catches.
    [SystemExit] and [KeyboardInterrupt] derive from [BaseException]
    only. *)
Definition is_Exception (e : exn) : bool :=
  match e with
  | SystemExit _ | KeyboardInterrupt => false
  | _ => true
  end.

(** [try: body  except Exception as e: handler(e)] *)
Definition try_except {A} (body : M A) (handler : exn -> M A) : M A :=
  match body with
  | (t, inl e) =>
      if is_Exception e then let (t', r) := handler e in (t ++ t', r)
      else (t, inl e)
  | (t, inr a) => (t, inr a)
  end.

Definition trace_of {A} (m : M A) : list event := fst m.

Definition result_of {A} (m : M A) : exn + A := snd m.

(** The lines written by [print]. *)
Definition printed (t : list event) : list str :=
  flat_map (fun e => match e with Print l => [l] | _ => [] end) t.

(** The patterns handed to [Path.glob]. *)
Definition globbed (t : list event) : list str :=
  flat_map (fun e => match e with SysGlob _ p => [p] | _ => [] end) t.

(** The status the process ends with: the code of [sys.exit], 1 after
    the traceback of an exception nobody caught, 0 when [main] returns.
    After a [KeyboardInterrupt] nobody caught the interpreter ends itself
    with the interrupt signal, which a shell shows as 130. *)
Definition exit_status {A} (m : M A) : nat :=
  match result_of m with
  | inr _ => 0
  | inl (SystemExit code) => code
  | inl KeyboardInterrupt => 130
  | inl _ => 1
  end.

Definition errno_number (e : errno) : nat :=
  match e with ENOENT => 2 | EACCES => 13 | ENOTDIR => 20 | EISDIR => 21 end.

Definition strerror (e : errno) : str :=
  match e with
  | ENOENT => lit "No such file or directory"
  | EACCES => lit "Permission denied"
  | ENOTDIR => lit "Not a directory"
  | EISDIR => lit "Is a directory"
  end.

(** [str(e)]; an [OSError] shows its file name as [repr] does. *)
Definition str_of_exn (e : exn) : str :=
  match e with
  | ValueError msg | NotImplementedError msg | UnicodeDecodeError msg
  | UnicodeEncodeError msg | RuntimeError msg | OtherException msg => msg
  | OSError no filename =>
      lit "[Errno " ++ str_of_nat (errno_number no) ++ lit "] " ++ strerror no
      ++ lit ": " ++ repr filename
  | EOFError => lit "EOF when reading a line"
  | SystemExit code => str_of_nat code
  | KeyboardInterrupt => []
  end.

(** The outcome of a search that [pathlib] makes below the directory. *)
Definition glob_below (fs : filesystem) (p : str) (pattern_parts : list str)
  : M (list str) :=
  match fs_glob_below fs p pattern_parts with
  | inl msg => raise (OtherException msg)
  | inr found => ret found
  end.

(** [print(line)]: the line is written, or nothing is and the encoding
    failure is raised. *)
Definition print (out : console) (line : str) : M unit :=
  match out line with
  | None => emit (Print line)
  | Some msg => raise (UnicodeEncodeError msg)
  end.

(** [sys.exit(code)] *)
Definition sys_exit {A} (code : nat) : M A := raise (SystemExit code).

(** [input(prompt)]: without a standard input nothing is written;
    otherwise the prompt goes to the standard output and a line is
    awaited. *)
Definition input (out : console) (stdin : stdin_state) (prompt : str) : M str :=
  let show_prompt : M unit :=
    match out prompt with
    | None => emit (Input prompt)
    | Some msg => raise (UnicodeEncodeError msg)
    end in
  match stdin with
  | Lost => raise (RuntimeError (lit "input(): lost sys.stdin"))
  | Line answer => show_prompt ;; ret answer
  | EndOfInput => show_prompt ;; raise EOFError
  | Interrupted => show_prompt ;; raise KeyboardInterrupt
  end.

Definition stat_exists (fs : filesystem) (p : Path) : bool :=
  match fs_stat fs (path_str p) with Some _ => true | None => false end.

Definition stat_is_dir (fs : filesystem) (p : Path) : bool :=
  match fs_stat fs (path_str p) with Some Directory => true | _ => false end.

Definition stat_is_file (fs : filesystem) (p : Path) : bool :=
  match fs_stat fs (path_str p) with Some RegularFile => true | _ => false end.

(** [p.exists()] *)
Definition path_exists (fs : filesystem) (p : Path) : M bool :=
  emit (SysExists (path_str p)) ;; ret (stat_exists fs p).

(** [p.is_file()] *)
Definition is_file (fs : filesystem) (p : Path) : M bool :=
  emit (SysIsFile (path_str p)) ;; ret (stat_is_file fs p).

(** [p.iterdir()] *)
Definition iterdir (fs : filesystem) (p : Path) : M (list Path) :=
  emit (SysIterdir (path_str p)) ;;
  match fs_stat fs (path_str p) with
  | Some Directory => ret (List.map (child p) (fs_listdir fs (path_str p)))
  | Some _ => raise (OSError ENOTDIR (path_str p))
  | None => raise (OSError ENOENT (path_str p))
  end.

(** [open(name, 'r')] read to the end: the text after the translation of
    [\r\n] and [\r] into [\n]. *)
Fixpoint universal_newlines (s : str) : str :=
  match s with
  | [] => []
  | c :: rest =>
      if N.eqb c 13 then
        newline :: match rest with
                   | d :: rest' =>
                       if N.eqb d newline then universal_newlines rest'
                       else universal_newlines rest
                   | [] => []
                   end
      else c :: universal_newlines rest
  end.

Definition open_text (fs : filesystem) (name : str) : M str :=
  emit (SysOpen name) ;;
  match fs_open fs name with
  | Text content => ret (universal_newlines content)
  | CannotOpen e => raise (OSError e name)
  | CannotDecode msg => raise (UnicodeDecodeError msg)
  end.

(** [for line in f]: the lines of a text, each with the newline that ends
    it; [cur] holds the line being read, reversed. *)
Fixpoint lines_from (cur : str) (s : str) : list str :=
  match s with
  | [] => if nilb cur then [] else [rev cur]
  | c :: s' =>
      if N.eqb c newline then rev (c :: cur) :: lines_from [] s'
      else lines_from (c :: cur) s'
  end.

Definition lines (s : str) : list str := lines_from [] s.

Definition is_wildcard_pattern (pat : str) : bool :=
  mem 42 pat || mem 63 pat || mem 91 pat.

(** [fnmatch] of [name] against [pat], as [pathlib] uses it. *)
Definition fnmatch (pat name : str) : bool :=
  re_fullmatch (translate pat) name.

(** [list(p.glob(pattern))], every path found given by its [str]. *)
Definition glob (fs : filesystem) (p : Path) (pattern : str) : M (list str) :=
  emit (SysGlob (path_str p) pattern) ;;
  if nilb pattern then raise (ValueError (lit "Unacceptable pattern: ''")) else
  let pp := parse_parts pattern in
  if negb (nilb (root pp)) then
    raise (NotImplementedError (lit "Non-relative patterns are unsupported"))
  else
  let pattern_parts :=
    parts pp ++ (if N.eqb (last pattern 0%N) 47 then [[]] else []) in
  match pattern_parts with
  | [pat] =>
      if nilb pat || str_eqb pat (lit "**") then
        glob_below fs (path_str p) pattern_parts
      else if contains (lit "**") pat then
        raise (ValueError
                 (lit "Invalid pattern: '**' can only be an entire path component"))
      else if negb (stat_is_dir fs p) then ret []
      else if is_wildcard_pattern pat then
        ret (List.map (fun name => path_str (child p name))
               (filter (fnmatch pat) (fs_listdir fs (path_str p))))
      else if stat_exists fs (child p pat) then ret [path_str (child p pat)]
      else ret []
  | _ => glob_below fs (path_str p) pattern_parts
  end.

(** ** The program *)

(** [validate_file_formats(folder_path, regex_pattern)]; the pattern is
    given compiled. *)
Definition validate_file_formats (fs : filesystem) (folder_path : str)
    (regex_pattern : regex) : M (list str * list str) :=
  let pattern := regex_pattern in
  let folder := parse_parts folder_path in
  found <- path_exists fs folder ;;
  if negb found then
    raise (ValueError (lit "Folder does not exist: " ++ folder_path))
  else
  entries <- iterdir fs folder ;;
  for_each entries
    (fun file_path '(valid_files, invalid_files) =>
       regular <- is_file fs file_path ;;
       if regular then
         let filename := path_name file_path in
         if re_match pattern filename then
           ret (valid_files ++ [filename], invalid_files)
         else
           ret (valid_files, invalid_files ++ [filename])
       else ret (valid_files, invalid_files))
    ([], []).

(** [get_files_for_eyf_ids(folder_path, eyf_ids)] *)
Definition get_files_for_eyf_ids (fs : filesystem) (folder_path : str)
    (eyf_ids : list str) : M (list (str * list str)) :=
  let folder := parse_parts folder_path in
  found <- path_exists fs folder ;;
  if negb found then
    raise (ValueError (lit "Folder does not exist: " ++ folder_path))
  else
  for_each eyf_ids
    (fun eyf_id result =>
       matching_files <- glob fs folder (eyf_id ++ lit "_*.pdf") ;;
       ret (result ++ [(eyf_id, matching_files)]))
    [].

(** [read_eyf_ids_from_file(ids_file)] *)
Definition read_eyf_ids_from_file (fs : filesystem) (ids_file : str) : M (list str) :=
  f <- open_text fs ids_file ;;
  ret (List.map strip (lines f)).

(** [process_waiver_matches(eyf_ids_with_filepaths)] *)
Definition process_waiver_matches (out : console)
    (eyf_ids_with_filepaths : list (str * list str)) : M (list str) :=
  for_each eyf_ids_with_filepaths
    (fun '(eyf_id, filepaths) pdfs_to_combine =>
       if length filepaths =? 0 then
         print out (lit "ERROR: No waiver found for EYF ID " ++ eyf_id) ;;
         ret pdfs_to_combine
       else if 1 <? length filepaths then
         print out (lit "ERROR: Multiple waivers found for EYF ID " ++ eyf_id ++ lit ":") ;;
         for_each filepaths (fun filepath _ => print out (lit "  " ++ filepath)) tt ;;
         ret pdfs_to_combine
       else
         ret (pdfs_to_combine ++ [nth 0 filepaths []]))
    [].

(** [combine_pdfs(pdf_list)] *)
Definition combine_pdfs (out : console) (pdf_list : list str) : M unit :=
  print out (lit "PDFs to combine:") ;;
  for_each pdf_list (fun pdf _ => print out (lit "  " ++ pdf)) tt.

Definition file_pattern : str :=
  lit "[EYF ID]_[Client name]_KCS Records Consent_[previous file name]_[date].pdf".

Definition digit : regex := CharSet false [Range 48 57].

Definition letter_or_space : regex :=
  CharSet false [Range 65 90; Range 97 122; One 32].

(** [re.compile(r"^[0-9]+_[A-Za-z ]+_KCS Records Consent_.*\.pdf$")] *)
Definition regex_pattern : regex :=
  seq_of ([Bol; Plus digit; Lit 95; Plus letter_or_space]
          ++ lits (lit "_KCS Records Consent_")
          ++ [Star Dot] ++ lits (lit ".pdf") ++ [Eol]).

(** The body of the [try] statement of [main] (lines 125 to 145). *)
Definition main_try_body (fs : filesystem) (out : console) (stdin : stdin_state)
    (folder_path : str) (eyf_ids : list str) : M unit :=
  '(valid_files, invalid_files) <- validate_file_formats fs folder_path regex_pattern ;;
  (if 0 <? length invalid_files then
     print out (lit "ERROR: Some files do not match the expected format: "
                ++ file_pattern) ;;
     for_each invalid_files (fun file _ => print out file) tt ;;
     sys_exit 1
   else ret tt) ;;
  eyf_ids_with_filepaths <- get_files_for_eyf_ids fs folder_path eyf_ids ;;
  pdfs_to_combine <- process_waiver_matches out eyf_ids_with_filepaths ;;
  let fully_matched_count := length pdfs_to_combine in
  let eyf_id_count := length eyf_ids in
  print out (lit "Successfully matched waivers for " ++ str_of_nat fully_matched_count
             ++ lit " out of " ++ str_of_nat eyf_id_count
             ++ lit " EYF IDs. Proceed with PDF generation?") ;;
  answer <- input out stdin (lit "Enter 'y' to continue or 'n' to cancel: ") ;;
  let user_input := lower (strip answer) in
  if negb (str_eqb user_input (lit "y")) then
    print out (lit "Operation cancelled.") ;;
    sys_exit 0
  else
    combine_pdfs out pdfs_to_combine.

(** [main()], with [sys.argv], the file system, the standard output and
    the standard input. *)
Definition main (argv : list str) (fs : filesystem) (out : console)
    (stdin : stdin_state) : M unit :=
  if negb (length argv =? 3) then
    print out (lit "Usage: python generate_pdf_request.py <waiver_folder_path> <ids_file>") ;;
    print out (lit "  <waiver_folder_path>: Path to the folder containing the FERPA waivers") ;;
    print out (lit "  <ids_file>: Path to text file containing EYF IDs (one per line)") ;;
    sys_exit 1
  else
  let folder_path := nth 1 argv [] in
  let ids_file := nth 2 argv [] in
  eyf_ids <- read_eyf_ids_from_file fs ids_file ;;
  try_except
    (main_try_body fs out stdin folder_path eyf_ids)
    (fun e => print out (lit "Unexpected Error: " ++ str_of_exn e)).

(** ** Vocabulary of the properties *)

(** The names of the regular files directly inside the folder, in the
    order of the directory. *)
Definition regular_among (fs : filesystem) (folder_path : str) (names : list str)
  : list str :=
  filter (fun name => stat_is_file fs (child (parse_parts folder_path) name)) names.

Definition regular_files (fs : filesystem) (folder_path : str) : list str :=
  regular_among fs folder_path (fs_listdir fs (path_str (parse_parts folder_path))).

(** The [is_file] calls made for the names of a folder. *)
Definition is_file_events (folder_path : str) (names : list str) : list event :=
  List.map (fun name => SysIsFile (path_str (child (parse_parts folder_path) name)))
    names.

(** The [glob] calls made for a list of identifiers. *)
Definition glob_events (folder_path : str) (eyf_ids : list str) : list event :=
  List.map (fun eyf_id =>
              SysGlob (path_str (parse_parts folder_path)) (eyf_id ++ lit "_*.pdf"))
    eyf_ids.

(** The names in the folder that begin with [eyf_id] followed by an
    underscore and end with [.pdf], compared character by character. *)
Definition named_for (eyf_id : str) (name : str) : bool :=
  startswith (eyf_id ++ lit "_") name && endswith (lit ".pdf") name.

Definition waivers_named_for (fs : filesystem) (folder_path : str) (eyf_id : str)
  : list str :=
  let folder := parse_parts folder_path in
  List.map (fun name => path_str (child folder name))
    (filter (named_for eyf_id) (fs_listdir fs (path_str folder))).

(** An identifier without the characters that [Path.glob] gives a meaning
    to: [*], [?], the opening bracket and the path separator. *)
Definition plain_char (c : N) : bool :=
  negb (N.eqb c 42 || N.eqb c 63 || N.eqb c 91 || N.eqb c 47).

Definition plain_identifier (eyf_id : str) : bool := forallb plain_char eyf_id.

(** The identifier loader as the specification words it: one identifier
    per non-empty line. *)
Definition nonblank_identifiers (text : str) : list str :=
  filter (fun eyf_id => negb (nilb eyf_id)) (List.map strip (lines text)).

(** The number of lines of a text: its newlines, and one more when
    characters follow the last newline. *)
Definition line_count (text : str) : nat :=
  count_occ N.eq_dec text newline
  + (if nilb text || N.eqb (last text 0%N) newline then 0 else 1).

(** A string has no whitespace at either end. *)
Definition trimmed (s : str) : Prop :=
  (forall c rest, s = c :: rest -> isspace c = false) /\
  (forall c init, s = init ++ [c] -> isspace c = false).

(** A computation that raises nothing but subclasses of [Exception]. *)
Definition raises_only_exceptions {A} (m : M A) : Prop :=
  forall e, result_of m = inl e -> is_Exception e = true.

(** The console can encode every line of [lines]. *)
Definition accepts (out : console) (lines : list str) : bool :=
  forallb (fun line => match out line with None => true | Some _ => false end) lines.

(** The lines of [lines] that are written when they are printed one
    after the other: those before the first one the console rejects. *)
Fixpoint written (out : console) (lines : list str) : list str :=
  match lines with
  | [] => []
  | line :: rest =>
      match out line with
      | None => line :: written out rest
      | Some _ => []
      end
  end.

(** What stops the printing of [lines]: the failure of the first line the
    console rejects. *)
Fixpoint rejection (out : console) (lines : list str) : option exn :=
  match lines with
  | [] => None
  | line :: rest =>
      match out line with
      | None => rejection out rest
      | Some msg => Some (UnicodeEncodeError msg)
      end
  end.

(** The lines [lines] printed one after the other, then the outcome
    [r]: the printing stops with the failure of the first line the console
    rejects. *)
Definition printing {A} (out : console) (lines : list str) (r : exn + A) : M A :=
  (List.map Print (written out lines),
   match rejection out lines with
   | None => r
   | Some e => inl e
   end).

(** A string of printable ASCII characters other than the single quote
    and the backslash: what [repr] shows as it is. *)
Definition unquoted (s : str) : bool :=
  forallb (fun c => ((32 <=? c) && (c <? 127) && negb (c =? 39) && negb (c =? 92))%N) s.

(** The prompt of [main]. *)
Definition prompt : str := lit "Enter 'y' to continue or 'n' to cancel: ".

(** The lines [combine_pdfs] prints. *)
Definition combined_lines (pdf_list : list str) : list str :=
  lit "PDFs to combine:" :: List.map (fun pdf => lit "  " ++ pdf) pdf_list.

(** Lines 140 to 145 of [main]: the prompt and what follows the answer. *)
Definition confirmation (out : console) (stdin : stdin_state)
    (pdfs_to_combine : list str) : M unit :=
  answer <- input out stdin prompt ;;
  let user_input := lower (strip answer) in
  if negb (str_eqb user_input (lit "y")) then
    print out (lit "Operation cancelled.") ;;
    sys_exit 0
  else
    combine_pdfs out pdfs_to_combine.

(** The line that announces the names breaking the convention. *)
Definition violation_header : str :=
  lit "ERROR: Some files do not match the expected format: " ++ file_pattern.

(** The summary shown before the confirmation prompt. *)
Definition summary (fully_matched_count eyf_id_count : nat) : str :=
  lit "Successfully matched waivers for " ++ str_of_nat fully_matched_count
  ++ lit " out of " ++ str_of_nat eyf_id_count
  ++ lit " EYF IDs. Proceed with PDF generation?".

Definition usage : list str :=
  [lit "Usage: python generate_pdf_request.py <waiver_folder_path> <ids_file>";
   lit "  <waiver_folder_path>: Path to the folder containing the FERPA waivers";
   lit "  <ids_file>: Path to text file containing EYF IDs (one per line)"].

(** The resolved output of the reporter: the file of every result that
    has exactly one. *)
Definition resolved (results : list (str * list str)) : list str :=
  flat_map (fun r => match snd r with [p] => [p] | _ => [] end) results.

(** The error report of one result. *)
Definition error_report (r : str * list str) : list str :=
  match snd r with
  | [] => [lit "ERROR: No waiver found for EYF ID " ++ fst r]
  | [_] => []
  | paths =>
      (lit "ERROR: Multiple waivers found for EYF ID " ++ fst r ++ lit ":")
      :: List.map (fun p => lit "  " ++ p) paths
  end.

(** Two states of the machine that show the same folder: the same entry
    for the folder itself, the same names in it, the same entry for each
    of these. *)
Definition same_folder (fs1 fs2 : filesystem) (folder_path : str) : Prop :=
  let folder := parse_parts folder_path in
  fs_stat fs1 (path_str folder) = fs_stat fs2 (path_str folder) /\
  fs_listdir fs1 (path_str folder) = fs_listdir fs2 (path_str folder) /\
  forall name, In name (fs_listdir fs1 (path_str folder)) ->
    fs_stat fs1 (path_str (child folder name)) =
    fs_stat fs2 (path_str (child folder name)).

Definition is_digit (c : N) : bool := ((48 <=? c) && (c <=? 57))%N.

Definition is_letter_or_space (c : N) : bool :=
  ((65 <=? c) && (c <=? 90) || (97 <=? c) && (c <=? 122) || (c =? 32))%N.

(** The naming convention in words: digits, an underscore, letters and
    spaces, the fixed text, anything on one line, and [.pdf]; a newline
    may end the name. *)
Definition conforming (name : str) : Prop :=
  exists ds nm rest tail,
    name = ds ++ lit "_" ++ nm ++ lit "_KCS Records Consent_" ++ rest
           ++ lit ".pdf" ++ tail /\
    ds <> [] /\ forallb is_digit ds = true /\
    nm <> [] /\ forallb is_letter_or_space nm = true /\
    forallb (fun c => negb (N.eqb c newline)) rest = true /\
    (tail = [] \/ tail = [newline]).

Definition str_eq_dec : forall a b : str, {a = b} + {a <> b} :=
  list_eq_dec N.eq_dec.

(** ** Machines and consoles used as examples *)

Definition is_surrogate (c : N) : bool := ((55296 <=? c) && (c <=? 57343))%N.

(** The surrogates a string begins with. *)
Fixpoint surrogate_run (s : str) : nat :=
  match s with
  | c :: rest => if is_surrogate c then S (surrogate_run rest) else 0
  | [] => 0
  end.

(** The first surrogate of a string: its position, the code point and the
    number of surrogates that follow one another from there. *)
Fixpoint first_surrogate (pos : nat) (s : str) : option (nat * N * nat) :=
  match s with
  | [] => None
  | c :: rest =>
      if is_surrogate c then Some (pos, c, S (surrogate_run rest))
      else first_surrogate (S pos) rest
  end.

(** A standard output encoded in UTF-8 with strict error handling: every
    line is written except one that holds a surrogate, as the names of
    files that are not valid UTF-8 do. *)
Definition utf8_console : console :=
  fun line =>
    match first_surrogate 0 line with
    | None => None
    | Some (pos, c, run) =>
        Some (if run =? 1 then
                lit "'utf-8' codec can't encode character '\u" ++ hex_fixed 4 c
                ++ lit "' in position " ++ str_of_nat pos
                ++ lit ": surrogates not allowed"
              else
                lit "'utf-8' codec can't encode characters in position "
                ++ str_of_nat pos ++ lit "-" ++ str_of_nat (pos + run - 1)
                ++ lit ": surrogates not allowed")
    end.

(** A machine with one folder [dir] holding [entries], and the text files
    [texts] given by their paths. *)
Definition machine (dir : str) (entries : list (str * kind))
    (texts : list (str * str)) : filesystem :=
  {| fs_stat := fun p =>
       if str_eqb p dir then Some Directory
       else match find (fun e => str_eqb p (dir ++ lit "/" ++ fst e)) entries with
            | Some e => Some (snd e)
            | None =>
                match find (fun t => str_eqb p (fst t)) texts with
                | Some _ => Some RegularFile
                | None => None
                end
            end;
     fs_listdir := fun p => if str_eqb p dir then List.map fst entries else [];
     fs_open := fun p =>
       match find (fun t => str_eqb p (fst t)) texts with
       | Some t => Text (snd t)
       | None => CannotOpen ENOENT
       end;
     fs_glob_below := fun _ _ => inr [] |}.

Definition waivers : list (str * kind) :=
  [(lit "100_Jane Doe_KCS Records Consent_2023.pdf", RegularFile);
   (lit "101_John Roe_KCS Records Consent_2023.pdf", RegularFile)].

(** The end-to-end scenario of the specification. *)
Definition fs_scenario : filesystem :=
  machine (lit "w") waivers [(lit "ids.txt", lit "100" ++ nl ++ lit "101" ++ nl)].

(** The same folder, with a blank line in the identifier file. *)
Definition fs_blank_line : filesystem :=
  machine (lit "w") waivers [(lit "ids.txt", lit "100" ++ nl ++ nl ++ lit "101" ++ nl)].

(** The same folder, with an empty identifier file. *)
Definition fs_no_identifiers : filesystem :=
  machine (lit "w") waivers [(lit "ids.txt", [])].

(** A folder where two names start with [1]. *)
Definition fs_prefixes : filesystem :=
  machine (lit "w")
    [(lit "12_Ann Lee_KCS Records Consent_a.pdf", RegularFile);
     (lit "1_Bob Ray_KCS Records Consent_b.pdf", RegularFile)]
    [(lit "ids.txt", lit "1*" ++ nl)].

(** A folder with a name that breaks the convention and a sub-folder. *)
Definition fs_violation : filesystem :=
  machine (lit "w")
    [(lit "abc_Smith_KCS Records Consent_x.pdf", RegularFile);
     (lit "100_Jane Doe_KCS Records Consent_2023.pdf", RegularFile);
     (lit "notes.txt", RegularFile);
     (lit "archive", Directory)]
    [(lit "ids.txt", lit "100" ++ nl)].

(** A machine without the folder and without the identifier file. *)
Definition fs_empty : filesystem :=
  {| fs_stat := fun _ => None;
     fs_listdir := fun _ => [];
     fs_open := fun _ => CannotOpen ENOENT;
     fs_glob_below := fun _ _ => inr [] |}.

(** The folder is missing, the identifier file is there. *)
Definition fs_no_folder : filesystem :=
  {| fs_stat := fun p => if str_eqb p (lit "ids.txt") then Some RegularFile else None;
     fs_listdir := fun _ => [];
     fs_open := fun p =>
       if str_eqb p (lit "ids.txt") then Text (lit "100" ++ nl)
       else CannotOpen ENOENT;
     fs_glob_below := fun _ _ => inr [] |}.

Definition argv_scenario : list str :=
  [lit "generate_pdf_request.py"; lit "w"; lit "ids.txt"].

(** The name of a file whose bytes are not valid UTF-8: the byte 0x80
    reaches Python as the surrogate U+DC80. *)
Definition undecodable_name : str := lit "scan" ++ [56448%N] ++ lit ".pdf".

(** The folder of the scenario with such a file added. *)
Definition fs_undecodable_name : filesystem :=
  machine (lit "w") (waivers ++ [(undecodable_name, RegularFile)])
    [(lit "ids.txt", lit "100" ++ nl)].

(** The arguments of a run that names a folder in bytes that are not
    valid UTF-8. *)
Definition argv_undecodable_folder : list str :=
  [lit "generate_pdf_request.py"; lit "w" ++ [56448%N]; lit "ids.txt"].

(** ** Vocabulary of the further properties *)

(** What [glob] finds for one identifier, nothing when it raises. *)
Definition glob_paths (fs : filesystem) (folder_path : str) (eyf_id : str) : list str :=
  match result_of (glob fs (parse_parts folder_path) (eyf_id ++ lit "_*.pdf")) with
  | inr paths => paths
  | inl _ => []
  end.

(** The digits a name begins with. *)
Fixpoint leading_number (name : str) : str :=
  match name with
  | c :: rest => if is_digit c then c :: leading_number rest else []
  | [] => []
  end.

(** A text with every line ended the Windows way. *)
Definition to_crlf (text : str) : str :=
  flat_map (fun c => if N.eqb c newline then [13%N; newline] else [c]) text.

(** An answer to the confirmation prompt that is [y] or [Y] between
    whitespace. *)
Definition affirmative (answer : str) : Prop :=
  exists pre c post,
    answer = pre ++ c :: post /\
    forallb isspace pre = true /\ forallb isspace post = true /\
    (c = 121%N \/ c = 89%N).

(** The results that did not resolve to one file. *)
Definition unresolved (results : list (str * list str)) : list (str * list str) :=
  filter (fun r => negb (length (snd r) =? 1)) results.

(** The printed lines that open an error report. *)
Definition error_headers (printed_lines : list str) : list str :=
  filter (startswith (lit "ERROR: ")) printed_lines.

(** A machine where the path [w] is a regular file, not a folder. *)
Definition fs_folder_is_a_file : filesystem :=
  machine (lit "elsewhere") []
    [(lit "w", lit "not a folder"); (lit "ids.txt", lit "100" ++ nl ++ lit "101" ++ nl)].

(** The scenario with the identifier file written on Windows. *)
Definition fs_scenario_crlf : filesystem :=
  machine (lit "w") waivers
    [(lit "ids.txt", to_crlf (lit "100" ++ nl ++ lit "101" ++ nl))].

(** The scenario without a newline after the last identifier. *)
Definition fs_scenario_open_end : filesystem :=
  machine (lit "w") waivers [(lit "ids.txt", lit "100" ++ nl ++ lit "101")].

(** * Properties *)

(** ** The scenarios of the specification, run *)

Example summary_two_of_three :
  summary 2 3
  = lit "Successfully matched waivers for 2 out of 3 EYF IDs. Proceed with PDF generation?".
Proof. reflexivity. Qed.

Example end_to_end_scenario :
  main argv_scenario fs_scenario utf8_console (Line (lit "y"))
  = ([SysOpen (lit "ids.txt");
      SysExists (lit "w"); SysIterdir (lit "w");
      SysIsFile (lit "w/100_Jane Doe_KCS Records Consent_2023.pdf");
      SysIsFile (lit "w/101_John Roe_KCS Records Consent_2023.pdf");
      SysExists (lit "w");
      SysGlob (lit "w") (lit "100_*.pdf");
      SysGlob (lit "w") (lit "101_*.pdf");
      Print (summary 2 2);
      Input (lit "Enter 'y' to continue or 'n' to cancel: ");
      Print (lit "PDFs to combine:");
      Print (lit "  w/100_Jane Doe_KCS Records Consent_2023.pdf");
      Print (lit "  w/101_John Roe_KCS Records Consent_2023.pdf")],
     inr tt).
Proof. reflexivity. Qed.

Example declined_prompt :
  result_of (main argv_scenario fs_scenario utf8_console (Line (lit " N "))) = inl (SystemExit 0) /\
  exit_status (main argv_scenario fs_scenario utf8_console (Line (lit " N "))) = 0.
Proof. split; reflexivity. Qed.

Example empty_identifier_file :
  printed (trace_of (main argv_scenario fs_no_identifiers utf8_console (Line (lit "Y"))))
  = [summary 0 0; lit "PDFs to combine:"].
Proof. reflexivity. Qed.

Example matcher_zero_one_two :
  result_of (get_files_for_eyf_ids fs_prefixes (lit "w") [lit "7"; lit "12"; lit "1"])
  = inr [(lit "7", []);
         (lit "12", [lit "w/12_Ann Lee_KCS Records Consent_a.pdf"]);
         (lit "1", [lit "w/1_Bob Ray_KCS Records Consent_b.pdf"])].
Proof. reflexivity. Qed.

Example question_mark_is_a_wildcard :
  result_of (get_files_for_eyf_ids fs_prefixes (lit "w") [lit "1?"])
  = inr [(lit "1?", [lit "w/12_Ann Lee_KCS Records Consent_a.pdf"])].
Proof. reflexivity. Qed.

Example bracket_is_a_set :
  result_of (get_files_for_eyf_ids fs_prefixes (lit "w") [lit "[0-9]"])
  = inr [(lit "[0-9]", [lit "w/1_Bob Ray_KCS Records Consent_b.pdf"])].
Proof. reflexivity. Qed.

Example absolute_identifier_raises :
  result_of (get_files_for_eyf_ids fs_prefixes (lit "w") [lit "/1"])
  = inl (NotImplementedError (lit "Non-relative patterns are unsupported")).
Proof. reflexivity. Qed.

Example uppercase_is_another_name :
  named_for (lit "ab") (lit "AB_x.pdf") = false /\
  named_for (lit "ab") (lit "ab_x.PDF") = false /\
  named_for (lit "ab") (lit "ab_x.pdf") = true.
Proof. repeat split. Qed.

(** ** Lists and strings *)

(** Brings nested concatenations to one right-nested form. *)
Ltac list_norm :=
  repeat (progress (cbn [app]; rewrite <- ?app_assoc, ?app_nil_r)).

Lemma nilb_app {A} (u v : list A) : nilb (u ++ v) = nilb u && nilb v.
Proof. destruct u; reflexivity. Qed.

Lemma nilb_true {A} (u : list A) : nilb u = true <-> u = [].
Proof. destruct u; simpl; split; congruence. Qed.

Lemma nilb_false {A} (u : list A) : u <> [] -> nilb u = false.
Proof. destruct u; [congruence | reflexivity]. Qed.

Lemma str_eqb_eq (a b : str) : str_eqb a b = true <-> a = b.
Proof.
  revert b; induction a as [|x a IH]; intros [|y b]; simpl; split; try congruence.
  - intros H. apply andb_true_iff in H as [Hx Hab].
    apply N.eqb_eq in Hx. apply IH in Hab. congruence.
  - intros H. injection H as -> ->. rewrite N.eqb_refl. apply IH. reflexivity.
Qed.

Lemma startswith_iff (p s : str) :
  startswith p s = true <-> exists r, s = p ++ r.
Proof.
  revert s; induction p as [|x p IH]; intros s; simpl.
  - split; [intros _; exists s; reflexivity | reflexivity].
  - destruct s as [|y s].
    + split; [discriminate | intros [r Hr]; discriminate].
    + rewrite andb_true_iff, N.eqb_eq, IH. split.
      * intros [-> [r ->]]. exists r. reflexivity.
      * intros [r Hr]. injection Hr as -> ->. split; [reflexivity | exists r; reflexivity].
Qed.

Lemma endswith_iff (p s : str) :
  endswith p s = true <-> exists q, s = q ++ p.
Proof.
  unfold endswith. rewrite startswith_iff. split.
  - intros [r Hr]. exists (rev r).
    rewrite <- (rev_involutive s), Hr, rev_app_distr, rev_involutive. reflexivity.
  - intros [q ->]. exists (rev q). apply rev_app_distr.
Qed.

(** ** The regular-expression matcher finds exactly the matches *)

Section StarLoop.
Variable r : regex.
Variable step : bool -> str -> (bool -> str -> bool) -> bool.
Hypothesis step_spec : forall b s k,
  step b s k = true <->
  exists u v, s = u ++ v /\ Matches r b u v /\ k (b && nilb u) v = true.

Lemma star_loop_sound fuel : forall b s k,
  star_loop step fuel b s k = true ->
  exists u v, s = u ++ v /\ Matches (Star r) b u v /\ k (b && nilb u) v = true.
Proof.
  induction fuel as [|f IH]; intros b s k H; simpl in H.
  - exists [], s. rewrite andb_true_r. repeat split; auto. constructor.
  - apply orb_true_iff in H as [H|H].
    + apply step_spec in H as (u1 & v1 & -> & Hr & Hk).
      apply andb_true_iff in Hk as [Hlen Hk].
      apply Nat.ltb_lt in Hlen. rewrite length_app in Hlen.
      assert (Hu1 : u1 <> []) by (intros ->; simpl in Hlen; lia).
      apply IH in Hk as (u2 & v & -> & Hs & Hk).
      pose proof (nilb_false Hu1) as Hn.
      rewrite Hn, andb_false_r in Hs, Hk. simpl in Hk.
      exists (u1 ++ u2), v. rewrite app_assoc. split; [reflexivity|]. split.
      * apply M_StarS; assumption.
      * rewrite nilb_app, Hn. simpl. rewrite andb_false_r. exact Hk.
    + exists [], s. rewrite andb_true_r. repeat split; auto. constructor.
Qed.

Lemma star_loop_complete fuel : forall b u v k,
  length (u ++ v) <= fuel ->
  Matches (Star r) b u v ->
  k (b && nilb u) v = true ->
  star_loop step fuel b (u ++ v) k = true.
Proof.
  induction fuel as [|f IH]; intros b u v k Hlen Hm Hk.
  - inversion Hm; subst.
    + simpl. rewrite andb_true_r in Hk. exact Hk.
    + destruct u1; [congruence|]. simpl in Hlen. lia.
  - simpl. inversion Hm; subst.
    + rewrite andb_true_r in Hk. simpl. rewrite Hk. apply orb_true_r.
    + apply orb_true_iff. left. apply step_spec.
      exists u1, (u2 ++ v). rewrite <- app_assoc. split; [reflexivity|].
      split; [assumption|].
      match goal with H : u1 <> [] |- _ => pose proof (nilb_false H) as Hn end.
      rewrite Hn, andb_false_r.
      apply andb_true_iff. split.
      * apply Nat.ltb_lt. rewrite !length_app. destruct u1; [congruence|]. simpl. lia.
      * apply IH; auto.
        -- rewrite <- app_assoc, length_app in Hlen. destruct u1; [congruence|].
           simpl in Hlen. lia.
        -- rewrite nilb_app, Hn in Hk. rewrite andb_false_r in Hk. exact Hk.
Qed.
End StarLoop.

Theorem accept_spec (r : regex) : forall b s k,
  accept r b s k = true <->
  exists u v, s = u ++ v /\ Matches r b u v /\ k (b && nilb u) v = true.
Proof.
  induction r as [| c | | | n items | | | | r1 IH1 r2 IH2 | r IH]; intros b s k.
  - simpl. split.
    + intros H. exists [], s. rewrite andb_true_r. repeat split; auto. constructor.
    + intros (u & v & -> & Hm & Hk). inversion Hm; subst.
      rewrite andb_true_r in Hk. exact Hk.
  - simpl. split.
    + destruct s as [|x s']; [discriminate|]. intros H.
      apply andb_true_iff in H as [Hc Hk]. apply N.eqb_eq in Hc. subst x.
      exists [c], s'. rewrite andb_false_r. repeat split; auto. constructor.
    + intros (u & v & -> & Hm & Hk). inversion Hm; subst. simpl.
      rewrite N.eqb_refl. rewrite andb_false_r in Hk. exact Hk.
  - simpl. split.
    + destruct s as [|x s']; [discriminate|]. intros H.
      apply andb_true_iff in H as [Hc Hk]. apply negb_true_iff, N.eqb_neq in Hc.
      exists [x], s'. rewrite andb_false_r. repeat split; auto. constructor. exact Hc.
    + intros (u & v & -> & Hm & Hk). inversion Hm; subst. simpl.
      rewrite andb_false_r in Hk. rewrite Hk.
      match goal with H : _ <> newline |- _ => apply N.eqb_neq in H; rewrite H end.
      reflexivity.
  - simpl. split.
    + destruct s as [|x s']; [discriminate|]. intros H.
      exists [x], s'. rewrite andb_false_r. repeat split; auto. constructor.
    + intros (u & v & -> & Hm & Hk). inversion Hm; subst. simpl.
      rewrite andb_false_r in Hk. exact Hk.
  - simpl. split.
    + destruct s as [|x s']; [discriminate|]. intros H.
      apply andb_true_iff in H as [Hc Hk].
      exists [x], s'. rewrite andb_false_r. repeat split; auto. constructor. exact Hc.
    + intros (u & v & -> & Hm & Hk). inversion Hm; subst. simpl.
      rewrite andb_false_r in Hk. rewrite Hk.
      match goal with H : in_cset _ _ _ = true |- _ => rewrite H end.
      reflexivity.
  - simpl. split.
    + intros H. apply andb_true_iff in H as [-> Hk].
      exists [], s. repeat split; auto. constructor.
    + intros (u & v & -> & Hm & Hk). inversion Hm; subst. exact Hk.
  - simpl. split.
    + intros H. apply andb_true_iff in H as [He Hk].
      exists [], s. rewrite andb_true_r. repeat split; auto. constructor.
      apply orb_true_iff in He as [He|He].
      * left. apply nilb_true. exact He.
      * right. apply str_eqb_eq. exact He.
    + intros (u & v & -> & Hm & Hk). inversion Hm; subst.
      rewrite andb_true_r in Hk. simpl. rewrite Hk, andb_true_r.
      match goal with H : _ \/ _ |- _ => destruct H as [-> | ->] end; reflexivity.
  - simpl. split.
    + intros H. apply andb_true_iff in H as [He Hk]. apply nilb_true in He. subst s.
      exists [], []. rewrite andb_true_r. repeat split; auto. constructor.
    + intros (u & v & -> & Hm & Hk). inversion Hm; subst.
      rewrite andb_true_r in Hk. exact Hk.
  - simpl. rewrite IH1. split.
    + intros (u1 & v1 & -> & H1 & H2). apply IH2 in H2 as (u2 & v & -> & H2 & Hk).
      exists (u1 ++ u2), v. rewrite app_assoc. split; [reflexivity|].
      split; [constructor; assumption|]. rewrite nilb_app, andb_assoc. exact Hk.
    + intros (u & v & -> & Hm & Hk). inversion Hm; subst.
      exists u1, (u2 ++ v). rewrite app_assoc. split; [reflexivity|].
      split; [assumption|]. apply IH2. exists u2, v. split; [reflexivity|].
      split; [assumption|]. rewrite nilb_app, andb_assoc in Hk. exact Hk.
  - simpl. split.
    + apply star_loop_sound. exact IH.
    + intros (u & v & -> & Hm & Hk). apply star_loop_complete with (r := r); auto.
Qed.

Corollary re_match_iff (r : regex) (s : str) :
  re_match r s = true <-> re_matches r s.
Proof.
  unfold re_match, re_matches. rewrite accept_spec. split.
  - intros (u & v & E & Hm & _). exists u, v. auto.
  - intros (u & v & E & Hm). exists u, v. auto.
Qed.

Corollary re_fullmatch_iff (r : regex) (s : str) :
  re_fullmatch r s = true <-> Matches r true s [].
Proof.
  unfold re_fullmatch. rewrite accept_spec. split.
  - intros (u & v & E & Hm & Hk). apply nilb_true in Hk. subst v.
    rewrite app_nil_r in E. subst u. exact Hm.
  - intros Hm. exists s, []. rewrite app_nil_r. auto.
Qed.

(** ** What the pieces of a pattern match *)

Lemma Matches_Eps b u v : Matches Eps b u v <-> u = [].
Proof. split; [inversion 1; reflexivity | intros ->; constructor]. Qed.

Lemma Matches_Bol b u v : Matches Bol b u v <-> u = [] /\ b = true.
Proof. split; [inversion 1; auto | intros [-> ->]; constructor]. Qed.

Lemma Matches_Eol b u v :
  Matches Eol b u v <-> u = [] /\ (v = [] \/ v = [newline]).
Proof. split; [inversion 1; auto | intros [-> H]; constructor; exact H]. Qed.

Lemma Matches_Eos b u v : Matches Eos b u v <-> u = [] /\ v = [].
Proof. split; [inversion 1; auto | intros [-> ->]; constructor]. Qed.

Lemma Matches_Lit c b u v : Matches (Lit c) b u v <-> u = [c].
Proof. split; [inversion 1; reflexivity | intros ->; constructor]. Qed.

Lemma Matches_Seq r1 r2 b u v :
  Matches (Seq r1 r2) b u v <->
  exists u1 u2, u = u1 ++ u2 /\ Matches r1 b u1 (u2 ++ v)
                /\ Matches r2 (b && nilb u1) u2 v.
Proof.
  split.
  - inversion 1; subst. eauto.
  - intros (u1 & u2 & -> & H1 & H2). constructor; assumption.
Qed.

Lemma Matches_CharSet n items b u v :
  Matches (CharSet n items) b u v <-> exists c, u = [c] /\ in_cset n items c = true.
Proof.
  split.
  - inversion 1; subst. eauto.
  - intros (c & -> & H). constructor. exact H.
Qed.

Lemma Matches_Dot b u v :
  Matches Dot b u v <-> exists c, u = [c] /\ c <> newline.
Proof.
  split.
  - inversion 1; subst. eauto.
  - intros (c & -> & H). constructor. exact H.
Qed.

Lemma Matches_star_any b u v : Matches (Star AnyChar) b u v.
Proof.
  revert b. induction u as [|c u IH]; intros b.
  - constructor.
  - change (c :: u) with ([c] ++ u). apply M_StarS.
    + discriminate.
    + constructor.
    + apply IH.
Qed.

(** A repeated one-character pattern matches the strings made of the
    characters it accepts. *)
Section StarOfChars.
Variable r : regex.
Variable ok : N -> bool.
Hypothesis one : forall b u v, Matches r b u v <-> exists c, u = [c] /\ ok c = true.

Lemma Matches_star_chars b u v :
  Matches (Star r) b u v <-> forallb ok u = true.
Proof.
  split.
  - intros H. remember (Star r) as R eqn:ER. revert ER.
    induction H; intros ER; try discriminate; injection ER as ->.
    + reflexivity.
    + apply one in H0 as (c & -> & Hc). simpl. rewrite Hc. simpl.
      apply IHMatches2. reflexivity.
  - revert b. induction u as [|c u IH]; intros b H.
    + constructor.
    + simpl in H. apply andb_true_iff in H as [Hc Hu].
      change (c :: u) with ([c] ++ u). apply M_StarS.
      * discriminate.
      * apply one. eauto.
      * apply IH. exact Hu.
Qed.

Lemma Matches_plus_chars b u v :
  Matches (Plus r) b u v <-> u <> [] /\ forallb ok u = true.
Proof.
  unfold Plus. rewrite Matches_Seq. split.
  - intros (u1 & u2 & -> & H1 & H2).
    apply one in H1 as (c & -> & Hc). apply Matches_star_chars in H2.
    split; [discriminate|]. simpl. rewrite Hc. exact H2.
  - intros [Hne H]. destruct u as [|c u]; [congruence|].
    simpl in H. apply andb_true_iff in H as [Hc Hu].
    exists [c], u. split; [reflexivity|]. split.
    + apply one. eauto.
    + apply Matches_star_chars. exact Hu.
Qed.
End StarOfChars.

Lemma seq_of_cons a rs : seq_of (a :: rs) = Seq a (seq_of rs).
Proof. reflexivity. Qed.

(** A run of literal characters at the head of a pattern. *)
Lemma Matches_lits p rs b u v :
  Matches (seq_of (lits p ++ rs)) b u v <->
  exists u', u = p ++ u' /\ Matches (seq_of rs) (b && nilb p) u' v.
Proof.
  revert b u. induction p as [|c p IH]; intros b u.
  - simpl. rewrite andb_true_r. split.
    + intros H. exists u. auto.
    + intros (u' & -> & H). exact H.
  - simpl lits. simpl app. rewrite seq_of_cons, Matches_Seq. split.
    + intros (u1 & u2 & -> & H1 & H2). apply Matches_Lit in H1. subst u1.
      apply IH in H2 as (u' & -> & H2). exists u'. split; [reflexivity|].
      simpl in H2. rewrite andb_false_r in H2. simpl in H2.
      simpl. rewrite andb_false_r. exact H2.
    + intros (u' & -> & H). exists [c], (p ++ u'). split; [reflexivity|]. split.
      * constructor.
      * apply IH. exists u'. split; [reflexivity|].
        simpl in H. rewrite andb_false_r in H.
        simpl. rewrite andb_false_r. simpl. exact H.
Qed.

Lemma Matches_lits_only p b u v :
  Matches (seq_of (lits p)) b u v <-> u = p.
Proof.
  rewrite <- (app_nil_r (lits p)), Matches_lits. split.
  - intros (u' & -> & H). apply Matches_Eps in H. subst. apply app_nil_r.
  - intros ->. exists []. rewrite app_nil_r. split; [reflexivity | constructor].
Qed.

(** ** The naming convention *)

Lemma regex_pattern_compiled :
  re_compile (lit "^[0-9]+_[A-Za-z ]+_KCS Records Consent_.*\.pdf$")
  = Some regex_pattern.
Proof. reflexivity. Qed.

Lemma regex_pattern_unfold :
  regex_pattern =
  Seq Bol (Seq (Plus digit) (Seq (Lit 95) (Seq (Plus letter_or_space)
    (seq_of (lits (lit "_KCS Records Consent_")
             ++ Star Dot :: (lits (lit ".pdf") ++ [Eol])))))).
Proof. reflexivity. Qed.

Lemma Matches_digit b u v :
  Matches digit b u v <-> exists c, u = [c] /\ is_digit c = true.
Proof.
  unfold digit. rewrite Matches_CharSet. unfold in_cset, is_digit. simpl.
  split; intros (c & -> & H); exists c; split; auto;
    rewrite orb_false_r in *; exact H.
Qed.

Lemma Matches_letter_or_space b u v :
  Matches letter_or_space b u v <-> exists c, u = [c] /\ is_letter_or_space c = true.
Proof.
  unfold letter_or_space. rewrite Matches_CharSet. unfold in_cset, is_letter_or_space.
  simpl. split; intros (c & -> & H); exists c; split; auto;
    rewrite orb_false_r in *; rewrite orb_assoc in *; exact H.
Qed.

Lemma Matches_Dot_ok b u v :
  Matches Dot b u v <-> exists c, u = [c] /\ negb (N.eqb c newline) = true.
Proof.
  rewrite Matches_Dot. split; intros (c & -> & H); exists c; split; auto.
  - apply negb_true_iff, N.eqb_neq. exact H.
  - apply negb_true_iff, N.eqb_neq in H. exact H.
Qed.

(** The compiled pattern accepts the names that follow the convention. *)
Theorem regex_pattern_conforming (name : str) :
  re_matches regex_pattern name <-> conforming name.
Proof.
  unfold re_matches, conforming. rewrite regex_pattern_unfold. split.
  - intros (u & v & -> & H).
    apply Matches_Seq in H as (u0 & u1 & -> & HB & H).
    apply Matches_Bol in HB as [-> _].
    apply Matches_Seq in H as (ds & u2 & -> & Hd & H).
    apply (@Matches_plus_chars digit is_digit Matches_digit) in Hd as [Hds Hdig].
    apply Matches_Seq in H as (us & u3 & -> & Hu & H).
    apply Matches_Lit in Hu. subst us.
    apply Matches_Seq in H as (nm & u4 & -> & Hn & H).
    apply (@Matches_plus_chars letter_or_space is_letter_or_space
             Matches_letter_or_space) in Hn as [Hnm Hlet].
    apply Matches_lits in H as (u5 & -> & H).
    rewrite seq_of_cons in H.
    apply Matches_Seq in H as (rest & u6 & -> & Hr & H).
    apply (@Matches_star_chars Dot _ Matches_Dot_ok) in Hr.
    apply Matches_lits in H as (u7 & -> & H).
    rewrite seq_of_cons in H.
    apply Matches_Seq in H as (u8 & u9 & -> & He & H).
    apply Matches_Eol in He as [-> Hv]. apply Matches_Eps in H. subst u9.
    exists ds, nm, rest, v. split; [|repeat split; auto].
    change (lit "_") with [95%N]. now list_norm.
  - intros (ds & nm & rest & tail & -> & Hds & Hdig & Hnm & Hlet & Hrest & Htail).
    exists (ds ++ lit "_" ++ nm ++ lit "_KCS Records Consent_" ++ rest ++ lit ".pdf"), tail.
    split; [now list_norm|].
    apply Matches_Seq. exists [], (ds ++ lit "_" ++ nm ++ lit "_KCS Records Consent_"
                                   ++ rest ++ lit ".pdf").
    split; [reflexivity|]. split; [constructor|].
    apply Matches_Seq. eexists ds, _. split; [reflexivity|]. split.
    { apply (@Matches_plus_chars digit is_digit Matches_digit). auto. }
    apply Matches_Seq. exists [95%N], (nm ++ lit "_KCS Records Consent_" ++ rest ++ lit ".pdf").
    split; [reflexivity|]. split; [constructor|].
    apply Matches_Seq. eexists nm, _. split; [reflexivity|]. split.
    { apply (@Matches_plus_chars letter_or_space is_letter_or_space
               Matches_letter_or_space). auto. }
    apply Matches_lits. eexists. split; [reflexivity|].
    rewrite seq_of_cons. apply Matches_Seq. eexists rest, _. split; [reflexivity|]. split.
    { apply (@Matches_star_chars Dot _ Matches_Dot_ok). exact Hrest. }
    apply Matches_lits. exists []. split; [rewrite app_nil_r; reflexivity|].
    rewrite seq_of_cons. apply Matches_Seq. exists [], []. split; [reflexivity|].
    split; [constructor; exact Htail | constructor].
Qed.

(** A name that does not begin with a digit breaks the convention. *)
Lemma no_leading_digit_no_match (name : str) :
  match name with c :: _ => is_digit c = false | [] => True end ->
  re_match regex_pattern name = false.
Proof.
  intros H. destruct (re_match regex_pattern name) eqn:E; [|reflexivity].
  apply re_match_iff, regex_pattern_conforming in E.
  destruct E as (ds & nm & rest & tail & -> & Hds & Hdig & _).
  destruct ds as [|d ds]; [congruence|]. simpl in H, Hdig.
  rewrite H in Hdig. discriminate.
Qed.

(** ** Computations *)

Lemma result_of_bind {A B} (m : M A) (f : A -> M B) :
  result_of (bind m f) =
  match result_of m with
  | inl e => inl e
  | inr a => result_of (f a)
  end.
Proof. destruct m as [t [e|a]]; simpl; [reflexivity|]. destruct (f a); reflexivity. Qed.

Lemma trace_of_bind {A B} (m : M A) (f : A -> M B) :
  trace_of (bind m f) =
  trace_of m ++ match result_of m with
                | inl _ => []
                | inr a => trace_of (f a)
                end.
Proof.
  destruct m as [t [e|a]]; simpl; [rewrite app_nil_r; reflexivity|].
  destruct (f a); reflexivity.
Qed.

Lemma bind_ret {A B} (a : A) (f : A -> M B) : bind (ret a) f = f a.
Proof. unfold ret. simpl. destruct (f a). reflexivity. Qed.

Lemma bind_pair {A B} (t : list event) (a : A) (f : A -> M B) :
  bind (t, inr a) f = (t ++ trace_of (f a), result_of (f a)).
Proof. simpl. destruct (f a). reflexivity. Qed.

Lemma surjective_M {A} (m : M A) : m = (trace_of m, result_of m).
Proof. destruct m; reflexivity. Qed.

Lemma printed_app t1 t2 : printed (t1 ++ t2) = printed t1 ++ printed t2.
Proof. apply flat_map_app. Qed.

Lemma globbed_app t1 t2 : globbed (t1 ++ t2) = globbed t1 ++ globbed t2.
Proof. apply flat_map_app. Qed.

Lemma path_name_child (p : Path) (name : str) : path_name (child p name) = name.
Proof. unfold path_name, child. simpl. apply last_last. Qed.

(** ** The validator *)

Section Validator.
Variable fs : filesystem.
Variable folder_path : str.
Variable pattern : regex.

(** The loop of the validator, started with any two lists. *)
Lemma validate_loop (names : list str) : forall valid_files invalid_files,
  for_each (List.map (child (parse_parts folder_path)) names)
    (fun file_path '(valid_files, invalid_files) =>
       regular <- is_file fs file_path ;;
       if regular then
         let filename := path_name file_path in
         if re_match pattern filename then
           ret (valid_files ++ [filename], invalid_files)
         else
           ret (valid_files, invalid_files ++ [filename])
       else ret (valid_files, invalid_files))
    (valid_files, invalid_files)
  = (is_file_events folder_path names,
     inr (valid_files
            ++ filter (re_match pattern) (regular_among fs folder_path names),
          invalid_files
            ++ filter (fun name => negb (re_match pattern name))
                 (regular_among fs folder_path names))).
Proof.
  match goal with |- forall v i, for_each _ ?b _ = _ => set (body := b) end.
  unfold regular_among.
  induction names as [|name names IH]; intros valid_files invalid_files.
  - simpl. rewrite !app_nil_r. reflexivity.
  - cbn [List.map for_each is_file_events filter].
    unfold body at 1. unfold is_file. cbn [bind emit ret app].
    rewrite path_name_child.
    destruct (stat_is_file fs (child (parse_parts folder_path) name)) eqn:Ef.
    + destruct (re_match pattern name) eqn:Em; cbn [filter]; rewrite Em;
        cbn [negb ret app bind]; rewrite IH; list_norm; reflexivity.
    + cbn [ret app bind]. rewrite IH. reflexivity.
Qed.

Lemma validate_file_formats_dir :
  fs_stat fs (path_str (parse_parts folder_path)) = Some Directory ->
  validate_file_formats fs folder_path pattern =
  (SysExists (path_str (parse_parts folder_path))
     :: SysIterdir (path_str (parse_parts folder_path))
     :: is_file_events folder_path
          (fs_listdir fs (path_str (parse_parts folder_path))),
   inr (filter (re_match pattern) (regular_files fs folder_path),
        filter (fun name => negb (re_match pattern name))
          (regular_files fs folder_path))).
Proof.
  intros Hdir.
  unfold validate_file_formats, path_exists, iterdir, stat_exists.
  rewrite Hdir. cbn [bind emit ret negb app].
  match goal with
  | |- context [for_each ?xs ?b ?s] =>
      replace (for_each xs b s) with
        (is_file_events folder_path
           (fs_listdir fs (path_str (parse_parts folder_path))),
         @inr exn _
           (filter (re_match pattern) (regular_files fs folder_path),
            filter (fun name => negb (re_match pattern name))
              (regular_files fs folder_path)))
        by (symmetry; apply validate_loop with (valid_files := [])
                                               (invalid_files := []))
  end.
  reflexivity.
Qed.

Lemma validate_file_formats_missing :
  fs_stat fs (path_str (parse_parts folder_path)) = None ->
  validate_file_formats fs folder_path pattern =
  ([SysExists (path_str (parse_parts folder_path))],
   inl (ValueError (lit "Folder does not exist: " ++ folder_path))).
Proof.
  intros Hno. unfold validate_file_formats, path_exists, stat_exists.
  rewrite Hno. reflexivity.
Qed.

Lemma validate_file_formats_not_dir k :
  fs_stat fs (path_str (parse_parts folder_path)) = Some k -> k <> Directory ->
  validate_file_formats fs folder_path pattern =
  ([SysExists (path_str (parse_parts folder_path));
    SysIterdir (path_str (parse_parts folder_path))],
   inl (OSError ENOTDIR (path_str (parse_parts folder_path)))).
Proof.
  intros Hk Hnd.
  unfold validate_file_formats, path_exists, iterdir, stat_exists.
  rewrite Hk. destruct k; try congruence; reflexivity.
Qed.
End Validator.

Lemma filter_none {A} (f : A -> bool) (l : list A) :
  (forall x, In x l -> f x = false) -> filter f l = [].
Proof.
  induction l as [|x l IH]; intros H; [reflexivity|]. simpl.
  rewrite (H x (or_introl eq_refl)). apply IH. intros y Hy. apply H. right. exact Hy.
Qed.

Lemma re_match_false_iff (r : regex) (s : str) :
  negb (re_match r s) = true <-> ~ re_matches r s.
Proof.
  rewrite negb_true_iff, <- re_match_iff. destruct (re_match r s); split; congruence.
Qed.

(** C5: for an existing directory the validator returns the regular files
    directly inside it in two lists, each in the order of the directory;
    a name is in the first exactly when it matches the naming pattern and
    in the second exactly when it does not, so no name is in both; when
    every file matches, the second list is empty and the first has as many
    names as the directory has files; a name that does not match, such as
    one without a leading digit, is in the second list.  Matching the
    pattern is following the naming convention as [conforming] words it. *)
Theorem validator_partitions_regular_files (fs : filesystem) (folder_path : str) :
  fs_stat fs (path_str (parse_parts folder_path)) = Some Directory ->
  exists valid_files invalid_files,
    result_of (validate_file_formats fs folder_path regex_pattern)
    = inr (valid_files, invalid_files) /\
    valid_files
    = filter (re_match regex_pattern) (regular_files fs folder_path) /\
    invalid_files
    = filter (fun name => negb (re_match regex_pattern name))
        (regular_files fs folder_path) /\
    (forall name, In name valid_files <->
       In name (regular_files fs folder_path) /\ re_matches regex_pattern name) /\
    (forall name, In name invalid_files <->
       In name (regular_files fs folder_path) /\ ~ re_matches regex_pattern name) /\
    (forall name, ~ (In name valid_files /\ In name invalid_files)) /\
    length valid_files + length invalid_files
    = length (regular_files fs folder_path) /\
    ((forall name, In name (regular_files fs folder_path) ->
        re_matches regex_pattern name) ->
     invalid_files = [] /\
     length valid_files = length (regular_files fs folder_path)) /\
    (In (lit "abc_Smith_KCS Records Consent_x.pdf") (regular_files fs folder_path) ->
     In (lit "abc_Smith_KCS Records Consent_x.pdf") invalid_files) /\
    (forall name, re_matches regex_pattern name <-> conforming name).
Proof.
  intros Hdir. do 2 eexists.
  split; [rewrite (validate_file_formats_dir fs folder_path regex_pattern Hdir); reflexivity|].
  split; [reflexivity|]. split; [reflexivity|].
  assert (Hv : forall name,
             In name (filter (re_match regex_pattern) (regular_files fs folder_path)) <->
             In name (regular_files fs folder_path) /\ re_matches regex_pattern name).
  { intros name. rewrite filter_In, re_match_iff. reflexivity. }
  assert (Hi : forall name,
             In name (filter (fun name => negb (re_match regex_pattern name))
                        (regular_files fs folder_path)) <->
             In name (regular_files fs folder_path) /\ ~ re_matches regex_pattern name).
  { intros name. rewrite filter_In, re_match_false_iff. reflexivity. }
  split; [exact Hv|]. split; [exact Hi|]. split.
  { intros name [H1 H2]. apply Hv in H1. apply Hi in H2. tauto. }
  split; [apply filter_length|]. split.
  - intros Hall.
    assert (E : filter (fun name => negb (re_match regex_pattern name))
                  (regular_files fs folder_path) = []).
    { apply filter_none. intros name Hin. apply negb_false_iff, re_match_iff, Hall, Hin. }
    split; [exact E|].
    pose proof (filter_length (re_match regex_pattern) (regular_files fs folder_path)) as L.
    rewrite E in L. simpl in L. lia.
  - split; [|exact regex_pattern_conforming].
    intros Hin. apply filter_In. split; [exact Hin|].
    rewrite no_leading_digit_no_match; reflexivity.
Qed.

Lemma validator_partitions_regular_files_witness :
  fs_stat fs_violation (path_str (parse_parts (lit "w"))) = Some Directory /\
  exists valid_files invalid_files,
    result_of (validate_file_formats fs_violation (lit "w") regex_pattern)
    = inr (valid_files, invalid_files) /\
    valid_files = [lit "100_Jane Doe_KCS Records Consent_2023.pdf"] /\
    invalid_files = [lit "abc_Smith_KCS Records Consent_x.pdf"; lit "notes.txt"].
Proof.
  split; [reflexivity|].
  destruct (@validator_partitions_regular_files fs_violation (lit "w") eq_refl)
    as (valid_files & invalid_files & Hr & Hv & Hi & _).
  exists valid_files, invalid_files. split; [exact Hr|].
  split; [rewrite Hv | rewrite Hi]; reflexivity.
Defined.

(** C7: the validator raises its folder-does-not-exist failure exactly
    when nothing exists at the given path, and returns its two lists when
    the path is an existing directory; the matcher makes the same check. *)
Theorem validator_raises_iff_folder_missing
    (fs : filesystem) (folder_path : str) (pattern : regex) :
  ((exists msg, result_of (validate_file_formats fs folder_path pattern)
                = inl (ValueError msg)) <->
   fs_stat fs (path_str (parse_parts folder_path)) = None) /\
  (fs_stat fs (path_str (parse_parts folder_path)) = None ->
   result_of (validate_file_formats fs folder_path pattern)
   = inl (ValueError (lit "Folder does not exist: " ++ folder_path))) /\
  (fs_stat fs (path_str (parse_parts folder_path)) = Some Directory ->
   exists valid_files invalid_files,
     result_of (validate_file_formats fs folder_path pattern)
     = inr (valid_files, invalid_files)) /\
  (fs_stat fs (path_str (parse_parts folder_path)) = None ->
   forall eyf_ids,
     result_of (get_files_for_eyf_ids fs folder_path eyf_ids)
     = inl (ValueError (lit "Folder does not exist: " ++ folder_path))).
Proof.
  assert (Hmiss : fs_stat fs (path_str (parse_parts folder_path)) = None ->
                  result_of (validate_file_formats fs folder_path pattern)
                  = inl (ValueError (lit "Folder does not exist: " ++ folder_path))).
  { intros Hno. rewrite (validate_file_formats_missing fs folder_path pattern Hno).
    reflexivity. }
  split; [|split; [exact Hmiss|split]].
  - split.
    + intros [msg Hmsg].
      destruct (fs_stat fs (path_str (parse_parts folder_path))) as [k|] eqn:Ek;
        [|reflexivity].
      destruct k.
      * rewrite (@validate_file_formats_not_dir fs folder_path pattern RegularFile Ek)
          in Hmsg by discriminate. discriminate.
      * rewrite (validate_file_formats_dir fs folder_path pattern Ek) in Hmsg.
        discriminate.
      * rewrite (@validate_file_formats_not_dir fs folder_path pattern OtherKind Ek)
          in Hmsg by discriminate. discriminate.
    + intros Hno. eexists. apply Hmiss. exact Hno.
  - intros Hdir. rewrite (validate_file_formats_dir fs folder_path pattern Hdir).
    do 2 eexists. reflexivity.
  - intros Hno eyf_ids. unfold get_files_for_eyf_ids, path_exists, stat_exists.
    rewrite Hno. reflexivity.
Qed.

Lemma validator_raises_iff_folder_missing_witness :
  fs_stat fs_no_folder (path_str (parse_parts (lit "w"))) = None /\
  fs_stat fs_scenario (path_str (parse_parts (lit "w"))) = Some Directory /\
  result_of (validate_file_formats fs_no_folder (lit "w") regex_pattern)
  = inl (ValueError (lit "Folder does not exist: w")) /\
  exists valid_files invalid_files,
    result_of (validate_file_formats fs_scenario (lit "w") regex_pattern)
    = inr (valid_files, invalid_files).
Proof.
  split; [reflexivity|]. split; [reflexivity|]. split.
  - exact (proj1 (proj2 (@validator_raises_iff_folder_missing
                           fs_no_folder (lit "w") regex_pattern)) eq_refl).
  - exact (proj1 (proj2 (proj2 (@validator_raises_iff_folder_missing
                                  fs_scenario (lit "w") regex_pattern))) eq_refl).
Defined.

(** C8: the validator is a function of the state of the folder: on two
    states of the machine that show the same folder (the same entry for the
    path, the same names in the same order, the same kind of each entry) it
    makes the same calls and returns the same two lists, whatever the
    pattern. *)
Theorem validator_depends_only_on_folder
    (fs1 fs2 : filesystem) (folder_path : str) (pattern : regex) :
  same_folder fs1 fs2 folder_path ->
  validate_file_formats fs1 folder_path pattern
  = validate_file_formats fs2 folder_path pattern.
Proof.
  intros (Hstat & Hlist & Hkids).
  destruct (fs_stat fs1 (path_str (parse_parts folder_path))) as [k|] eqn:E1.
  - destruct k.
    + rewrite (@validate_file_formats_not_dir fs1 folder_path pattern RegularFile E1)
        by discriminate.
      rewrite (@validate_file_formats_not_dir fs2 folder_path pattern RegularFile)
        by (auto; discriminate).
      reflexivity.
    + rewrite (validate_file_formats_dir fs1 folder_path pattern E1).
      rewrite (validate_file_formats_dir fs2 folder_path pattern) by auto.
      unfold regular_files, regular_among. rewrite <- Hlist.
      assert (E : filter (fun name => stat_is_file fs1 (child (parse_parts folder_path) name))
                    (fs_listdir fs1 (path_str (parse_parts folder_path)))
                  = filter (fun name => stat_is_file fs2 (child (parse_parts folder_path) name))
                      (fs_listdir fs1 (path_str (parse_parts folder_path)))).
      { apply filter_ext_in. intros name Hin. unfold stat_is_file.
        rewrite (Hkids name Hin). reflexivity. }
      rewrite E. reflexivity.
    + rewrite (@validate_file_formats_not_dir fs1 folder_path pattern OtherKind E1)
        by discriminate.
      rewrite (@validate_file_formats_not_dir fs2 folder_path pattern OtherKind)
        by (auto; discriminate).
      reflexivity.
  - rewrite (validate_file_formats_missing fs1 folder_path pattern E1).
    rewrite (validate_file_formats_missing fs2 folder_path pattern) by auto.
    reflexivity.
Qed.

Lemma validator_depends_only_on_folder_witness :
  same_folder fs_scenario fs_blank_line (lit "w") /\
  validate_file_formats fs_scenario (lit "w") regex_pattern
  = validate_file_formats fs_blank_line (lit "w") regex_pattern.
Proof.
  assert (H : same_folder fs_scenario fs_blank_line (lit "w")).
  { split; [reflexivity|]. split; [reflexivity|]. intros name Hin. reflexivity. }
  split; [exact H|].
  exact (@validator_depends_only_on_folder fs_scenario fs_blank_line (lit "w")
           regex_pattern H).
Defined.

(** ** The reporter *)

Lemma accepts_app (out : console) (a b : list str) :
  accepts out (a ++ b) = accepts out a && accepts out b.
Proof. apply forallb_app. Qed.

Lemma rejection_none (out : console) (lines : list str) :
  rejection out lines = None <-> accepts out lines = true.
Proof.
  induction lines as [|l rest IH]; [split; reflexivity|].
  cbn [rejection accepts forallb]. fold (accepts out rest).
  destruct (out l); [split; discriminate | exact IH].
Qed.

Lemma written_accepted (out : console) (lines : list str) :
  accepts out lines = true -> written out lines = lines.
Proof.
  induction lines as [|l rest IH]; [reflexivity|].
  cbn [written accepts forallb]. fold (accepts out rest).
  destruct (out l); [discriminate|]. intros H. rewrite (IH H). reflexivity.
Qed.

Lemma rejection_exception (out : console) (lines : list str) (e : exn) :
  rejection out lines = Some e ->
  exists line msg, In line lines /\ out line = Some msg /\ e = UnicodeEncodeError msg.
Proof.
  induction lines as [|l rest IH]; [discriminate|].
  cbn [rejection]. destruct (out l) as [msg|] eqn:E.
  - intros H. injection H as <-. exists l, msg. split; [left; reflexivity | auto].
  - intros H. destruct (IH H) as (line & msg & Hin & Hl & He).
    exists line, msg. split; [right; exact Hin | auto].
Qed.

Lemma printing_accepted {A} (out : console) (lines : list str) (r : exn + A) :
  accepts out lines = true -> printing out lines r = (List.map Print lines, r).
Proof.
  intros H. unfold printing. rewrite (written_accepted out lines H).
  apply rejection_none in H. rewrite H. reflexivity.
Qed.

Lemma print_printing (out : console) (line : str) :
  print out line = printing out [line] (inr tt).
Proof. unfold print, printing. cbn [written rejection]. destruct (out line); reflexivity. Qed.

Lemma written_app (out : console) (l1 l2 : list str) :
  written out (l1 ++ l2)
  = written out l1 ++ match rejection out l1 with
                      | None => written out l2
                      | Some _ => []
                      end.
Proof.
  induction l1 as [|l l1 IH]; [reflexivity|].
  cbn [app written rejection]. destruct (out l); [reflexivity|].
  rewrite IH. reflexivity.
Qed.

Lemma rejection_app (out : console) (l1 l2 : list str) :
  rejection out (l1 ++ l2)
  = match rejection out l1 with
    | None => rejection out l2
    | Some e => Some e
    end.
Proof.
  induction l1 as [|l l1 IH]; [reflexivity|].
  cbn [app rejection]. destruct (out l); [reflexivity | exact IH].
Qed.

(** Printing, then going on: the lines of the continuation follow. *)
Lemma printing_bind {A B} (out : console) (l1 l2 : list str) (a : A) (f : A -> M B)
    (r : exn + B) :
  f a = printing out l2 r ->
  bind (printing out l1 (inr a)) f = printing out (l1 ++ l2) r.
Proof.
  intros Hf. unfold printing at 1 2. unfold bind.
  rewrite written_app, rejection_app.
  destruct (rejection out l1) as [e|].
  - rewrite app_nil_r. reflexivity.
  - rewrite Hf. unfold printing. rewrite map_app. reflexivity.
Qed.

Lemma printing_raise {A B} (out : console) (l1 : list str) (e : exn) (f : A -> M B) :
  bind (printing out l1 (inl e)) f = printing out l1 (inl e).
Proof.
  unfold printing, bind. destruct (rejection out l1); reflexivity.
Qed.

Lemma print_each {A} (out : console) (f : A -> str) (l : list A) :
  for_each l (fun x _ => print out (f x)) tt = printing out (List.map f l) (inr tt).
Proof.
  induction l as [|x l IH]; [reflexivity|].
  cbn [for_each List.map]. rewrite print_printing.
  change (f x :: List.map f l) with ([f x] ++ List.map f l).
  apply printing_bind. exact IH.
Qed.

Lemma printing_then {A B} (out : console) (l : list str) (a : A) (f : A -> M B)
    (r : exn + B) :
  f a = ([], r) -> bind (printing out l (inr a)) f = printing out l r.
Proof.
  intros Hf. rewrite <- (app_nil_r l) at 2. apply printing_bind.
  rewrite Hf. reflexivity.
Qed.

Lemma process_waiver_matches_body (out : console) (eyf_id : str) (filepaths pdfs : list str) :
  (if length filepaths =? 0 then
     print out (lit "ERROR: No waiver found for EYF ID " ++ eyf_id) ;;
     ret pdfs
   else if 1 <? length filepaths then
     print out (lit "ERROR: Multiple waivers found for EYF ID " ++ eyf_id ++ lit ":") ;;
     for_each filepaths (fun filepath _ => print out (lit "  " ++ filepath)) tt ;;
     ret pdfs
   else
     ret (pdfs ++ [nth 0 filepaths []]))
  = printing out (error_report (eyf_id, filepaths))
      (inr (pdfs ++ match filepaths with [p] => [p] | _ => [] end)).
Proof.
  unfold error_report. cbn [fst snd].
  destruct filepaths as [|p [|q rest]].
  - cbn [length Nat.eqb]. rewrite print_printing, app_nil_r.
    apply printing_then. reflexivity.
  - reflexivity.
  - cbn [length Nat.eqb Nat.ltb Nat.leb]. rewrite print_printing, app_nil_r.
    apply (@printing_bind _ _ out [_] (List.map _ (p :: q :: rest)) tt).
    rewrite print_each. apply printing_then. reflexivity.
Qed.

Lemma process_waiver_matches_loop (out : console) (results : list (str * list str)) :
  forall pdfs_to_combine,
  for_each results
    (fun '(eyf_id, filepaths) pdfs_to_combine =>
       if length filepaths =? 0 then
         print out (lit "ERROR: No waiver found for EYF ID " ++ eyf_id) ;;
         ret pdfs_to_combine
       else if 1 <? length filepaths then
         print out (lit "ERROR: Multiple waivers found for EYF ID " ++ eyf_id ++ lit ":") ;;
         for_each filepaths (fun filepath _ => print out (lit "  " ++ filepath)) tt ;;
         ret pdfs_to_combine
       else
         ret (pdfs_to_combine ++ [nth 0 filepaths []]))
    pdfs_to_combine
  = printing out (flat_map error_report results)
      (inr (pdfs_to_combine ++ resolved results)).
Proof.
  match goal with |- forall p, for_each _ ?b _ = _ => set (body := b) end.
  induction results as [|[eyf_id filepaths] results IH]; intros pdfs.
  - simpl. rewrite app_nil_r. reflexivity.
  - cbn [for_each flat_map resolved]. fold (resolved results).
    unfold body at 1. rewrite process_waiver_matches_body. cbn [snd].
    apply printing_bind. rewrite IH, <- app_assoc. reflexivity.
Qed.

(** The reporter, whatever the console: it prints its reports as far as
    the console takes them. *)
Lemma process_waiver_matches_eq (out : console) (results : list (str * list str)) :
  process_waiver_matches out results
  = printing out (flat_map error_report results) (inr (resolved results)).
Proof. unfold process_waiver_matches. apply process_waiver_matches_loop. Qed.

Lemma printed_prints (l : list str) : printed (List.map Print l) = l.
Proof. induction l as [|x l IH]; [reflexivity|]. simpl. rewrite IH. reflexivity. Qed.

Lemma globbed_prints (l : list str) : globbed (List.map Print l) = [].
Proof. induction l as [|x l IH]; [reflexivity|]. exact IH. Qed.

(** C4: the reporter returns, in the order of the results, the file of
    each result that has exactly one file; a result with no file or with
    several adds nothing to this output and has an error report printed,
    and a result with one file has none.  For the three results of the
    specification the output is the one file of the second.  This is
    what the reporter does on every console: it returns when the
    console takes every line of the reports, and when the console
    rejects one, the reporter stops there with that failure. *)
Theorem reporter_resolves_single_matches
    (out : console) (results : list (str * list str)) :
  process_waiver_matches out results
  = (List.map Print (written out (flat_map error_report results)),
     match rejection out (flat_map error_report results) with
     | None => inr (resolved results)
     | Some e => inl e
     end) /\
  (accepts out (flat_map error_report results) = true <->
   result_of (process_waiver_matches out results) = inr (resolved results) /\
   printed (trace_of (process_waiver_matches out results))
   = flat_map error_report results) /\
  (forall p, In p (resolved results) <-> exists eyf_id, In (eyf_id, [p]) results) /\
  (forall r, error_report r = [] <-> length (snd r) = 1) /\
  process_waiver_matches utf8_console
    [(lit "1", []); (lit "2", [lit "2_a.pdf"]); (lit "3", [lit "3_a.pdf"; lit "3_b.pdf"])]
  = ([Print (lit "ERROR: No waiver found for EYF ID 1");
      Print (lit "ERROR: Multiple waivers found for EYF ID 3:");
      Print (lit "  3_a.pdf");
      Print (lit "  3_b.pdf")],
     inr [lit "2_a.pdf"]).
Proof.
  rewrite process_waiver_matches_eq.
  split; [reflexivity|]. split; [|split; [|split; [|reflexivity]]].
  - split.
    + intros H. rewrite printing_accepted by exact H. cbn [result_of trace_of fst snd].
      split; [reflexivity | apply printed_prints].
    + intros [H _]. unfold printing in H. cbn [result_of snd] in H.
      apply rejection_none.
      destruct (rejection out (flat_map error_report results)) as [e|] eqn:E;
        [|reflexivity].
      destruct (@rejection_exception out _ e E) as (line & msg & _ & _ & ->). discriminate.
  - intros p. unfold resolved. rewrite in_flat_map. split.
    + intros ([eyf_id filepaths] & Hin & Hp). cbn [snd] in Hp.
      destruct filepaths as [|q [|q' rest]]; try contradiction.
      destruct Hp as [<-|[]]. exists eyf_id. exact Hin.
    + intros [eyf_id Hin]. exists (eyf_id, [p]). split; [exact Hin | left; reflexivity].
  - intros [eyf_id filepaths]. unfold error_report. cbn [fst snd].
    destruct filepaths as [|p [|q rest]]; cbn [length]; split;
      try discriminate; try reflexivity; intros H; lia.
Qed.

(** ** The matcher *)

Lemma plain_char_iff (c : N) :
  plain_char c = true <-> c <> 42%N /\ c <> 63%N /\ c <> 91%N /\ c <> 47%N.
Proof.
  unfold plain_char. rewrite negb_true_iff, !orb_false_iff, !N.eqb_neq. tauto.
Qed.

Lemma endswith_or_tail (p r : str) (c : N) (q : str) :
  forallb (fun x => negb (N.eqb x c)) q = true ->
  (exists s, (p ++ [c]) ++ r = s ++ q) -> exists mid, r = mid ++ q.
Proof.
  intros Hq [s E]. apply app_eq_app in E as [l [[E1 E2]|[E1 E2]]].
  - destruct l as [|x l] using rev_ind.
    + exists []. symmetry. exact E2.
    + exfalso. rewrite app_assoc in E1. apply app_inj_tail in E1 as [_ <-].
      rewrite forallb_forall in Hq.
      assert (Hin : In c q) by (rewrite E2; apply in_or_app; left;
                                apply in_or_app; right; left; reflexivity).
      apply Hq in Hin. rewrite N.eqb_refl in Hin. discriminate.
  - exists l. exact E2.
Qed.

(** A name begins with the identifier and an underscore and ends with
    [.pdf] exactly when it is the identifier, an underscore, anything and
    [.pdf]: the two ends cannot overlap. *)
Lemma named_for_iff (eyf_id name : str) :
  named_for eyf_id name = true <->
  exists mid, name = eyf_id ++ lit "_" ++ mid ++ lit ".pdf".
Proof.
  unfold named_for. rewrite andb_true_iff, startswith_iff, endswith_iff. split.
  - intros [[r ->] Hs].
    destruct (@endswith_or_tail eyf_id r 95%N (lit ".pdf") eq_refl Hs) as [mid ->].
    exists mid. now list_norm.
  - intros [mid ->]. split.
    + exists (mid ++ lit ".pdf"). now list_norm.
    + exists (eyf_id ++ lit "_" ++ mid). now list_norm.
Qed.

Lemma translate_pieces_plain (eyf_id rest : str) (n : nat) :
  forallb plain_char eyf_id = true ->
  translate_pieces (length eyf_id + n) false (eyf_id ++ rest)
  = lits eyf_id ++ translate_pieces n false rest.
Proof.
  induction eyf_id as [|c eyf_id IH]; intros Hp; [reflexivity|].
  simpl in Hp. apply andb_true_iff in Hp as [Hc Hp].
  apply plain_char_iff in Hc as (H1 & H2 & H3 & _).
  apply N.eqb_neq in H1, H2, H3.
  cbn [length Nat.add app translate_pieces lits List.map].
  rewrite H1, H2, H3. fold (lits eyf_id). rewrite IH by exact Hp. reflexivity.
Qed.

Lemma translate_plain (eyf_id : str) :
  forallb plain_char eyf_id = true ->
  translate (eyf_id ++ lit "_*.pdf")
  = Seq (seq_of (lits (eyf_id ++ lit "_") ++ Star AnyChar :: lits (lit ".pdf"))) Eos.
Proof.
  intros Hp. unfold translate. rewrite length_app.
  rewrite translate_pieces_plain by exact Hp.
  unfold lits. rewrite map_app, <- app_assoc. reflexivity.
Qed.

(** For a plain identifier the shell pattern is the literal test. *)
Lemma fnmatch_plain (eyf_id name : str) :
  forallb plain_char eyf_id = true ->
  fnmatch (eyf_id ++ lit "_*.pdf") name = named_for eyf_id name.
Proof.
  intros Hp. apply eq_true_iff_eq. unfold fnmatch.
  rewrite re_fullmatch_iff, translate_plain, named_for_iff by exact Hp.
  rewrite Matches_Seq. split.
  - intros (u1 & u2 & -> & H1 & H2). apply Matches_Eos in H2 as [-> _].
    apply Matches_lits in H1 as (u' & -> & H1).
    rewrite seq_of_cons in H1. apply Matches_Seq in H1 as (mid & w & -> & _ & H1).
    apply Matches_lits_only in H1. subst w. exists mid. now list_norm.
  - intros [mid ->]. exists (eyf_id ++ lit "_" ++ mid ++ lit ".pdf"), [].
    split; [now list_norm|]. split; [|constructor].
    apply Matches_lits. exists (mid ++ lit ".pdf"). split; [now list_norm|].
    rewrite seq_of_cons. apply Matches_Seq. exists mid, (lit ".pdf").
    split; [reflexivity|]. split; [apply Matches_star_any|].
    apply Matches_lits_only. reflexivity.
Qed.

Lemma split_at_no_sep (sep : N) (s : str) : forall cur,
  forallb (fun c => negb (N.eqb c sep)) s = true ->
  split_at sep cur s = [rev cur ++ s].
Proof.
  induction s as [|c s IH]; intros cur H.
  - simpl. rewrite app_nil_r. reflexivity.
  - simpl in H. apply andb_true_iff in H as [Hc Hs]. apply negb_true_iff in Hc.
    simpl. rewrite Hc, IH by exact Hs. simpl. rewrite <- app_assoc. reflexivity.
Qed.

Lemma last_app_nonempty {A} (l1 l2 : list A) (d : A) :
  l2 <> [] -> last (l1 ++ l2) d = last l2 d.
Proof.
  intros H. induction l1 as [|x l1 IH]; [reflexivity|].
  simpl. destruct (l1 ++ l2) eqn:E; [|exact IH].
  apply app_eq_nil in E as [_ E]. congruence.
Qed.

Lemma str_eqb_length (a b : str) : length a <> length b -> str_eqb a b = false.
Proof.
  intros H. destruct (str_eqb a b) eqn:E; [|reflexivity].
  apply str_eqb_eq in E. subst. congruence.
Qed.

Lemma no_double_star (eyf_id : str) :
  forallb plain_char eyf_id = true ->
  contains (lit "**") (eyf_id ++ lit "_*.pdf") = false.
Proof.
  induction eyf_id as [|c eyf_id IH]; intros Hp; [reflexivity|].
  simpl in Hp. apply andb_true_iff in Hp as [Hc Hp].
  apply plain_char_iff in Hc as (H1 & _). apply N.eqb_neq in H1.
  cbn [app contains]. rewrite IH by exact Hp.
  change (lit "**") with [42; 42]%N. cbn [startswith].
  rewrite N.eqb_sym, H1. reflexivity.
Qed.

Lemma parse_parts_plain (eyf_id : str) :
  forallb plain_char eyf_id = true ->
  parse_parts (eyf_id ++ lit "_*.pdf")
  = {| root := []; parts := [eyf_id ++ lit "_*.pdf"] |}.
Proof.
  intros Hp. unfold parse_parts, splitroot.
  assert (Hsep : forallb (fun c => negb (N.eqb c 47)) (eyf_id ++ lit "_*.pdf") = true).
  { rewrite forallb_app. apply andb_true_iff. split; [|reflexivity].
    rewrite forallb_forall in *. intros c Hc. apply Hp, plain_char_iff in Hc.
    apply negb_true_iff, N.eqb_neq. tauto. }
  assert (Hstart : startswith (lit "/") (eyf_id ++ lit "_*.pdf") = false).
  { destruct eyf_id as [|c eyf_id]; [reflexivity|].
    simpl in Hsep. apply andb_true_iff in Hsep as [Hc _]. apply negb_true_iff in Hc.
    change (lit "/") with [47%N]. cbn [app startswith].
    rewrite N.eqb_sym, Hc. reflexivity. }
  rewrite Hstart. unfold split. rewrite split_at_no_sep by exact Hsep.
  cbn [rev app filter]. rewrite nilb_app, andb_false_r.
  rewrite str_eqb_length; [reflexivity|].
  rewrite length_app. simpl. lia.
Qed.

Lemma glob_trace (fs : filesystem) (p : Path) (pattern : str) :
  trace_of (glob fs p pattern) = [SysGlob (path_str p) pattern].
Proof.
  unfold glob, glob_below. rewrite trace_of_bind. cbn [emit trace_of result_of fst snd].
  repeat match goal with
         | |- context [if ?b then _ else _] => destruct b
         | |- context [match ?x with _ => _ end] => destruct x
         end; reflexivity.
Qed.

(** What [glob] finds for a plain identifier in an existing directory. *)
Lemma glob_plain (fs : filesystem) (folder_path eyf_id : str) :
  plain_identifier eyf_id = true ->
  stat_is_dir fs (parse_parts folder_path) = true ->
  result_of (glob fs (parse_parts folder_path) (eyf_id ++ lit "_*.pdf"))
  = inr (waivers_named_for fs folder_path eyf_id).
Proof.
  intros Hp Hdir. unfold plain_identifier in Hp.
  unfold glob. rewrite result_of_bind. cbn [emit result_of snd].
  rewrite nilb_app, andb_false_r.
  rewrite parse_parts_plain by exact Hp. cbn [root parts nilb negb].
  rewrite last_app_nonempty by discriminate.
  change (N.eqb (last (lit "_*.pdf") 0%N) 47) with false. cbn [app].
  rewrite nilb_app, andb_false_r.
  rewrite str_eqb_length by (rewrite length_app; simpl; lia). cbn [orb].
  rewrite no_double_star by exact Hp.
  rewrite Hdir. cbn [negb].
  assert (Hw : is_wildcard_pattern (eyf_id ++ lit "_*.pdf") = true).
  { unfold is_wildcard_pattern, mem. rewrite existsb_app.
    replace (existsb (N.eqb 42) (lit "_*.pdf")) with true by reflexivity.
    rewrite orb_true_r. reflexivity. }
  rewrite Hw. unfold waivers_named_for, ret, result_of. cbn [snd].
  f_equal. f_equal. apply filter_ext. intros name. apply fnmatch_plain. exact Hp.
Qed.

Lemma get_files_loop (fs : filesystem) (folder_path : str)
    (found : str -> list str) (eyf_ids : list str) :
  (forall eyf_id, In eyf_id eyf_ids ->
     result_of (glob fs (parse_parts folder_path) (eyf_id ++ lit "_*.pdf"))
     = inr (found eyf_id)) ->
  forall result,
  for_each eyf_ids
    (fun eyf_id result =>
       matching_files <- glob fs (parse_parts folder_path) (eyf_id ++ lit "_*.pdf") ;;
       ret (result ++ [(eyf_id, matching_files)]))
    result
  = (glob_events folder_path eyf_ids,
     inr (result ++ List.map (fun eyf_id => (eyf_id, found eyf_id)) eyf_ids)).
Proof.
  match goal with |- _ -> forall r, for_each _ ?b _ = _ => set (body := b) end.
  induction eyf_ids as [|eyf_id eyf_ids IH]; intros Hfound result.
  - simpl. rewrite app_nil_r. reflexivity.
  - cbn [for_each List.map glob_events]. unfold body at 1.
    rewrite (surjective_M (glob fs (parse_parts folder_path) (eyf_id ++ lit "_*.pdf"))).
    rewrite glob_trace, Hfound by (left; reflexivity). rewrite bind_pair.
    cbn [ret trace_of result_of fst snd app bind].
    rewrite IH by (intros i Hi; apply Hfound; right; exact Hi).
    list_norm. reflexivity.
Qed.

(** The matcher, when the folder exists and [glob] returns for every
    identifier of the list. *)
Lemma get_files_for_eyf_ids_eq (fs : filesystem) (folder_path : str)
    (found : str -> list str) (eyf_ids : list str) :
  stat_exists fs (parse_parts folder_path) = true ->
  (forall eyf_id, In eyf_id eyf_ids ->
     result_of (glob fs (parse_parts folder_path) (eyf_id ++ lit "_*.pdf"))
     = inr (found eyf_id)) ->
  get_files_for_eyf_ids fs folder_path eyf_ids
  = (SysExists (path_str (parse_parts folder_path))
       :: glob_events folder_path eyf_ids,
     inr (List.map (fun eyf_id => (eyf_id, found eyf_id)) eyf_ids)).
Proof.
  intros Hex Hfound. unfold get_files_for_eyf_ids, path_exists.
  rewrite Hex. cbn [bind emit ret negb app].
  match goal with
  | |- context [for_each ?xs ?b ?s] =>
      replace (for_each xs b s) with
        (glob_events folder_path eyf_ids,
         @inr exn _ (List.map (fun eyf_id => (eyf_id, found eyf_id)) eyf_ids))
        by (symmetry; apply (@get_files_loop fs folder_path found eyf_ids Hfound []))
  end.
  reflexivity.
Qed.

Lemma stat_is_dir_exists (fs : filesystem) (p : Path) :
  stat_is_dir fs p = true -> stat_exists fs p = true.
Proof.
  unfold stat_is_dir, stat_exists. destruct (fs_stat fs (path_str p)) as [[]|]; congruence.
Qed.

Lemma resolved_map (found : str -> list str) (eyf_ids : list str) :
  resolved (List.map (fun eyf_id => (eyf_id, found eyf_id)) eyf_ids)
  = flat_map (fun eyf_id => match found eyf_id with [p] => [p] | _ => [] end) eyf_ids.
Proof.
  induction eyf_ids as [|i l IH]; [reflexivity|].
  cbn [List.map flat_map resolved]. fold (resolved (List.map (fun e => (e, found e)) l)).
  rewrite IH. reflexivity.
Qed.

(** C1, as amended: for an existing directory and identifiers without
    [*], [?], an opening bracket or a path separator, the matcher returns
    for each identifier, in the order of the directory, exactly the entries
    whose name begins with the identifier followed by an underscore and
    ends with [.pdf], both compared character by character. *)
Theorem matcher_literal_for_plain_identifiers
    (fs : filesystem) (folder_path : str) (eyf_ids : list str) :
  stat_is_dir fs (parse_parts folder_path) = true ->
  forallb plain_identifier eyf_ids = true ->
  result_of (get_files_for_eyf_ids fs folder_path eyf_ids)
  = inr (List.map (fun eyf_id => (eyf_id, waivers_named_for fs folder_path eyf_id))
           eyf_ids) /\
  forall eyf_id p,
    In p (waivers_named_for fs folder_path eyf_id) <->
    exists name,
      In name (fs_listdir fs (path_str (parse_parts folder_path))) /\
      p = path_str (child (parse_parts folder_path) name) /\
      startswith (eyf_id ++ lit "_") name = true /\
      endswith (lit ".pdf") name = true.
Proof.
  intros Hdir Hplain. split.
  - rewrite (@get_files_for_eyf_ids_eq fs folder_path
               (waivers_named_for fs folder_path) eyf_ids).
    + reflexivity.
    + apply stat_is_dir_exists. exact Hdir.
    + intros eyf_id Hin. apply glob_plain; [|exact Hdir].
      rewrite forallb_forall in Hplain. apply Hplain. exact Hin.
  - intros eyf_id p. unfold waivers_named_for, named_for. rewrite in_map_iff. split.
    + intros (name & <- & Hin). apply filter_In in Hin as [Hin Hn].
      apply andb_true_iff in Hn as [Hs He]. exists name. auto.
    + intros (name & Hin & -> & Hs & He). exists name. split; [reflexivity|].
      apply filter_In. split; [exact Hin|]. rewrite Hs, He. reflexivity.
Qed.

Lemma matcher_literal_for_plain_identifiers_witness :
  stat_is_dir fs_scenario (parse_parts (lit "w")) = true /\
  forallb plain_identifier [lit "100"; lit "10"; lit "101"] = true /\
  result_of (get_files_for_eyf_ids fs_scenario (lit "w") [lit "100"; lit "10"; lit "101"])
  = inr [(lit "100", [lit "w/100_Jane Doe_KCS Records Consent_2023.pdf"]);
         (lit "10", []);
         (lit "101", [lit "w/101_John Roe_KCS Records Consent_2023.pdf"])].
Proof.
  split; [reflexivity|]. split; [reflexivity|].
  exact (proj1 (@matcher_literal_for_plain_identifiers fs_scenario (lit "w")
                  [lit "100"; lit "10"; lit "101"] eq_refl eq_refl)).
Defined.

(** C1, as stated, fails: the identifier [1*] is read as a shell pattern,
    so its match list holds two entries although no name in the folder
    begins with [1*_]. *)
Lemma matcher_reads_identifier_as_pattern :
  stat_is_dir fs_prefixes (parse_parts (lit "w")) = true /\
  result_of (get_files_for_eyf_ids fs_prefixes (lit "w") [lit "1*"])
  = inr [(lit "1*", [lit "w/12_Ann Lee_KCS Records Consent_a.pdf";
                     lit "w/1_Bob Ray_KCS Records Consent_b.pdf"])] /\
  waivers_named_for fs_prefixes (lit "w") (lit "1*") = [] /\
  result_of (get_files_for_eyf_ids fs_prefixes (lit "w") [lit "1*"])
  <> inr [(lit "1*", waivers_named_for fs_prefixes (lit "w") (lit "1*"))].
Proof.
  split; [reflexivity|]. split; [reflexivity|]. split; [reflexivity|].
  vm_compute. discriminate.
Qed.

(** C10, as amended: when the folder exists and the search returns for
    every identifier, an identifier that occurs several times gets one
    result for each occurrence, each the result the identifier has when it
    is matched alone, and the reporter, when its error reports are
    printed, returns an output that holds the file of an identifier that
    has exactly one once for each occurrence: nothing is rejected or
    merged. *)
Theorem duplicates_processed_per_occurrence
    (fs : filesystem) (out : console) (folder_path : str) (eyf_ids : list str)
    (found : str -> list str) :
  stat_exists fs (parse_parts folder_path) = true ->
  (forall eyf_id, In eyf_id eyf_ids ->
     result_of (glob fs (parse_parts folder_path) (eyf_id ++ lit "_*.pdf"))
     = inr (found eyf_id)) ->
  let results := List.map (fun eyf_id => (eyf_id, found eyf_id)) eyf_ids in
  result_of (get_files_for_eyf_ids fs folder_path eyf_ids) = inr results /\
  length results = length eyf_ids /\
  (accepts out (flat_map error_report results) = true ->
   result_of (process_waiver_matches out results)
   = inr (flat_map (fun eyf_id => match found eyf_id with [p] => [p] | _ => [] end)
            eyf_ids)) /\
  (forall pdfs_to_combine,
     result_of (process_waiver_matches out results) = inr pdfs_to_combine ->
     pdfs_to_combine
     = flat_map (fun eyf_id => match found eyf_id with [p] => [p] | _ => [] end)
         eyf_ids) /\
  (forall eyf_id,
     In eyf_id eyf_ids ->
     result_of (get_files_for_eyf_ids fs folder_path [eyf_id])
     = inr [(eyf_id, found eyf_id)]) /\
  forall eyf_id p,
    found eyf_id = [p] ->
    count_occ str_eq_dec eyf_ids eyf_id
    <= count_occ str_eq_dec
         (flat_map (fun eyf_id => match found eyf_id with [p] => [p] | _ => [] end)
            eyf_ids) p.
Proof.
  intros Hex Hfound results. split; [|split; [|split; [|split; [|split]]]].
  - rewrite (@get_files_for_eyf_ids_eq fs folder_path found eyf_ids Hex Hfound).
    reflexivity.
  - apply length_map.
  - intros Hacc. rewrite process_waiver_matches_eq, printing_accepted by exact Hacc.
    unfold results. rewrite resolved_map. reflexivity.
  - intros pdfs. rewrite process_waiver_matches_eq. unfold printing.
    cbn [result_of snd].
    destruct (rejection out (flat_map error_report results)); [discriminate|].
    intros H. injection H as <-. unfold results. apply resolved_map.
  - intros eyf_id Hin.
    rewrite (@get_files_for_eyf_ids_eq fs folder_path found [eyf_id] Hex).
    + reflexivity.
    + intros i [<-|[]]. apply Hfound. exact Hin.
  - intros eyf_id p Hone. clear Hfound results.
    induction eyf_ids as [|i l IH]; [simpl; lia|].
    cbn [flat_map]. rewrite count_occ_app. cbn [count_occ].
    destruct (str_eq_dec i eyf_id) as [->|Hne].
    + rewrite Hone. cbn [count_occ]. destruct (str_eq_dec p p); [lia | congruence].
    + lia.
Qed.

Lemma duplicates_processed_per_occurrence_witness :
  stat_exists fs_scenario (parse_parts (lit "w")) = true /\
  result_of (get_files_for_eyf_ids fs_scenario (lit "w") [lit "100"; lit "101"; lit "100"])
  = inr [(lit "100", [lit "w/100_Jane Doe_KCS Records Consent_2023.pdf"]);
         (lit "101", [lit "w/101_John Roe_KCS Records Consent_2023.pdf"]);
         (lit "100", [lit "w/100_Jane Doe_KCS Records Consent_2023.pdf"])] /\
  result_of (process_waiver_matches utf8_console
               (List.map
                  (fun eyf_id => (eyf_id, waivers_named_for fs_scenario (lit "w") eyf_id))
                  [lit "100"; lit "101"; lit "100"]))
  = inr [lit "w/100_Jane Doe_KCS Records Consent_2023.pdf";
         lit "w/101_John Roe_KCS Records Consent_2023.pdf";
         lit "w/100_Jane Doe_KCS Records Consent_2023.pdf"].
Proof.
  assert (Hfound : forall eyf_id, In eyf_id [lit "100"; lit "101"; lit "100"] ->
            result_of (glob fs_scenario (parse_parts (lit "w")) (eyf_id ++ lit "_*.pdf"))
            = inr (waivers_named_for fs_scenario (lit "w") eyf_id)).
  { intros eyf_id [<-|[<-|[<-|[]]]]; reflexivity. }
  destruct (@duplicates_processed_per_occurrence fs_scenario utf8_console (lit "w")
              [lit "100"; lit "101"; lit "100"]
              (waivers_named_for fs_scenario (lit "w")) eq_refl Hfound)
    as (Hm & _ & Hr & _).
  split; [reflexivity|]. split; [exact Hm | exact (Hr eq_refl)].
Defined.

(** C10, as stated, fails: for a sequence that holds [/1] twice, or [1**]
    twice, the matcher raises at the first occurrence and returns no
    result at all, in a folder that exists. *)
Lemma duplicates_with_a_failing_search :
  stat_exists fs_scenario (parse_parts (lit "w")) = true /\
  count_occ str_eq_dec [lit "/1"; lit "/1"] (lit "/1") = 2 /\
  get_files_for_eyf_ids fs_scenario (lit "w") [lit "/1"; lit "/1"]
  = ([SysExists (lit "w"); SysGlob (lit "w") (lit "/1_*.pdf")],
     inl (NotImplementedError (lit "Non-relative patterns are unsupported"))) /\
  count_occ str_eq_dec [lit "1**"; lit "1**"] (lit "1**") = 2 /\
  get_files_for_eyf_ids fs_scenario (lit "w") [lit "1**"; lit "1**"]
  = ([SysExists (lit "w"); SysGlob (lit "w") (lit "1**_*.pdf")],
     inl (ValueError
            (lit "Invalid pattern: '**' can only be an entire path component"))).
Proof. repeat split. Qed.

(** ** The identifier loader *)

Lemma lstrip_decompose (s : str) :
  exists pre, s = pre ++ lstrip s /\ forallb isspace pre = true /\
              forall c rest, lstrip s = c :: rest -> isspace c = false.
Proof.
  induction s as [|c s (pre & E & Hpre & Hfirst)].
  - exists []. repeat split. intros c rest H. discriminate.
  - simpl. destruct (isspace c) eqn:Ec.
    + exists (c :: pre). split; [simpl; rewrite <- E; reflexivity|]. split.
      * simpl. rewrite Ec. exact Hpre.
      * exact Hfirst.
    + exists []. repeat split. intros d rest H. injection H as <- _. exact Ec.
Qed.

Lemma lstrip_all_space (s : str) : forallb isspace s = true -> lstrip s = [].
Proof.
  induction s as [|c s IH]; [reflexivity|]. simpl. intros H.
  apply andb_true_iff in H as [Hc Hs]. rewrite Hc. apply IH. exact Hs.
Qed.

Lemma forallb_rev {A} (f : A -> bool) (l : list A) :
  forallb f (rev l) = forallb f l.
Proof.
  induction l as [|x l IH]; [reflexivity|].
  simpl. rewrite forallb_app, IH. simpl. rewrite andb_true_r. apply andb_comm.
Qed.

(** [strip] removes whitespace from both ends and nothing else. *)
Lemma strip_decompose (s : str) :
  exists pre post,
    s = pre ++ strip s ++ post /\
    forallb isspace pre = true /\ forallb isspace post = true /\
    trimmed (strip s).
Proof.
  unfold strip, rstrip.
  destruct (lstrip_decompose s) as (pre & E & Hpre & Hfirst).
  destruct (lstrip_decompose (rev (lstrip s))) as (post & E' & Hpost & Hlast).
  exists pre, (rev post). split; [|split; [exact Hpre|split]].
  - rewrite <- rev_app_distr, <- E', rev_involutive. exact E.
  - rewrite forallb_rev. exact Hpost.
  - split.
    + intros c rest Hc.
      assert (Et : lstrip s = (c :: rest) ++ rev post).
      { rewrite <- Hc, <- rev_app_distr, <- E', rev_involutive. reflexivity. }
      apply (Hfirst c (rest ++ rev post)). exact Et.
    + intros c init Hc. apply (Hlast c (rev init)).
      rewrite <- (rev_involutive (lstrip (rev (lstrip s)))), Hc, rev_app_distr.
      reflexivity.
Qed.

Lemma strip_all_space (s : str) : forallb isspace s = true -> strip s = [].
Proof.
  intros H. unfold strip, rstrip. rewrite (lstrip_all_space s H). reflexivity.
Qed.

Lemma lines_from_concat (s : str) : forall cur,
  concat (lines_from cur s) = rev cur ++ s.
Proof.
  induction s as [|c s IH]; intros cur.
  - simpl. destruct cur; simpl; rewrite ?app_nil_r; reflexivity.
  - simpl. destruct (N.eqb c newline).
    + cbn [concat]. rewrite IH. simpl. rewrite <- app_assoc. reflexivity.
    + rewrite IH. simpl. rewrite <- app_assoc. reflexivity.
Qed.

Lemma lines_from_length (s : str) : forall cur,
  length (lines_from cur s)
  = count_occ N.eq_dec s newline
    + (if match s with
          | [] => nilb cur
          | _ :: _ => N.eqb (last s 0%N) newline
          end
       then 0 else 1).
Proof.
  induction s as [|c s IH]; intros cur.
  - simpl. destruct cur; reflexivity.
  - cbn [lines_from count_occ]. destruct (N.eqb_spec c newline) as [->|Hne].
    + destruct (N.eq_dec newline newline) as [_|]; [|congruence].
      cbn [length]. rewrite IH. destruct s as [|d s]; reflexivity.
    + destruct (N.eq_dec c newline) as [|_]; [congruence|].
      rewrite IH. destruct s as [|d s]; [|reflexivity].
      simpl. apply N.eqb_neq in Hne. rewrite Hne. reflexivity.
Qed.

Lemma lines_length (text : str) : length (lines text) = line_count text.
Proof.
  unfold lines, line_count. rewrite lines_from_length.
  destruct text; reflexivity.
Qed.

Lemma read_eyf_ids_from_file_eq (fs : filesystem) (ids_file content : str) :
  fs_open fs ids_file = Text content ->
  read_eyf_ids_from_file fs ids_file
  = ([SysOpen ids_file], inr (List.map strip (lines (universal_newlines content)))).
Proof.
  intros H. unfold read_eyf_ids_from_file, open_text. rewrite H. reflexivity.
Qed.

(** C3, as amended: the loader returns one identifier for every line of
    the text, in the order of the lines, each the line without the
    whitespace at its two ends; a line that is empty or made of whitespace
    gives the empty identifier. *)
Theorem loader_strips_every_line (fs : filesystem) (ids_file content : str) :
  fs_open fs ids_file = Text content ->
  exists eyf_ids,
    result_of (read_eyf_ids_from_file fs ids_file) = inr eyf_ids /\
    eyf_ids = List.map strip (lines (universal_newlines content)) /\
    concat (lines (universal_newlines content)) = universal_newlines content /\
    forall i line,
      nth_error (lines (universal_newlines content)) i = Some line ->
      nth_error eyf_ids i = Some (strip line) /\
      (exists pre post,
          line = pre ++ strip line ++ post /\
          forallb isspace pre = true /\ forallb isspace post = true) /\
      trimmed (strip line) /\
      (forallb isspace line = true -> strip line = []).
Proof.
  intros Hopen. eexists.
  split; [rewrite (read_eyf_ids_from_file_eq fs ids_file Hopen); reflexivity|].
  split; [reflexivity|]. split; [apply (lines_from_concat _ [])|].
  intros i line Hline. split; [apply map_nth_error; exact Hline|].
  destruct (strip_decompose line) as (pre & post & E & Hpre & Hpost & Htrim).
  split; [exists pre, post; auto|]. split; [exact Htrim | apply strip_all_space].
Qed.

Lemma loader_strips_every_line_witness :
  fs_open fs_blank_line (lit "ids.txt")
  = Text (lit "100" ++ nl ++ nl ++ lit "101" ++ nl) /\
  result_of (read_eyf_ids_from_file fs_blank_line (lit "ids.txt"))
  = inr [lit "100"; []; lit "101"].
Proof.
  split; [reflexivity|].
  destruct (@loader_strips_every_line fs_blank_line (lit "ids.txt") _ eq_refl)
    as (eyf_ids & Hr & He & _).
  rewrite Hr, He. reflexivity.
Defined.

(** C3, as stated, fails: a blank line in the identifier file gives an
    empty identifier instead of being left out. *)
Lemma loader_keeps_blank_line :
  fs_open fs_blank_line (lit "ids.txt")
  = Text (lit "100" ++ nl ++ nl ++ lit "101" ++ nl) /\
  result_of (read_eyf_ids_from_file fs_blank_line (lit "ids.txt"))
  = inr [lit "100"; []; lit "101"] /\
  nonblank_identifiers (universal_newlines (lit "100" ++ nl ++ nl ++ lit "101" ++ nl))
  = [lit "100"; lit "101"] /\
  result_of (read_eyf_ids_from_file fs_blank_line (lit "ids.txt"))
  <> inr (nonblank_identifiers
            (universal_newlines (lit "100" ++ nl ++ nl ++ lit "101" ++ nl))).
Proof.
  split; [reflexivity|]. split; [reflexivity|]. split; [reflexivity|].
  vm_compute. discriminate.
Qed.

(** ** The orchestration *)

Lemma result_of_try_except {A} (body : M A) (handler : exn -> M A) :
  result_of (try_except body handler) =
  match result_of body with
  | inl e => if is_Exception e then result_of (handler e) else inl e
  | inr a => inr a
  end.
Proof.
  destruct body as [t [e|a]]; simpl; [|reflexivity].
  destruct (is_Exception e); [|reflexivity]. destruct (handler e); reflexivity.
Qed.

Lemma trace_of_try_except {A} (body : M A) (handler : exn -> M A) :
  trace_of (try_except body handler) =
  trace_of body ++
  match result_of body with
  | inl e => if is_Exception e then trace_of (handler e) else []
  | inr _ => []
  end.
Proof.
  destruct body as [t [e|a]]; simpl; [|rewrite app_nil_r; reflexivity].
  destruct (is_Exception e); [|rewrite app_nil_r; reflexivity].
  destruct (handler e); reflexivity.
Qed.

Create HintDb py discriminated.

Lemma roe_ret {A} (a : A) : raises_only_exceptions (ret a).
Proof. intros e H. discriminate. Qed.

Lemma roe_emit (ev : event) : raises_only_exceptions (emit ev).
Proof. intros e H. discriminate. Qed.

Lemma roe_raise {A} (e : exn) :
  is_Exception e = true -> raises_only_exceptions (@raise A e).
Proof. intros He e' H. injection H as <-. exact He. Qed.

Lemma roe_bind {A B} (m : M A) (f : A -> M B) :
  raises_only_exceptions m -> (forall a, raises_only_exceptions (f a)) ->
  raises_only_exceptions (bind m f).
Proof.
  intros Hm Hf e. rewrite result_of_bind.
  destruct (result_of m) as [e'|a] eqn:E.
  - intros H. injection H as <-. apply Hm. exact E.
  - apply Hf.
Qed.

Lemma roe_for_each {A S} (xs : list A) (body : A -> S -> M S) :
  (forall x s, raises_only_exceptions (body x s)) ->
  forall s, raises_only_exceptions (for_each xs body s).
Proof.
  intros Hb. induction xs as [|x xs IH]; intros s.
  - apply roe_ret.
  - cbn [for_each]. apply roe_bind; [apply Hb | exact IH].
Qed.

#[local] Hint Resolve roe_ret roe_emit roe_raise roe_bind roe_for_each : py.

Lemma roe_glob (fs : filesystem) (p : Path) (pattern : str) :
  raises_only_exceptions (glob fs p pattern).
Proof.
  unfold glob, glob_below. apply roe_bind; [apply roe_emit|]. intros _.
  repeat match goal with
         | |- context [if ?b then _ else _] => destruct b
         | |- context [match ?x with _ => _ end] => destruct x
         end; auto with py.
Qed.

Lemma roe_validate_file_formats (fs : filesystem) (folder_path : str) (pattern : regex) :
  raises_only_exceptions (validate_file_formats fs folder_path pattern).
Proof.
  destruct (fs_stat fs (path_str (parse_parts folder_path))) as [k|] eqn:E.
  - destruct k.
    + rewrite (@validate_file_formats_not_dir fs folder_path pattern RegularFile E)
        by discriminate.
      intros e H. injection H as <-. reflexivity.
    + rewrite (validate_file_formats_dir fs folder_path pattern E).
      intros e H. discriminate.
    + rewrite (@validate_file_formats_not_dir fs folder_path pattern OtherKind E)
        by discriminate.
      intros e H. injection H as <-. reflexivity.
  - rewrite (validate_file_formats_missing fs folder_path pattern E).
    intros e H. injection H as <-. reflexivity.
Qed.

Lemma roe_get_files_for_eyf_ids (fs : filesystem) (folder_path : str) (eyf_ids : list str) :
  raises_only_exceptions (get_files_for_eyf_ids fs folder_path eyf_ids).
Proof.
  unfold get_files_for_eyf_ids, path_exists.
  apply roe_bind; [auto with py|]. intros found.
  destruct (negb found); [auto with py|].
  apply roe_for_each. intros eyf_id result.
  apply roe_bind; [apply roe_glob | auto with py].
Qed.

Lemma printing_result {A} (out : console) (lines : list str) (r : exn + A) :
  result_of (printing out lines r) = r \/
  exists msg, result_of (printing out lines r) = inl (UnicodeEncodeError msg).
Proof.
  unfold printing. cbn [result_of snd].
  destruct (rejection out lines) as [e|] eqn:E; [|left; reflexivity].
  destruct (@rejection_exception out lines e E) as (line & msg & _ & _ & ->).
  right. exists msg. reflexivity.
Qed.

Lemma printed_printing {A} (out : console) (lines : list str) (r : exn + A) :
  printed (trace_of (printing out lines r)) = written out lines /\
  globbed (trace_of (printing out lines r)) = [].
Proof. split; [apply printed_prints | apply globbed_prints]. Qed.

Lemma combine_pdfs_eq (out : console) (pdf_list : list str) :
  combine_pdfs out pdf_list = printing out (combined_lines pdf_list) (inr tt).
Proof.
  unfold combine_pdfs, combined_lines. rewrite print_printing.
  apply (@printing_bind _ _ out [_] (List.map _ pdf_list) tt). apply print_each.
Qed.

Lemma main_usage (argv : list str) (fs : filesystem) (out : console)
    (stdin : stdin_state) :
  length argv <> 3 ->
  main argv fs out stdin = printing out usage (inl (SystemExit 1)).
Proof.
  intros H. unfold main. apply Nat.eqb_neq in H. rewrite H. cbn [negb].
  rewrite !print_printing. unfold usage.
  apply (@printing_bind _ _ out [_] [_; _] tt).
  apply (@printing_bind _ _ out [_] [_] tt).
  apply printing_then. reflexivity.
Qed.

Lemma main_three (argv : list str) (fs : filesystem) (out : console)
    (stdin : stdin_state) :
  length argv = 3 ->
  main argv fs out stdin =
  (eyf_ids <- read_eyf_ids_from_file fs (nth 2 argv []) ;;
   try_except
     (main_try_body fs out stdin (nth 1 argv []) eyf_ids)
     (fun e => print out (lit "Unexpected Error: " ++ str_of_exn e))).
Proof.
  intros H. unfold main. apply Nat.eqb_eq in H. rewrite H. reflexivity.
Qed.

(** What [input] does, state by state. *)
Lemma input_eq (out : console) (stdin : stdin_state) (text : str) :
  input out stdin text
  = match stdin with
    | Lost => ([], inl (RuntimeError (lit "input(): lost sys.stdin")))
    | _ =>
        match out text with
        | Some msg => ([], inl (UnicodeEncodeError msg))
        | None =>
            ([Input text],
             match stdin with
             | Line answer => inr answer
             | EndOfInput => inl EOFError
             | _ => inl KeyboardInterrupt
             end)
        end
    end.
Proof. unfold input. destruct stdin; destruct (out text); reflexivity. Qed.

(** The prompt and what follows it, state by state of the input. *)
Lemma confirmation_eq (out : console) (stdin : stdin_state) (pdfs : list str) :
  confirmation out stdin pdfs
  = match stdin with
    | Lost => ([], inl (RuntimeError (lit "input(): lost sys.stdin")))
    | _ =>
        match out prompt with
        | Some msg => ([], inl (UnicodeEncodeError msg))
        | None =>
            bind (emit (Input prompt))
              (fun _ =>
                 match stdin with
                 | Line answer =>
                     if str_eqb (lower (strip answer)) (lit "y")
                     then printing out (combined_lines pdfs) (inr tt)
                     else printing out [lit "Operation cancelled."] (inl (SystemExit 0))
                 | EndOfInput => raise EOFError
                 | _ => raise KeyboardInterrupt
                 end)
        end
    end.
Proof.
  unfold confirmation. rewrite input_eq.
  destruct stdin as [answer| | |]; try reflexivity;
    destruct (out prompt) as [msg|]; try reflexivity.
  cbn [bind emit app].
  destruct (str_eqb (lower (strip answer)) (lit "y")); cbn [negb].
  - rewrite combine_pdfs_eq. destruct (printing out (combined_lines pdfs) (inr tt)).
    reflexivity.
  - rewrite print_printing.
    rewrite (@printing_then _ _ out [_] tt (fun _ => sys_exit 0) (inl (SystemExit 0)))
      by reflexivity.
    destruct (printing out [lit "Operation cancelled."] (@inl exn unit (SystemExit 0))).
    reflexivity.
Qed.

Lemma confirmation_result (out : console) (stdin : stdin_state) (pdfs : list str) :
  result_of (confirmation out stdin pdfs) = inr tt \/
  result_of (confirmation out stdin pdfs) = inl (SystemExit 0) \/
  (result_of (confirmation out stdin pdfs) = inl KeyboardInterrupt /\
   stdin = Interrupted) \/
  exists e, result_of (confirmation out stdin pdfs) = inl e /\ is_Exception e = true.
Proof.
  rewrite confirmation_eq.
  destruct stdin as [answer| | |];
    try (right; right; right; eexists; split; reflexivity);
    (destruct (out prompt) as [msg|];
     [right; right; right; eexists; split; reflexivity|]);
    rewrite result_of_bind; cbn [emit raise result_of snd];
    try (right; right; right; eexists; split; reflexivity).
  - destruct (str_eqb (lower (strip answer)) (lit "y")).
    + destruct (printing_result out (combined_lines pdfs) (@inr exn unit tt))
        as [-> | [msg ->]];
        [left; reflexivity | right; right; right; eexists; split; reflexivity].
    + destruct (printing_result out [lit "Operation cancelled."]
                  (@inl exn unit (SystemExit 0))) as [-> | [msg ->]];
        [right; left; reflexivity | right; right; right; eexists; split; reflexivity].
  - right. right. left. split; reflexivity.
Qed.

Section TryBody.
Variable fs : filesystem.
Variable out : console.
Variable stdin : stdin_state.
Variable folder_path : str.
Variable eyf_ids : list str.

(** The validator fails: its failure is the failure of the body. *)
Lemma body_validator_fails (t : list event) (e : exn) :
  validate_file_formats fs folder_path regex_pattern = (t, inl e) ->
  main_try_body fs out stdin folder_path eyf_ids = (t, inl e).
Proof. intros H. unfold main_try_body. rewrite H. reflexivity. Qed.

(** The validator finds names that break the convention: they are
    printed after their header as far as the console takes them, and the
    body exits when all are written. *)
Lemma body_violation (t : list event) (valid_files invalid_files : list str) :
  validate_file_formats fs folder_path regex_pattern
  = (t, inr (valid_files, invalid_files)) ->
  invalid_files <> [] ->
  main_try_body fs out stdin folder_path eyf_ids
  = (t ++ List.map Print (written out (violation_header :: invalid_files)),
     match rejection out (violation_header :: invalid_files) with
     | None => inl (SystemExit 1)
     | Some e => inl e
     end).
Proof.
  intros H Hne. unfold main_try_body. rewrite H.
  destruct invalid_files as [|x l]; [congruence|].
  cbn [bind length Nat.ltb Nat.leb].
  assert (E : (print out (lit "ERROR: Some files do not match the expected format: "
                          ++ file_pattern) ;;
               for_each (x :: l) (fun file _ => print out file) tt ;;
               @sys_exit unit 1)
              = printing out (violation_header :: x :: l) (inl (SystemExit 1))).
  { rewrite print_printing.
    apply (@printing_bind _ _ out [_] (x :: l) tt).
    rewrite (print_each out (fun file => file) (x :: l)), map_id.
    apply printing_then. reflexivity. }
  rewrite E, printing_raise. reflexivity.
Qed.

(** No name breaks the convention and the matcher fails. *)
Lemma body_matcher_fails (t tg : list event) (valid_files : list str) (e : exn) :
  validate_file_formats fs folder_path regex_pattern = (t, inr (valid_files, [])) ->
  get_files_for_eyf_ids fs folder_path eyf_ids = (tg, inl e) ->
  main_try_body fs out stdin folder_path eyf_ids = (t ++ tg, inl e).
Proof.
  intros H Hg. unfold main_try_body. rewrite H.
  cbn [bind length Nat.ltb Nat.leb]. rewrite bind_ret, Hg. reflexivity.
Qed.

(** No name breaks the convention and the matcher returns: the body
    prints the reports and the summary, then asks. *)
Lemma body_reaches_summary (t tg : list event) (valid_files : list str)
    (results : list (str * list str)) :
  validate_file_formats fs folder_path regex_pattern = (t, inr (valid_files, [])) ->
  get_files_for_eyf_ids fs folder_path eyf_ids = (tg, inr results) ->
  main_try_body fs out stdin folder_path eyf_ids
  = bind (t ++ tg, inr tt)
      (fun _ =>
         printing out (flat_map error_report results
                       ++ [summary (length (resolved results)) (length eyf_ids)])
           (inr tt) ;;
         confirmation out stdin (resolved results)).
Proof.
  intros H Hg. unfold main_try_body. rewrite H.
  cbn [bind length Nat.ltb Nat.leb]. rewrite bind_ret, Hg.
  rewrite bind_pair, process_waiver_matches_eq.
  fold prompt.
  match goal with
  | |- (_ ++ _ ++ trace_of ?m, result_of ?m) = (let (t', r) := ?m' in _) =>
      assert (Em : m = m')
  end.
  { unfold printing at 1 2.
    rewrite written_app, rejection_app.
    destruct (rejection out (flat_map error_report results)) as [e|].
    - cbn [bind]. rewrite app_nil_r. reflexivity.
    - cbn [bind]. fold (confirmation out stdin (resolved results)).
      fold (summary (length (resolved results)) (length eyf_ids)).
      unfold print. cbn [written rejection].
      destruct (out (summary (length (resolved results)) (length eyf_ids))).
      + cbn [raise bind]. rewrite !app_nil_r. reflexivity.
      + cbn [emit]. unfold bind at 1.
        destruct (confirmation out stdin (resolved results)) as [ta ra].
        cbn [bind]. rewrite map_app, <- app_assoc. reflexivity. }
  rewrite Em.
  match goal with |- context [let (t', r) := ?a in _] => destruct a as [ta ra] end.
  cbn [trace_of result_of fst snd]. rewrite app_assoc. reflexivity.
Qed.

(** How the body can end when no name breaks the convention. *)
Lemma body_clean_result (t : list event) (valid_files : list str) :
  validate_file_formats fs folder_path regex_pattern = (t, inr (valid_files, [])) ->
  result_of (main_try_body fs out stdin folder_path eyf_ids) = inr tt \/
  result_of (main_try_body fs out stdin folder_path eyf_ids) = inl (SystemExit 0) \/
  (result_of (main_try_body fs out stdin folder_path eyf_ids) = inl KeyboardInterrupt /\
   stdin = Interrupted) \/
  exists e, result_of (main_try_body fs out stdin folder_path eyf_ids) = inl e /\
            is_Exception e = true.
Proof.
  intros Ev.
  pose proof (surjective_M (get_files_for_eyf_ids fs folder_path eyf_ids)) as Eg.
  destruct (result_of (get_files_for_eyf_ids fs folder_path eyf_ids))
    as [e|results] eqn:Rg.
  - rewrite (body_matcher_fails Ev Eg). right. right. right. exists e.
    split; [reflexivity|].
    exact (@roe_get_files_for_eyf_ids fs folder_path eyf_ids e Rg).
  - rewrite (body_reaches_summary Ev Eg).
    rewrite result_of_bind. cbn [result_of snd]. rewrite result_of_bind.
    destruct (printing_result out
                (flat_map error_report results
                 ++ [summary (length (resolved results)) (length eyf_ids)])
                (@inr exn unit tt)) as [-> | [msg ->]];
      [|right; right; right; eexists; split; reflexivity].
    apply confirmation_result.
Qed.

(** The body leaves with status 1 only through the exit that follows
    the report of the names breaking the convention, all written. *)
Lemma body_exit_one :
  result_of (main_try_body fs out stdin folder_path eyf_ids) = inl (SystemExit 1) <->
  exists valid_files invalid_files,
    result_of (validate_file_formats fs folder_path regex_pattern)
    = inr (valid_files, invalid_files) /\ invalid_files <> [] /\
    accepts out (violation_header :: invalid_files) = true.
Proof.
  pose proof (surjective_M (validate_file_formats fs folder_path regex_pattern)) as Ev.
  destruct (result_of (validate_file_formats fs folder_path regex_pattern))
    as [e|[valid_files invalid_files]] eqn:Rv.
  - rewrite (body_validator_fails Ev). cbn [result_of snd]. split.
    + intros H. injection H as ->.
      pose proof (@roe_validate_file_formats fs folder_path regex_pattern _ Rv).
      discriminate.
    + intros (v & i & H & _). discriminate.
  - destruct invalid_files as [|x l].
    + split; [|intros (v & i & H & Hne & _); injection H as _ <-; congruence].
      intros H.
      destruct (body_clean_result Ev) as [H'|[H'|[[H' _]|(e & H' & He)]]];
        rewrite H' in H; try discriminate.
      injection H as ->. discriminate.
    + rewrite (@body_violation _ valid_files (x :: l) Ev) by discriminate.
      cbn [result_of snd]. split.
      * intros H. exists valid_files, (x :: l).
        split; [reflexivity|]. split; [discriminate|].
        apply rejection_none.
        destruct (rejection out (violation_header :: x :: l)) as [e|] eqn:E;
          [|reflexivity].
        destruct (@rejection_exception out _ e E) as (line & msg & _ & _ & ->).
        discriminate.
      * intros (v & i & H & _ & Hacc). injection H as _ <-.
        apply rejection_none in Hacc. rewrite Hacc. reflexivity.
Qed.
End TryBody.

Lemma read_eyf_ids_from_file_trace (fs : filesystem) (ids_file : str) :
  trace_of (read_eyf_ids_from_file fs ids_file) = [SysOpen ids_file].
Proof.
  unfold read_eyf_ids_from_file, open_text.
  destruct (fs_open fs ids_file); reflexivity.
Qed.

Lemma roe_read_eyf_ids_from_file (fs : filesystem) (ids_file : str) :
  raises_only_exceptions (read_eyf_ids_from_file fs ids_file).
Proof.
  unfold read_eyf_ids_from_file, open_text. intros e.
  destruct (fs_open fs ids_file); simpl; intros H; try discriminate;
    injection H as <-; reflexivity.
Qed.

Lemma is_file_events_quiet (folder_path : str) (names : list str) :
  printed (is_file_events folder_path names) = [] /\
  globbed (is_file_events folder_path names) = [].
Proof. induction names as [|n l [IH1 IH2]]; split; auto. Qed.

(** The validator prints nothing and matches nothing. *)
Lemma validate_file_formats_quiet (fs : filesystem) (folder_path : str) (pattern : regex) :
  printed (trace_of (validate_file_formats fs folder_path pattern)) = [] /\
  globbed (trace_of (validate_file_formats fs folder_path pattern)) = [].
Proof.
  destruct (fs_stat fs (path_str (parse_parts folder_path))) as [k|] eqn:E.
  - destruct k.
    + rewrite (@validate_file_formats_not_dir fs folder_path pattern RegularFile E)
        by discriminate.
      split; reflexivity.
    + rewrite (validate_file_formats_dir fs folder_path pattern E).
      cbn [trace_of fst printed globbed flat_map app].
      apply is_file_events_quiet.
    + rewrite (@validate_file_formats_not_dir fs folder_path pattern OtherKind E)
        by discriminate.
      split; reflexivity.
  - rewrite (validate_file_formats_missing fs folder_path pattern E).
    split; reflexivity.
Qed.

(** C2, as amended: a failure raised inside the [try] statement of
    [main] (steps 3 to 7) that is an [Exception] is caught by the handler,
    which prints it after [Unexpected Error:]; when the console takes that
    line, [main] returns without an exit call and the process ends with
    status 0, and when the console cannot encode it, the failure of the
    handler's own [print] leaves [main] and the process ends with status
    1.  What is raised there without being an [Exception], the interrupt
    from the keyboard at the prompt and the program's own exits, passes
    the handler. *)
Theorem handler_catches_failures_after_loading
    (fs : filesystem) (out : console) (stdin : stdin_state)
    (prog folder_path ids_file : str)
    (eyf_ids : list str) (t0 t : list event) (e : exn) :
  read_eyf_ids_from_file fs ids_file = (t0, inr eyf_ids) ->
  main_try_body fs out stdin folder_path eyf_ids = (t, inl e) ->
  (is_Exception e = true ->
   out (lit "Unexpected Error: " ++ str_of_exn e) = None ->
   main [prog; folder_path; ids_file] fs out stdin
   = (t0 ++ t ++ [Print (lit "Unexpected Error: " ++ str_of_exn e)], inr tt) /\
   printed (trace_of (main [prog; folder_path; ids_file] fs out stdin))
   = printed t ++ [lit "Unexpected Error: " ++ str_of_exn e] /\
   exit_status (main [prog; folder_path; ids_file] fs out stdin) = 0) /\
  (is_Exception e = true ->
   forall msg, out (lit "Unexpected Error: " ++ str_of_exn e) = Some msg ->
   main [prog; folder_path; ids_file] fs out stdin
   = (t0 ++ t, inl (UnicodeEncodeError msg)) /\
   exit_status (main [prog; folder_path; ids_file] fs out stdin) = 1) /\
  (is_Exception e = false ->
   main [prog; folder_path; ids_file] fs out stdin = (t0 ++ t, inl e) /\
   (e = KeyboardInterrupt /\ stdin = Interrupted \/
    e = SystemExit 0 \/ e = SystemExit 1)).
Proof.
  intros Hread Hbody.
  rewrite main_three by reflexivity. cbn [nth]. rewrite Hread, bind_pair, Hbody.
  unfold try_except, print. split; [|split].
  - intros He Hout. rewrite He, Hout.
    cbn [emit trace_of result_of fst snd]. split; [reflexivity|]. split; [|reflexivity].
    rewrite !printed_app.
    pose proof (read_eyf_ids_from_file_trace fs ids_file) as Ht.
    rewrite Hread in Ht. cbn [trace_of fst] in Ht. subst t0. reflexivity.
  - intros He msg Hout. rewrite He, Hout.
    cbn [raise trace_of result_of fst snd]. rewrite app_nil_r. split; reflexivity.
  - intros He. rewrite He. cbn [trace_of result_of fst snd]. split; [reflexivity|].
    pose proof (f_equal (@result_of unit) Hbody) as Hr. cbn [result_of snd] in Hr.
    pose proof (surjective_M (validate_file_formats fs folder_path regex_pattern)) as Ev.
    destruct (result_of (validate_file_formats fs folder_path regex_pattern))
      as [e'|[valid_files invalid_files]] eqn:Rv.
    + rewrite (@body_validator_fails fs out stdin folder_path eyf_ids _ _ Ev) in Hr.
      cbn [result_of snd] in Hr. injection Hr as ->.
      pose proof (@roe_validate_file_formats fs folder_path regex_pattern _ Rv).
      congruence.
    + destruct invalid_files as [|x l].
      * destruct (@body_clean_result fs out stdin folder_path eyf_ids _ _ Ev)
          as [H'|[H'|[[H' Hs]|(e' & H' & He')]]]; rewrite H' in Hr;
          try discriminate; injection Hr as <-; auto. congruence.
      * rewrite (@body_violation fs out stdin folder_path eyf_ids _ _ (x :: l) Ev) in Hr
          by discriminate.
        cbn [result_of snd] in Hr.
        destruct (rejection out (violation_header :: x :: l)) as [e'|] eqn:Er.
        -- destruct (@rejection_exception out _ e' Er) as (line & msg & _ & _ & ->).
           injection Hr as <-. discriminate.
        -- injection Hr as <-. auto.
Qed.

Lemma handler_catches_failures_after_loading_witness :
  read_eyf_ids_from_file fs_no_folder (lit "ids.txt")
  = ([SysOpen (lit "ids.txt")], inr [lit "100"]) /\
  main_try_body fs_no_folder utf8_console EndOfInput (lit "w") [lit "100"]
  = ([SysExists (lit "w")], inl (ValueError (lit "Folder does not exist: w"))) /\
  main argv_scenario fs_no_folder utf8_console EndOfInput
  = ([SysOpen (lit "ids.txt"); SysExists (lit "w");
      Print (lit "Unexpected Error: Folder does not exist: w")], inr tt) /\
  exit_status (main argv_scenario fs_no_folder utf8_console EndOfInput) = 0.
Proof.
  split; [reflexivity|]. split; [reflexivity|].
  destruct (@handler_catches_failures_after_loading fs_no_folder utf8_console EndOfInput
              (lit "generate_pdf_request.py") (lit "w") (lit "ids.txt")
              [lit "100"] [SysOpen (lit "ids.txt")] [SysExists (lit "w")]
              (ValueError (lit "Folder does not exist: w")) eq_refl eq_refl)
    as (Hcaught & _ & _).
  destruct (Hcaught eq_refl eq_refl) as (Hmain & _ & Hstatus).
  split; [exact Hmain | exact Hstatus].
Defined.

(** C2, as stated, fails in three ways.  When the identifier file is
    missing, the failure of step 2 is not caught: the handler prints
    nothing and the process ends with status 1.  An interrupt from the
    keyboard at the prompt of step 6 is not caught either.  And a failure
    whose message the console cannot encode is caught but not printed: the
    handler's [print] fails and the process ends with status 1. *)
Lemma failures_that_escape_the_handler :
  (length argv_scenario = 3 /\
   fs_open fs_empty (lit "ids.txt") = CannotOpen ENOENT /\
   main argv_scenario fs_empty utf8_console EndOfInput
   = ([SysOpen (lit "ids.txt")], inl (OSError ENOENT (lit "ids.txt"))) /\
   printed (trace_of (main argv_scenario fs_empty utf8_console EndOfInput)) = [] /\
   exit_status (main argv_scenario fs_empty utf8_console EndOfInput) = 1) /\
  (result_of (main argv_scenario fs_scenario utf8_console Interrupted)
   = inl KeyboardInterrupt /\
   printed (trace_of (main argv_scenario fs_scenario utf8_console Interrupted))
   = [summary 2 2] /\
   exit_status (main argv_scenario fs_scenario utf8_console Interrupted) = 130) /\
  (main_try_body fs_no_folder utf8_console EndOfInput (lit "w" ++ [56448%N]) [lit "100"]
   = ([SysExists (lit "w" ++ [56448%N])],
      inl (ValueError (lit "Folder does not exist: w" ++ [56448%N]))) /\
   main argv_undecodable_folder fs_no_folder utf8_console EndOfInput
   = ([SysOpen (lit "ids.txt"); SysExists (lit "w" ++ [56448%N])],
      inl (UnicodeEncodeError
             (lit "'utf-8' codec can't encode character '\udc80' in position 42: surrogates not allowed"))) /\
   exit_status (main argv_undecodable_folder fs_no_folder utf8_console EndOfInput) = 1).
Proof. repeat split. Qed.

(** C6, as amended: the process ends with status 1 in exactly four
    situations: the argument count is not two; the identifier file cannot
    be read (the failure is not caught); the validator returns at least
    one name that breaks the convention and the console takes the header
    and all these names; a failure caught by the handler has a message
    the console cannot encode.  With a wrong argument count the usage is
    printed and the program exits with 1.  In the third situation all the
    names are printed together after one header, the program exits with 1,
    and no pattern has been matched before.  When the console does not
    take one of these lines, printing it fails inside the [try]: the
    handler reports that failure and, its report printed, the process ends
    with status 0. *)
Theorem exit_status_one_cases
    (argv : list str) (fs : filesystem) (out : console) (stdin : stdin_state) :
  (exit_status (main argv fs out stdin) = 1 <->
   length argv <> 3 \/
   (length argv = 3 /\
    ((exists e, result_of (read_eyf_ids_from_file fs (nth 2 argv [])) = inl e) \/
     (exists eyf_ids,
         result_of (read_eyf_ids_from_file fs (nth 2 argv [])) = inr eyf_ids /\
         ((exists valid_files invalid_files,
              result_of (validate_file_formats fs (nth 1 argv []) regex_pattern)
              = inr (valid_files, invalid_files) /\ invalid_files <> [] /\
              accepts out (violation_header :: invalid_files) = true) \/
          (exists e msg,
              result_of (main_try_body fs out stdin (nth 1 argv []) eyf_ids) = inl e /\
              is_Exception e = true /\
              out (lit "Unexpected Error: " ++ str_of_exn e) = Some msg)))))) /\
  (length argv <> 3 -> accepts out usage = true ->
   main argv fs out stdin = (List.map Print usage, inl (SystemExit 1))) /\
  (forall eyf_ids valid_files invalid_files,
     length argv = 3 ->
     result_of (read_eyf_ids_from_file fs (nth 2 argv [])) = inr eyf_ids ->
     result_of (validate_file_formats fs (nth 1 argv []) regex_pattern)
     = inr (valid_files, invalid_files) ->
     invalid_files <> [] ->
     accepts out (violation_header :: invalid_files) = true ->
     result_of (main argv fs out stdin) = inl (SystemExit 1) /\
     printed (trace_of (main argv fs out stdin)) = violation_header :: invalid_files /\
     globbed (trace_of (main argv fs out stdin)) = []) /\
  (forall eyf_ids valid_files invalid_files,
     length argv = 3 ->
     result_of (read_eyf_ids_from_file fs (nth 2 argv [])) = inr eyf_ids ->
     result_of (validate_file_formats fs (nth 1 argv []) regex_pattern)
     = inr (valid_files, invalid_files) ->
     invalid_files <> [] ->
     accepts out (violation_header :: invalid_files) = false ->
     exists line msg,
       In line (violation_header :: invalid_files) /\ out line = Some msg /\
       result_of (main_try_body fs out stdin (nth 1 argv []) eyf_ids)
       = inl (UnicodeEncodeError msg) /\
       (out (lit "Unexpected Error: " ++ msg) = None ->
        result_of (main argv fs out stdin) = inr tt /\
        printed (trace_of (main argv fs out stdin))
        = written out (violation_header :: invalid_files)
          ++ [lit "Unexpected Error: " ++ msg] /\
        exit_status (main argv fs out stdin) = 0)).
Proof.
  split; [|split; [|split]].
  - destruct (Nat.eq_dec (length argv) 3) as [H3|H3].
    2:{ rewrite (@main_usage argv fs out stdin H3). split; [auto|]. intros _.
        unfold exit_status.
        destruct (printing_result out usage (@inl exn unit (SystemExit 1)))
          as [-> | [msg ->]]; reflexivity. }
    rewrite (@main_three argv fs out stdin H3). unfold exit_status.
    rewrite result_of_bind.
    destruct (result_of (read_eyf_ids_from_file fs (nth 2 argv []))) as [e|eyf_ids] eqn:Rr.
    + pose proof (@roe_read_eyf_ids_from_file fs (nth 2 argv []) e Rr) as He.
      split; [intros _; right; split; [exact H3 | left; eauto]|].
      intros _. destruct e; try reflexivity; discriminate.
    + rewrite result_of_try_except.
      pose proof (body_exit_one fs out stdin (nth 1 argv []) eyf_ids) as Hb.
      destruct (result_of (main_try_body fs out stdin (nth 1 argv []) eyf_ids))
        as [e|[]] eqn:Rb.
      * destruct (is_Exception e) eqn:Ie.
        -- unfold print.
           destruct (out (lit "Unexpected Error: " ++ str_of_exn e)) as [msg|] eqn:Eo;
             cbn [emit raise result_of snd].
           ++ split; [|reflexivity]. intros _. right. split; [exact H3|]. right.
              exists eyf_ids. split; [reflexivity|]. right. exists e, msg. auto.
           ++ split; [discriminate|].
              intros [Hn|[_ [[e' He']|(ids & Hids & [Hv|(e' & msg & He' & _ & Ho)])]]];
                [congruence | discriminate
                 | apply Hb in Hv; injection Hv as ->; discriminate |].
              injection Hids as <-. rewrite Rb in He'. injection He' as <-. congruence.
        -- destruct e as [| | | | | | | |code|]; try discriminate.
           ++ split.
              ** intros ->. right. split; [exact H3|]. right.
                 exists eyf_ids. split; [reflexivity|]. left. apply Hb. reflexivity.
              ** intros [Hn|[_ [[e' He']|(ids & Hids & [Hv|(e' & msg & He' & Hi & _)])]]];
                   [congruence | discriminate | |].
                 --- apply Hb in Hv. injection Hv as ->. reflexivity.
                 --- injection Hids as <-. rewrite Rb in He'. injection He' as <-.
                     discriminate.
           ++ split; [discriminate|].
              intros [Hn|[_ [[e' He']|(ids & Hids & [Hv|(e' & msg & He' & Hi & _)])]]];
                [congruence | discriminate | apply Hb in Hv; discriminate |].
              injection Hids as <-. rewrite Rb in He'. injection He' as <-. discriminate.
      * split; [discriminate|].
        intros [Hn|[_ [[e' He']|(ids & Hids & [Hv|(e' & msg & He' & _)])]]];
          [congruence | discriminate | apply Hb in Hv; discriminate |].
        injection Hids as <-. rewrite Rb in He'. discriminate.
  - intros H3 Hacc. rewrite (@main_usage argv fs out stdin H3).
    apply printing_accepted. exact Hacc.
  - intros eyf_ids valid_files invalid_files H3 Hread Hval Hne Hacc.
    pose proof (surjective_M (read_eyf_ids_from_file fs (nth 2 argv []))) as Er.
    rewrite Hread, read_eyf_ids_from_file_trace in Er.
    pose proof (surjective_M (validate_file_formats fs (nth 1 argv []) regex_pattern)) as Ev.
    rewrite Hval in Ev.
    destruct (validate_file_formats_quiet fs (nth 1 argv []) regex_pattern) as [Hp Hg].
    rewrite (@main_three argv fs out stdin H3), Er, bind_pair.
    rewrite (@body_violation fs out stdin (nth 1 argv []) eyf_ids _ valid_files
               invalid_files Ev Hne).
    rewrite (written_accepted _ _ Hacc).
    apply rejection_none in Hacc. rewrite Hacc.
    unfold try_except. cbn [is_Exception trace_of result_of fst snd].
    split; [reflexivity|]. split.
    + change ([SysOpen (nth 2 argv [])] ++ ?t) with (SysOpen (nth 2 argv []) :: t).
      cbn [printed flat_map app].
      fold (printed
        (trace_of (validate_file_formats fs (nth 1 argv []) regex_pattern)
         ++ List.map Print (violation_header :: invalid_files))).
      rewrite printed_app, Hp, printed_prints. reflexivity.
    + change ([SysOpen (nth 2 argv [])] ++ ?t) with (SysOpen (nth 2 argv []) :: t).
      cbn [globbed flat_map app].
      fold (globbed
        (trace_of (validate_file_formats fs (nth 1 argv []) regex_pattern)
         ++ List.map Print (violation_header :: invalid_files))).
      rewrite globbed_app, Hg, globbed_prints. reflexivity.
  - intros eyf_ids valid_files invalid_files H3 Hread Hval Hne Hrej.
    pose proof (surjective_M (read_eyf_ids_from_file fs (nth 2 argv []))) as Er.
    rewrite Hread, read_eyf_ids_from_file_trace in Er.
    pose proof (surjective_M (validate_file_formats fs (nth 1 argv []) regex_pattern)) as Ev.
    rewrite Hval in Ev.
    destruct (validate_file_formats_quiet fs (nth 1 argv []) regex_pattern) as [Hp _].
    destruct (rejection out (violation_header :: invalid_files)) as [e|] eqn:Erej.
    2:{ apply rejection_none in Erej. congruence. }
    destruct (@rejection_exception out _ e Erej) as (line & msg & Hin & Hline & ->).
    exists line, msg. split; [exact Hin|]. split; [exact Hline|].
    rewrite (@body_violation fs out stdin (nth 1 argv []) eyf_ids _ valid_files
               invalid_files Ev Hne), Erej.
    split; [reflexivity|]. intros Hout.
    rewrite (@main_three argv fs out stdin H3), Er, bind_pair.
    rewrite (@body_violation fs out stdin (nth 1 argv []) eyf_ids _ valid_files
               invalid_files Ev Hne), Erej.
    unfold try_except, print. cbn [is_Exception str_of_exn]. rewrite Hout.
    cbn [emit trace_of result_of fst snd exit_status].
    split; [reflexivity|]. split; [|reflexivity].
    rewrite !printed_app, Hp, printed_prints. reflexivity.
Qed.

Lemma exit_status_one_cases_witness :
  length argv_scenario = 3 /\
  result_of (read_eyf_ids_from_file fs_violation (lit "ids.txt")) = inr [lit "100"] /\
  result_of (validate_file_formats fs_violation (lit "w") regex_pattern)
  = inr ([lit "100_Jane Doe_KCS Records Consent_2023.pdf"],
         [lit "abc_Smith_KCS Records Consent_x.pdf"; lit "notes.txt"]) /\
  result_of (main argv_scenario fs_violation utf8_console EndOfInput)
  = inl (SystemExit 1) /\
  printed (trace_of (main argv_scenario fs_violation utf8_console EndOfInput))
  = [violation_header; lit "abc_Smith_KCS Records Consent_x.pdf"; lit "notes.txt"] /\
  globbed (trace_of (main argv_scenario fs_violation utf8_console EndOfInput)) = [].
Proof.
  split; [reflexivity|]. split; [reflexivity|]. split; [reflexivity|].
  refine (proj1 (proj2 (proj2 (@exit_status_one_cases argv_scenario fs_violation
                                 utf8_console EndOfInput)))
            [lit "100"] [lit "100_Jane Doe_KCS Records Consent_2023.pdf"]
            [lit "abc_Smith_KCS Records Consent_x.pdf"; lit "notes.txt"]
            eq_refl eq_refl eq_refl _ eq_refl).
  discriminate.
Defined.

(** C6, as stated, fails in both directions.  With two arguments and an
    identifier file that is missing, the process ends with status 1
    although no usage was printed and the validator did not run; so it
    does when the handler cannot print the failure it caught.  And a name
    that breaks the convention and that the console cannot encode is not
    reported: printing it fails inside the [try], the handler reports that
    failure instead, and the process ends with status 0. *)
Lemma status_one_is_not_only_usage_and_violation :
  (length argv_scenario = 3 /\
   exit_status (main argv_scenario fs_empty utf8_console EndOfInput) = 1 /\
   trace_of (main argv_scenario fs_empty utf8_console EndOfInput)
   = [SysOpen (lit "ids.txt")] /\
   printed (trace_of (main argv_scenario fs_empty utf8_console EndOfInput)) = []) /\
  (length argv_undecodable_folder = 3 /\
   exit_status (main argv_undecodable_folder fs_no_folder utf8_console EndOfInput) = 1 /\
   printed (trace_of (main argv_undecodable_folder fs_no_folder utf8_console EndOfInput))
   = []) /\
  (result_of (validate_file_formats fs_undecodable_name (lit "w") regex_pattern)
   = inr (List.map fst waivers, [undecodable_name]) /\
   printed (trace_of (main argv_scenario fs_undecodable_name utf8_console EndOfInput))
   = [violation_header;
      lit "Unexpected Error: 'utf-8' codec can't encode character '\udc80' in position 4: surrogates not allowed"] /\
   result_of (main argv_scenario fs_undecodable_name utf8_console EndOfInput) = inr tt /\
   exit_status (main argv_scenario fs_undecodable_name utf8_console EndOfInput) = 0).
Proof. repeat split. Qed.

(** C9: the loader returns one element for every line of the file, blank
    and whitespace-only lines included, each of these as the empty
    identifier; the number of identifiers is the number of lines, and this
    is the total shown in the summary before the confirmation prompt, in
    every run that gets as far as the summary with a console that takes
    the lines up to it. *)
Theorem loader_counts_every_line (fs : filesystem) (ids_file content : str) :
  fs_open fs ids_file = Text content ->
  exists eyf_ids,
    result_of (read_eyf_ids_from_file fs ids_file) = inr eyf_ids /\
    length eyf_ids = length (lines (universal_newlines content)) /\
    length eyf_ids = line_count (universal_newlines content) /\
    (forall i line,
        nth_error (lines (universal_newlines content)) i = Some line ->
        forallb isspace line = true ->
        nth_error eyf_ids i = Some []) /\
    (forall prog folder_path out stdin t tg valid_files results,
        validate_file_formats fs folder_path regex_pattern
        = (t, inr (valid_files, [])) ->
        get_files_for_eyf_ids fs folder_path eyf_ids = (tg, inr results) ->
        accepts out (flat_map error_report results
                     ++ [summary (length (resolved results))
                           (line_count (universal_newlines content))]) = true ->
        In (Print (summary (length (resolved results))
                     (line_count (universal_newlines content))))
           (trace_of (main [prog; folder_path; ids_file] fs out stdin))).
Proof.
  intros Hopen. exists (List.map strip (lines (universal_newlines content))).
  split; [rewrite (read_eyf_ids_from_file_eq fs ids_file Hopen); reflexivity|].
  split; [apply length_map|].
  split; [rewrite length_map; apply lines_length|]. split.
  - intros i line Hline Hblank.
    rewrite (map_nth_error strip i _ Hline), (strip_all_space line Hblank). reflexivity.
  - intros prog folder_path out stdin t tg valid_files results Hval Hget Hacc.
    rewrite main_three by reflexivity. cbn [nth].
    rewrite (read_eyf_ids_from_file_eq fs ids_file Hopen), bind_pair.
    rewrite trace_of_try_except.
    rewrite (@body_reaches_summary fs out stdin folder_path _ t tg valid_files results
               Hval Hget).
    rewrite length_map, lines_length.
    rewrite bind_pair, trace_of_bind, printing_accepted by exact Hacc.
    cbn [trace_of fst].
    apply in_or_app. right. apply in_or_app. left.
    apply in_or_app. right. apply in_or_app. left.
    rewrite map_app. apply in_or_app. right. left. reflexivity.
Qed.

Lemma loader_counts_every_line_witness :
  fs_open fs_blank_line (lit "ids.txt")
  = Text (lit "100" ++ nl ++ nl ++ lit "101" ++ nl) /\
  exists eyf_ids,
    result_of (read_eyf_ids_from_file fs_blank_line (lit "ids.txt")) = inr eyf_ids /\
    length eyf_ids = 3 /\
    In (Print (summary 2 3))
       (trace_of (main argv_scenario fs_blank_line utf8_console (Line (lit "y")))).
Proof.
  split; [reflexivity|].
  destruct (@loader_counts_every_line fs_blank_line (lit "ids.txt") _ eq_refl)
    as (eyf_ids & Hr & Hlen & Hcount & _ & Hprompt).
  exists eyf_ids. split; [exact Hr|]. split; [rewrite Hcount; reflexivity|].
  assert (E : eyf_ids = [lit "100"; []; lit "101"]).
  { assert (H : inr eyf_ids = @inr exn _ [lit "100"; []; lit "101"])
      by (rewrite <- Hr; reflexivity).
    injection H as ->. reflexivity. }
  subst eyf_ids.
  exact (Hprompt (lit "generate_pdf_request.py") (lit "w") utf8_console
           (Line (lit "y")) _ _ _ _ eq_refl eq_refl eq_refl).
Defined.

(** * Further properties *)

(** ** The matcher as a whole *)

Lemma glob_paths_found (fs : filesystem) (folder_path eyf_id : str) (paths : list str) :
  result_of (glob fs (parse_parts folder_path) (eyf_id ++ lit "_*.pdf")) = inr paths ->
  glob_paths fs folder_path eyf_id = paths.
Proof. intros H. unfold glob_paths. rewrite H. reflexivity. Qed.

(** If the loop of the matcher returns, every search returned. *)
Lemma get_files_loop_returns (fs : filesystem) (folder_path : str) (eyf_ids : list str) :
  forall result results,
  result_of
    (for_each eyf_ids
       (fun eyf_id result =>
          matching_files <- glob fs (parse_parts folder_path) (eyf_id ++ lit "_*.pdf") ;;
          ret (result ++ [(eyf_id, matching_files)]))
       result) = inr results ->
  forall eyf_id, In eyf_id eyf_ids ->
    exists paths,
      result_of (glob fs (parse_parts folder_path) (eyf_id ++ lit "_*.pdf")) = inr paths.
Proof.
  induction eyf_ids as [|i eyf_ids IH]; intros result results Hret eyf_id Hin.
  - contradiction.
  - cbn [for_each] in Hret. rewrite !result_of_bind in Hret.
    destruct (result_of (glob fs (parse_parts folder_path) (i ++ lit "_*.pdf")))
      as [e|paths] eqn:Eg; [discriminate|].
    cbn [ret result_of snd] in Hret.
    destruct Hin as [<-|Hin]; [eauto|].
    apply (IH _ _ Hret eyf_id Hin).
Qed.

(** X1: the matcher returns all its results or none.  It returns exactly
    when the folder exists and the search of every identifier returns;
    its results then name the identifiers of the input, in their order,
    each with what its own search found, after one search per
    identifier. *)
Theorem matcher_all_or_nothing
    (fs : filesystem) (folder_path : str) (eyf_ids : list str) :
  ((exists results,
       result_of (get_files_for_eyf_ids fs folder_path eyf_ids) = inr results) <->
   stat_exists fs (parse_parts folder_path) = true /\
   forall eyf_id, In eyf_id eyf_ids ->
     exists paths,
       result_of (glob fs (parse_parts folder_path) (eyf_id ++ lit "_*.pdf"))
       = inr paths) /\
  forall results,
    result_of (get_files_for_eyf_ids fs folder_path eyf_ids) = inr results ->
    List.map fst results = eyf_ids /\
    results = List.map (fun eyf_id => (eyf_id, glob_paths fs folder_path eyf_id)) eyf_ids /\
    globbed (trace_of (get_files_for_eyf_ids fs folder_path eyf_ids))
    = List.map (fun eyf_id => eyf_id ++ lit "_*.pdf") eyf_ids.
Proof.
  assert (Hall : stat_exists fs (parse_parts folder_path) = true ->
                 (forall eyf_id, In eyf_id eyf_ids ->
                    exists paths,
                      result_of (glob fs (parse_parts folder_path) (eyf_id ++ lit "_*.pdf"))
                      = inr paths) ->
                 get_files_for_eyf_ids fs folder_path eyf_ids
                 = (SysExists (path_str (parse_parts folder_path))
                      :: glob_events folder_path eyf_ids,
                    inr (List.map
                           (fun eyf_id => (eyf_id, glob_paths fs folder_path eyf_id))
                           eyf_ids))).
  { intros Hex Hglob. apply get_files_for_eyf_ids_eq; [exact Hex|].
    intros eyf_id Hin. destruct (Hglob eyf_id Hin) as [paths Hp].
    rewrite (glob_paths_found fs folder_path eyf_id Hp). exact Hp. }
  assert (Hback : forall results,
             result_of (get_files_for_eyf_ids fs folder_path eyf_ids) = inr results ->
             stat_exists fs (parse_parts folder_path) = true /\
             forall eyf_id, In eyf_id eyf_ids ->
               exists paths,
                 result_of (glob fs (parse_parts folder_path) (eyf_id ++ lit "_*.pdf"))
                 = inr paths).
  { intros results Hret. unfold get_files_for_eyf_ids, path_exists in Hret.
    rewrite result_of_bind in Hret. rewrite result_of_bind in Hret.
    cbn [emit ret result_of snd] in Hret.
    destruct (stat_exists fs (parse_parts folder_path)); [|discriminate].
    split; [reflexivity|]. cbn [negb] in Hret.
    exact (get_files_loop_returns fs folder_path eyf_ids [] Hret). }
  split.
  - split.
    + intros [results Hret]. exact (Hback results Hret).
    + intros [Hex Hglob]. rewrite (Hall Hex Hglob). eexists. reflexivity.
  - intros results Hret. destruct (Hback results Hret) as [Hex Hglob].
    rewrite (Hall Hex Hglob) in Hret |- *. cbn [result_of trace_of fst snd] in *.
    injection Hret as <-. split; [|split; [reflexivity|]].
    + rewrite map_map. cbn [fst]. apply map_id.
    + cbn [globbed flat_map app]. unfold glob_events.
      clear. induction eyf_ids as [|i l IH]; [reflexivity|].
      cbn [List.map flat_map app]. f_equal. exact IH.
Qed.

(** ** A path that is not a folder *)

Lemma glob_plain_not_dir (fs : filesystem) (folder_path eyf_id : str) :
  plain_identifier eyf_id = true ->
  stat_is_dir fs (parse_parts folder_path) = false ->
  result_of (glob fs (parse_parts folder_path) (eyf_id ++ lit "_*.pdf")) = inr [].
Proof.
  intros Hp Hdir. unfold plain_identifier in Hp.
  unfold glob. rewrite result_of_bind. cbn [emit result_of snd].
  rewrite nilb_app, andb_false_r.
  rewrite parse_parts_plain by exact Hp. cbn [root parts nilb negb].
  rewrite last_app_nonempty by discriminate.
  change (N.eqb (last (lit "_*.pdf") 0%N) 47) with false. cbn [app].
  rewrite nilb_app, andb_false_r.
  rewrite str_eqb_length by (rewrite length_app; simpl; lia). cbn [orb].
  rewrite no_double_star by exact Hp.
  rewrite Hdir. reflexivity.
Qed.

Lemma resolved_none (eyf_ids : list str) :
  resolved (List.map (fun eyf_id => (eyf_id, @nil str)) eyf_ids) = [].
Proof. induction eyf_ids as [|i l IH]; [reflexivity|]. exact IH. Qed.

(** X2: the matcher only asks whether the path exists.  Given a path that
    exists without being a directory it does not raise: every plain
    identifier gets an empty match list, so the reporter resolves nothing
    and reports every identifier as not found, as far as the console
    takes its lines. *)
Theorem matcher_on_a_path_that_is_no_folder
    (fs : filesystem) (out : console) (folder_path : str) (eyf_ids : list str)
    (k : kind) :
  fs_stat fs (path_str (parse_parts folder_path)) = Some k ->
  k <> Directory ->
  forallb plain_identifier eyf_ids = true ->
  result_of (get_files_for_eyf_ids fs folder_path eyf_ids)
  = inr (List.map (fun eyf_id => (eyf_id, [])) eyf_ids) /\
  process_waiver_matches out (List.map (fun eyf_id => (eyf_id, [])) eyf_ids)
  = printing out
      (List.map (fun eyf_id => lit "ERROR: No waiver found for EYF ID " ++ eyf_id)
         eyf_ids)
      (inr []) /\
  (accepts out
     (List.map (fun eyf_id => lit "ERROR: No waiver found for EYF ID " ++ eyf_id)
        eyf_ids) = true ->
   result_of (process_waiver_matches out (List.map (fun eyf_id => (eyf_id, [])) eyf_ids))
   = inr [] /\
   printed (trace_of (process_waiver_matches out
                        (List.map (fun eyf_id => (eyf_id, [])) eyf_ids)))
   = List.map (fun eyf_id => lit "ERROR: No waiver found for EYF ID " ++ eyf_id)
       eyf_ids).
Proof.
  intros Hk Hnd Hplain.
  assert (Hex : stat_exists fs (parse_parts folder_path) = true)
    by (unfold stat_exists; rewrite Hk; reflexivity).
  assert (Hdir : stat_is_dir fs (parse_parts folder_path) = false)
    by (unfold stat_is_dir; rewrite Hk; destruct k; congruence).
  assert (Hrep : flat_map error_report
                   (List.map (fun eyf_id => (eyf_id, @nil str)) eyf_ids)
                 = List.map
                     (fun eyf_id => lit "ERROR: No waiver found for EYF ID " ++ eyf_id)
                     eyf_ids).
  { clear. induction eyf_ids as [|i l IH]; [reflexivity|].
    cbn [List.map flat_map error_report fst snd app]. f_equal. exact IH. }
  split; [|split].
  - rewrite (@get_files_for_eyf_ids_eq fs folder_path (fun _ => []) eyf_ids Hex);
      [reflexivity|].
    intros eyf_id Hin. apply glob_plain_not_dir; [|exact Hdir].
    rewrite forallb_forall in Hplain. apply Hplain. exact Hin.
  - rewrite process_waiver_matches_eq, resolved_none, Hrep. reflexivity.
  - intros Hacc. rewrite process_waiver_matches_eq, resolved_none, Hrep.
    rewrite printing_accepted by exact Hacc. cbn [trace_of result_of fst snd].
    split; [reflexivity | apply printed_prints].
Qed.

Lemma matcher_on_a_path_that_is_no_folder_witness :
  fs_stat fs_folder_is_a_file (path_str (parse_parts (lit "w"))) = Some RegularFile /\
  RegularFile <> Directory /\
  forallb plain_identifier [lit "100"; lit "101"] = true /\
  result_of (get_files_for_eyf_ids fs_folder_is_a_file (lit "w") [lit "100"; lit "101"])
  = inr [(lit "100", []); (lit "101", [])].
Proof.
  split; [reflexivity|]. split; [discriminate|]. split; [reflexivity|].
  refine (proj1 (@matcher_on_a_path_that_is_no_folder fs_folder_is_a_file utf8_console
                   (lit "w") [lit "100"; lit "101"] RegularFile eq_refl _ eq_refl)).
  discriminate.
Defined.

Lemma repr_unquoted (s : str) :
  unquoted s = true -> repr s = lit "'" ++ s ++ lit "'".
Proof.
  intros H. unfold repr.
  assert (Hq : mem 39 s = false).
  { unfold unquoted in H. unfold mem. induction s as [|c s IH]; [reflexivity|].
    cbn [forallb existsb] in *. apply andb_true_iff in H as [Hc Hs].
    rewrite (IH Hs), orb_false_r.
    apply andb_true_iff in Hc as [Hc _]. apply andb_true_iff in Hc as [_ Hc].
    apply negb_true_iff in Hc. rewrite N.eqb_sym. exact Hc. }
  rewrite Hq. cbn [andb app lit]. change (lit "'") with [39%N]. cbn [app]. f_equal.
  f_equal. unfold unquoted in H. clear Hq.
  induction s as [|c s IH]; [reflexivity|].
  cbn [forallb flat_map] in *. apply andb_true_iff in H as [Hc Hs].
  rewrite (IH Hs).
  apply andb_true_iff in Hc as [Hc H92]. apply andb_true_iff in Hc as [Hc H39].
  apply andb_true_iff in Hc as [H32 H127].
  apply negb_true_iff in H92, H39.
  unfold repr_char. rewrite H39, H92. cbn [orb].
  apply N.leb_le in H32. apply N.ltb_lt in H127.
  assert (H9 : (c =? 9)%N = false) by (apply N.eqb_neq; lia).
  assert (H10 : (c =? 10)%N = false) by (apply N.eqb_neq; lia).
  assert (H13 : (c =? 13)%N = false) by (apply N.eqb_neq; lia).
  rewrite H9, H10, H13. unfold isprintable.
  assert (H128 : (c <? 128)%N = true) by (apply N.ltb_lt; lia).
  rewrite H128.
  assert (Hp : ((32 <=? c) && (c <? 127))%N = true).
  { apply andb_true_iff. split; [apply N.leb_le | apply N.ltb_lt]; lia. }
  rewrite Hp. reflexivity.
Qed.

(** X3: the validator lists the path it was given.  When the path exists
    without being a directory the listing fails with the error of the
    operating system, not with the folder-does-not-exist failure; [main]
    catches it, prints it with the path as [repr] shows it (between
    single quotes when the path is plain text) and, the console taking
    that line, ends with status 0 without matching. *)
Theorem validator_on_a_path_that_is_no_folder
    (fs : filesystem) (out : console) (stdin : stdin_state)
    (prog folder_path ids_file content : str) (k : kind) :
  fs_open fs ids_file = Text content ->
  fs_stat fs (path_str (parse_parts folder_path)) = Some k ->
  k <> Directory ->
  out (lit "Unexpected Error: [Errno 20] Not a directory: "
       ++ repr (path_str (parse_parts folder_path))) = None ->
  result_of (validate_file_formats fs folder_path regex_pattern)
  = inl (OSError ENOTDIR (path_str (parse_parts folder_path))) /\
  main [prog; folder_path; ids_file] fs out stdin
  = ([SysOpen ids_file;
      SysExists (path_str (parse_parts folder_path));
      SysIterdir (path_str (parse_parts folder_path));
      Print (lit "Unexpected Error: [Errno 20] Not a directory: "
             ++ repr (path_str (parse_parts folder_path)))],
     inr tt) /\
  exit_status (main [prog; folder_path; ids_file] fs out stdin) = 0 /\
  (unquoted (path_str (parse_parts folder_path)) = true ->
   repr (path_str (parse_parts folder_path))
   = lit "'" ++ path_str (parse_parts folder_path) ++ lit "'").
Proof.
  intros Hopen Hk Hnd Hout.
  pose proof (@validate_file_formats_not_dir fs folder_path regex_pattern k Hk Hnd) as Hv.
  split; [rewrite Hv; reflexivity|].
  assert (E : main [prog; folder_path; ids_file] fs out stdin
              = ([SysOpen ids_file;
                  SysExists (path_str (parse_parts folder_path));
                  SysIterdir (path_str (parse_parts folder_path));
                  Print (lit "Unexpected Error: [Errno 20] Not a directory: "
                         ++ repr (path_str (parse_parts folder_path)))],
                 inr tt)).
  { rewrite main_three by reflexivity. cbn [nth].
    rewrite (read_eyf_ids_from_file_eq fs ids_file Hopen), bind_pair.
    rewrite (@body_validator_fails fs out stdin folder_path _ _ _ Hv).
    unfold try_except, print. cbn [is_Exception].
    change (lit "Unexpected Error: "
            ++ str_of_exn (OSError ENOTDIR (path_str (parse_parts folder_path))))
      with (lit "Unexpected Error: [Errno 20] Not a directory: "
            ++ repr (path_str (parse_parts folder_path))).
    rewrite Hout. reflexivity. }
  split; [exact E|]. split; [rewrite E; reflexivity | apply repr_unquoted].
Qed.

Lemma validator_on_a_path_that_is_no_folder_witness :
  fs_open fs_folder_is_a_file (lit "ids.txt")
  = Text (lit "100" ++ nl ++ lit "101" ++ nl) /\
  fs_stat fs_folder_is_a_file (path_str (parse_parts (lit "w"))) = Some RegularFile /\
  RegularFile <> Directory /\
  printed (trace_of (main argv_scenario fs_folder_is_a_file utf8_console EndOfInput))
  = [lit "Unexpected Error: [Errno 20] Not a directory: 'w'"].
Proof.
  split; [reflexivity|]. split; [reflexivity|]. split; [discriminate|].
  assert (Hnd : RegularFile <> Directory) by discriminate.
  destruct (@validator_on_a_path_that_is_no_folder fs_folder_is_a_file utf8_console
              EndOfInput (lit "generate_pdf_request.py") (lit "w") (lit "ids.txt") _
              RegularFile eq_refl eq_refl Hnd eq_refl) as (_ & Hmain & _).
  unfold argv_scenario. rewrite Hmain. reflexivity.
Defined.

(** ** What the reporter prints *)

Lemma error_headers_app (l1 l2 : list str) :
  error_headers (l1 ++ l2) = error_headers l1 ++ error_headers l2.
Proof. apply filter_app. Qed.

Lemma error_headers_candidates (paths : list str) :
  error_headers (List.map (fun p => lit "  " ++ p) paths) = [].
Proof. induction paths as [|p l IH]; [reflexivity|]. exact IH. Qed.

Lemma error_report_headers (r : str * list str) :
  length (error_headers (error_report r)) = if length (snd r) =? 1 then 0 else 1.
Proof.
  destruct r as [eyf_id paths]. unfold error_report. cbn [fst snd].
  destruct paths as [|p [|q rest]]; [reflexivity | reflexivity |].
  assert (E : startswith (lit "ERROR: ")
                (lit "ERROR: Multiple waivers found for EYF ID " ++ eyf_id ++ lit ":")
              = true) by reflexivity.
  unfold error_headers at 1. cbn [filter]. rewrite E.
  fold (error_headers (List.map (fun p => lit "  " ++ p) (p :: q :: rest))).
  rewrite error_headers_candidates. reflexivity.
Qed.

Lemma resolved_unresolved_length (results : list (str * list str)) :
  length (resolved results) + length (unresolved results) = length results.
Proof.
  induction results as [|[eyf_id paths] l IH]; [reflexivity|].
  cbn [resolved unresolved flat_map filter snd length].
  fold (resolved l). fold (unresolved l). rewrite length_app.
  destruct paths as [|p [|q rest]]; cbn [length Nat.eqb negb app]; lia.
Qed.

Lemma error_headers_count (results : list (str * list str)) :
  length (error_headers (flat_map error_report results)) = length (unresolved results).
Proof.
  induction results as [|r l IH]; [reflexivity|].
  cbn [flat_map unresolved filter]. fold (unresolved l).
  rewrite error_headers_app, length_app, error_report_headers, IH.
  destruct (length (snd r) =? 1); reflexivity.
Qed.

Lemma no_report_when_resolved (results : list (str * list str)) :
  unresolved results = [] -> flat_map error_report results = [].
Proof.
  induction results as [|r l IH]; intros Hu; [reflexivity|].
  cbn [unresolved filter] in Hu. fold (unresolved l) in Hu.
  destruct (length (snd r) =? 1) eqn:E; cbn [negb] in Hu; [|discriminate].
  cbn [flat_map]. rewrite (IH Hu), app_nil_r.
  destruct r as [eyf_id paths]. cbn [snd] in E. unfold error_report. cbn [snd].
  destruct paths as [|p [|q rest]]; [discriminate | reflexivity | discriminate].
Qed.

(** X4: the reporter accounts for every result.  On a console that
    takes every line of the reports, a result either adds its file to the
    output or opens one error report, never both and never neither: the
    output and the error reports together are as many as the results, and
    nothing is printed exactly when every result resolved. *)
Theorem reporter_accounts_for_every_result
    (out : console) (results : list (str * list str)) :
  accepts out (flat_map error_report results) = true ->
  length (resolved results) + length (unresolved results) = length results /\
  result_of (process_waiver_matches out results) = inr (resolved results) /\
  length (error_headers (printed (trace_of (process_waiver_matches out results))))
  = length (unresolved results) /\
  (printed (trace_of (process_waiver_matches out results)) = [] <->
   length (resolved results) = length results).
Proof.
  intros Hacc.
  rewrite process_waiver_matches_eq, printing_accepted by exact Hacc.
  cbn [trace_of result_of fst snd].
  rewrite printed_prints.
  pose proof (resolved_unresolved_length results) as H1.
  pose proof (error_headers_count results) as H2.
  split; [exact H1|]. split; [reflexivity|]. split; [exact H2|]. split.
  - intros Hnone. rewrite Hnone in H2. cbn in H2. lia.
  - intros Hall. apply no_report_when_resolved.
    destruct (unresolved results); [reflexivity|]. simpl in H1. lia.
Qed.

Lemma reporter_accounts_for_every_result_witness :
  length (error_headers
            (printed (trace_of (process_waiver_matches utf8_console
                                  [(lit "1", []); (lit "2", [lit "2_a.pdf"]);
                                   (lit "3", [lit "3_a.pdf"; lit "3_b.pdf"])]))))
  = 2.
Proof.
  destruct (@reporter_accounts_for_every_result utf8_console
              [(lit "1", []); (lit "2", [lit "2_a.pdf"]);
               (lit "3", [lit "3_a.pdf"; lit "3_b.pdf"])] eq_refl)
    as (_ & _ & Hcount & _).
  exact Hcount.
Defined.

(** ** The confirmation prompt *)

Lemma lstrip_app_space (pre s : str) :
  forallb isspace pre = true -> lstrip (pre ++ s) = lstrip s.
Proof.
  induction pre as [|c pre IH]; intros H; [reflexivity|].
  simpl in H. apply andb_true_iff in H as [Hc Hpre].
  simpl. rewrite Hc. apply IH. exact Hpre.
Qed.

Lemma strip_between_spaces (pre post : str) (c : N) :
  forallb isspace pre = true -> forallb isspace post = true -> isspace c = false ->
  strip (pre ++ c :: post) = [c].
Proof.
  intros Hpre Hpost Hc. unfold strip, rstrip.
  rewrite (lstrip_app_space pre (c :: post) Hpre). cbn [lstrip]. rewrite Hc.
  cbn [rev]. rewrite lstrip_app_space by (rewrite forallb_rev; exact Hpost).
  cbn [lstrip]. rewrite Hc. reflexivity.
Qed.

Lemma lower_one_y (c : N) :
  lower [c] = lit "y" <-> c = 121%N \/ c = 89%N.
Proof.
  unfold lower. cbn [List.map]. change (lit "y") with [121%N].
  destruct ((65 <=? c) && (c <=? 90))%N eqn:E.
  - apply andb_true_iff in E as [E1 E2]. apply N.leb_le in E1, E2. split.
    + intros H. injection H as H. right. lia.
    + intros [->| ->]; [lia | reflexivity].
  - split.
    + intros H. injection H as H. left. exact H.
    + intros [->| ->]; [reflexivity | discriminate].
Qed.

(** The answers [main] takes for a yes. *)
Lemma affirmative_iff (answer : str) :
  str_eqb (lower (strip answer)) (lit "y") = true <-> affirmative answer.
Proof.
  rewrite str_eqb_eq. split.
  - intros H. destruct (strip_decompose answer) as (pre & post & E & Hpre & Hpost & _).
    destruct (strip answer) as [|c [|d rest]] eqn:Es; try discriminate.
    apply lower_one_y in H. exists pre, c, post. auto.
  - intros (pre & c & post & -> & Hpre & Hpost & Hc).
    rewrite strip_between_spaces by (auto; destruct Hc as [->| ->]; reflexivity).
    apply lower_one_y. exact Hc.
Qed.

Lemma printed_glob_events (folder_path : str) (eyf_ids : list str) :
  printed (glob_events folder_path eyf_ids) = [].
Proof. induction eyf_ids as [|i l IH]; [reflexivity|]. exact IH. Qed.

Lemma globbed_glob_events (folder_path : str) (eyf_ids : list str) :
  globbed (glob_events folder_path eyf_ids)
  = List.map (fun eyf_id => eyf_id ++ lit "_*.pdf") eyf_ids.
Proof.
  induction eyf_ids as [|i l IH]; [reflexivity|].
  cbn [glob_events List.map globbed flat_map app]. f_equal. exact IH.
Qed.

(** The matcher, when it returns. *)
Lemma get_files_for_eyf_ids_returns
    (fs : filesystem) (folder_path : str) (eyf_ids : list str)
    (results : list (str * list str)) :
  result_of (get_files_for_eyf_ids fs folder_path eyf_ids) = inr results ->
  get_files_for_eyf_ids fs folder_path eyf_ids
  = (SysExists (path_str (parse_parts folder_path)) :: glob_events folder_path eyf_ids,
     inr (List.map (fun eyf_id => (eyf_id, glob_paths fs folder_path eyf_id)) eyf_ids)).
Proof.
  intros Hret.
  assert (Hback : stat_exists fs (parse_parts folder_path) = true /\
                  forall eyf_id, In eyf_id eyf_ids ->
                    exists paths,
                      result_of (glob fs (parse_parts folder_path) (eyf_id ++ lit "_*.pdf"))
                      = inr paths).
  { unfold get_files_for_eyf_ids, path_exists in Hret.
    rewrite result_of_bind in Hret. rewrite result_of_bind in Hret.
    cbn [emit ret result_of snd] in Hret.
    destruct (stat_exists fs (parse_parts folder_path)); [|discriminate].
    split; [reflexivity|]. cbn [negb] in Hret.
    exact (get_files_loop_returns fs folder_path eyf_ids [] Hret). }
  destruct Hback as [Hex Hglob].
  apply get_files_for_eyf_ids_eq; [exact Hex|].
  intros eyf_id Hin. destruct (Hglob eyf_id Hin) as [paths Hp].
  rewrite (glob_paths_found fs folder_path eyf_id Hp). exact Hp.
Qed.

Lemma try_except_prefix {A} (t : list event) (m : M A) (h : exn -> M A) :
  try_except (bind (t, inr tt) (fun _ => m)) h
  = bind (t, inr tt) (fun _ => try_except m h).
Proof.
  destruct m as [tm [e|a]]; cbn [bind try_except]; [|reflexivity].
  destruct (is_Exception e); [|reflexivity].
  destruct (h e) as [th rh]. rewrite app_assoc. reflexivity.
Qed.

(** [main] up to the prompt, when the identifiers are loaded, no name
    breaks the convention, the matcher returns and the console takes the
    reports and the summary. *)
Lemma main_at_prompt
    (fs : filesystem) (out : console) (stdin : stdin_state)
    (prog folder_path ids_file : str)
    (eyf_ids valid_files : list str) (results : list (str * list str)) :
  result_of (read_eyf_ids_from_file fs ids_file) = inr eyf_ids ->
  result_of (validate_file_formats fs folder_path regex_pattern)
  = inr (valid_files, []) ->
  result_of (get_files_for_eyf_ids fs folder_path eyf_ids) = inr results ->
  accepts out (flat_map error_report results
               ++ [summary (length (resolved results)) (length eyf_ids)]) = true ->
  exists before,
    printed before
    = flat_map error_report results
      ++ [summary (length (resolved results)) (length eyf_ids)] /\
    globbed before = List.map (fun eyf_id => eyf_id ++ lit "_*.pdf") eyf_ids /\
    main [prog; folder_path; ids_file] fs out stdin
    = bind (before, inr tt)
        (fun _ =>
           try_except (confirmation out stdin (resolved results))
             (fun e => print out (lit "Unexpected Error: " ++ str_of_exn e))).
Proof.
  intros Hread Hval Hget Hacc.
  pose proof (surjective_M (read_eyf_ids_from_file fs ids_file)) as Er.
  rewrite Hread, read_eyf_ids_from_file_trace in Er.
  pose proof (surjective_M (validate_file_formats fs folder_path regex_pattern)) as Ev.
  rewrite Hval in Ev.
  destruct (validate_file_formats_quiet fs folder_path regex_pattern) as [Hp Hg].
  pose proof (get_files_for_eyf_ids_returns fs folder_path eyf_ids Hget) as Eg.
  assert (Eres : results
                 = List.map (fun eyf_id => (eyf_id, glob_paths fs folder_path eyf_id))
                     eyf_ids).
  { rewrite Eg in Hget. cbn [result_of snd] in Hget. injection Hget as <-. reflexivity. }
  rewrite <- Eres in Eg.
  exists ([SysOpen ids_file]
          ++ (trace_of (validate_file_formats fs folder_path regex_pattern)
              ++ SysExists (path_str (parse_parts folder_path))
                 :: glob_events folder_path eyf_ids)
          ++ List.map Print
               (flat_map error_report results
                ++ [summary (length (resolved results)) (length eyf_ids)])).
  split; [|split].
  - rewrite !printed_app, Hp, printed_prints.
    cbn [printed flat_map app]. fold (printed (glob_events folder_path eyf_ids)).
    rewrite printed_glob_events. reflexivity.
  - rewrite !globbed_app, Hg, globbed_prints.
    cbn [globbed flat_map app]. fold (globbed (glob_events folder_path eyf_ids)).
    rewrite globbed_glob_events. apply app_nil_r.
  - rewrite main_three by reflexivity. cbn [nth]. rewrite Er. cbn [bind].
    rewrite (@body_reaches_summary fs out stdin folder_path eyf_ids _ _ valid_files
               results Ev Eg).
    rewrite printing_accepted by exact Hacc.
    rewrite !try_except_prefix. cbn [bind].
    destruct (try_except (confirmation out stdin (resolved results)) _) as [tc rc].
    rewrite <- !app_assoc. reflexivity.
Qed.

Lemma accepts_cons (out : console) (line : str) (lines : list str) :
  accepts out (line :: lines) = true <-> out line = None /\ accepts out lines = true.
Proof.
  cbn [accepts forallb]. fold (accepts out lines). rewrite andb_true_iff.
  destruct (out line); split; intros [H1 H2]; split; congruence.
Qed.

(** The run after an answer that is a yes. *)
Lemma main_after_yes
    (fs : filesystem) (out : console) (prog folder_path ids_file answer : str)
    (eyf_ids valid_files : list str) (results : list (str * list str)) :
  result_of (read_eyf_ids_from_file fs ids_file) = inr eyf_ids ->
  result_of (validate_file_formats fs folder_path regex_pattern)
  = inr (valid_files, []) ->
  result_of (get_files_for_eyf_ids fs folder_path eyf_ids) = inr results ->
  accepts out (flat_map error_report results
               ++ summary (length (resolved results)) (length eyf_ids)
               :: prompt :: combined_lines (resolved results)) = true ->
  str_eqb (lower (strip answer)) (lit "y") = true ->
  result_of (main [prog; folder_path; ids_file] fs out (Line answer)) = inr tt /\
  printed (trace_of (main [prog; folder_path; ids_file] fs out (Line answer)))
  = flat_map error_report results
    ++ summary (length (resolved results)) (length eyf_ids)
    :: combined_lines (resolved results).
Proof.
  intros Hread Hval Hget Hacc Hy.
  rewrite accepts_app in Hacc. apply andb_true_iff in Hacc as [Hrep Hrest].
  apply accepts_cons in Hrest as [Hsum Hrest].
  apply accepts_cons in Hrest as [Hprompt Hcomb].
  assert (Hacc : accepts out (flat_map error_report results
                              ++ [summary (length (resolved results)) (length eyf_ids)])
                 = true).
  { rewrite accepts_app, Hrep. apply accepts_cons. split; [exact Hsum | reflexivity]. }
  destruct (@main_at_prompt fs out (Line answer) prog folder_path ids_file eyf_ids
              valid_files results Hread Hval Hget Hacc) as (before & Hp & _ & ->).
  rewrite confirmation_eq, Hprompt, Hy.
  rewrite printing_accepted by exact Hcomb.
  cbn [bind emit try_except trace_of result_of fst snd app].
  split; [reflexivity|].
  rewrite printed_app, Hp. cbn [printed flat_map app].
  fold (printed (List.map Print (combined_lines (resolved results)))).
  rewrite printed_prints, <- app_assoc. reflexivity.
Qed.

(** The run after any other answer. *)
Lemma main_after_no
    (fs : filesystem) (out : console) (prog folder_path ids_file answer : str)
    (eyf_ids valid_files : list str) (results : list (str * list str)) :
  result_of (read_eyf_ids_from_file fs ids_file) = inr eyf_ids ->
  result_of (validate_file_formats fs folder_path regex_pattern)
  = inr (valid_files, []) ->
  result_of (get_files_for_eyf_ids fs folder_path eyf_ids) = inr results ->
  accepts out (flat_map error_report results
               ++ [summary (length (resolved results)) (length eyf_ids);
                   prompt; lit "Operation cancelled."]) = true ->
  str_eqb (lower (strip answer)) (lit "y") = false ->
  result_of (main [prog; folder_path; ids_file] fs out (Line answer))
  = inl (SystemExit 0) /\
  printed (trace_of (main [prog; folder_path; ids_file] fs out (Line answer)))
  = flat_map error_report results
    ++ [summary (length (resolved results)) (length eyf_ids);
        lit "Operation cancelled."].
Proof.
  intros Hread Hval Hget Hacc Hy.
  rewrite accepts_app in Hacc. apply andb_true_iff in Hacc as [Hrep Hrest].
  apply accepts_cons in Hrest as [Hsum Hrest].
  apply accepts_cons in Hrest as [Hprompt Hcancel].
  assert (Hacc : accepts out (flat_map error_report results
                              ++ [summary (length (resolved results)) (length eyf_ids)])
                 = true).
  { rewrite accepts_app, Hrep. apply accepts_cons. split; [exact Hsum | reflexivity]. }
  destruct (@main_at_prompt fs out (Line answer) prog folder_path ids_file eyf_ids
              valid_files results Hread Hval Hget Hacc) as (before & Hp & _ & ->).
  rewrite confirmation_eq, Hprompt, Hy.
  rewrite printing_accepted by exact Hcancel.
  cbn [bind emit try_except is_Exception trace_of result_of fst snd app List.map].
  split; [reflexivity|].
  rewrite printed_app, Hp, <- app_assoc. reflexivity.
Qed.

(** X6: what the prompt decides.  Once the summary is shown, on a console
    that takes the lines of the run, the answer counts as yes exactly when
    it is a single [y] or [Y] between whitespace; then the resolved files
    are listed and [main] returns.  Every other answer prints the
    cancellation and leaves with [sys.exit(0)], so the status is 0 either
    way. *)
Theorem prompt_accepts_only_y
    (fs : filesystem) (out : console) (prog folder_path ids_file answer : str)
    (eyf_ids valid_files : list str) (results : list (str * list str)) :
  result_of (read_eyf_ids_from_file fs ids_file) = inr eyf_ids ->
  result_of (validate_file_formats fs folder_path regex_pattern)
  = inr (valid_files, []) ->
  result_of (get_files_for_eyf_ids fs folder_path eyf_ids) = inr results ->
  accepts out (flat_map error_report results
               ++ summary (length (resolved results)) (length eyf_ids)
               :: prompt :: lit "Operation cancelled."
               :: combined_lines (resolved results)) = true ->
  (affirmative answer ->
   result_of (main [prog; folder_path; ids_file] fs out (Line answer)) = inr tt /\
   printed (trace_of (main [prog; folder_path; ids_file] fs out (Line answer)))
   = flat_map error_report results
     ++ summary (length (resolved results)) (length eyf_ids)
     :: combined_lines (resolved results)) /\
  (~ affirmative answer ->
   result_of (main [prog; folder_path; ids_file] fs out (Line answer))
   = inl (SystemExit 0) /\
   printed (trace_of (main [prog; folder_path; ids_file] fs out (Line answer)))
   = flat_map error_report results
     ++ [summary (length (resolved results)) (length eyf_ids);
         lit "Operation cancelled."]) /\
  exit_status (main [prog; folder_path; ids_file] fs out (Line answer)) = 0.
Proof.
  intros Hread Hval Hget Hacc.
  rewrite accepts_app in Hacc. apply andb_true_iff in Hacc as [Hrep Hrest].
  apply accepts_cons in Hrest as [Hsum Hrest].
  apply accepts_cons in Hrest as [Hprompt Hrest].
  apply accepts_cons in Hrest as [Hcancel Hcomb].
  assert (Hyes : accepts out (flat_map error_report results
                              ++ summary (length (resolved results)) (length eyf_ids)
                              :: prompt :: combined_lines (resolved results)) = true).
  { rewrite accepts_app, Hrep. repeat (apply accepts_cons; split; [assumption|]).
    exact Hcomb. }
  assert (Hno : accepts out (flat_map error_report results
                             ++ [summary (length (resolved results)) (length eyf_ids);
                                 prompt; lit "Operation cancelled."]) = true).
  { rewrite accepts_app, Hrep. repeat (apply accepts_cons; split; [assumption|]).
    reflexivity. }
  pose proof (affirmative_iff answer) as Hy.
  destruct (str_eqb (lower (strip answer)) (lit "y")) eqn:Ey.
  - destruct (@main_after_yes fs out prog folder_path ids_file answer eyf_ids
                valid_files results Hread Hval Hget Hyes Ey) as [Hr Hp].
    split; [|split].
    + intros _. split; [exact Hr | exact Hp].
    + intros Hn. exfalso. apply Hn. apply Hy. reflexivity.
    + unfold exit_status. rewrite Hr. reflexivity.
  - destruct (@main_after_no fs out prog folder_path ids_file answer eyf_ids
                valid_files results Hread Hval Hget Hno Ey) as [Hr Hp].
    split; [|split].
    + intros Ha. apply Hy in Ha. discriminate.
    + intros _. split; [exact Hr | exact Hp].
    + unfold exit_status. rewrite Hr. reflexivity.
Qed.

Lemma prompt_accepts_only_y_witness :
  affirmative (lit " Y ") /\
  ~ affirmative (lit "yes") /\
  printed (trace_of (main argv_scenario fs_scenario utf8_console (Line (lit " Y "))))
  = [lit "Successfully matched waivers for 2 out of 2 EYF IDs. Proceed with PDF generation?";
     lit "PDFs to combine:";
     lit "  w/100_Jane Doe_KCS Records Consent_2023.pdf";
     lit "  w/101_John Roe_KCS Records Consent_2023.pdf"] /\
  printed (trace_of (main argv_scenario fs_scenario utf8_console (Line (lit "yes"))))
  = [lit "Successfully matched waivers for 2 out of 2 EYF IDs. Proceed with PDF generation?";
     lit "Operation cancelled."].
Proof.
  assert (Hyes : affirmative (lit " Y ")).
  { exists [32%N], 89%N, [32%N]. repeat split. right. reflexivity. }
  assert (Hno : ~ affirmative (lit "yes")).
  { intros H. apply affirmative_iff in H. vm_compute in H. discriminate. }
  split; [exact Hyes|]. split; [exact Hno|]. split.
  - destruct (@prompt_accepts_only_y fs_scenario utf8_console
                (lit "generate_pdf_request.py")
                (lit "w") (lit "ids.txt") (lit " Y ")
                [lit "100"; lit "101"]
                (List.map fst waivers)
                [(lit "100", [lit "w/100_Jane Doe_KCS Records Consent_2023.pdf"]);
                 (lit "101", [lit "w/101_John Roe_KCS Records Consent_2023.pdf"])]
                eq_refl eq_refl eq_refl eq_refl) as (Ha & _ & _).
    destruct (Ha Hyes) as [_ Hp]. exact Hp.
  - destruct (@prompt_accepts_only_y fs_scenario utf8_console
                (lit "generate_pdf_request.py")
                (lit "w") (lit "ids.txt") (lit "yes")
                [lit "100"; lit "101"]
                (List.map fst waivers)
                [(lit "100", [lit "w/100_Jane Doe_KCS Records Consent_2023.pdf"]);
                 (lit "101", [lit "w/101_John Roe_KCS Records Consent_2023.pdf"])]
                eq_refl eq_refl eq_refl eq_refl) as (_ & Hc & _).
    destruct (Hc Hno) as [_ Hp]. exact Hp.
Defined.

Lemma filter_negb_all {A} (f : A -> bool) (l : list A) :
  forallb f l = true -> filter (fun x => negb (f x)) l = [].
Proof.
  intros H. apply filter_none. intros x Hx.
  rewrite forallb_forall in H. rewrite (H x Hx). reflexivity.
Qed.

Lemma filter_all {A} (f : A -> bool) (l : list A) :
  forallb f l = true -> filter f l = l.
Proof.
  induction l as [|x l IH]; intros H; [reflexivity|].
  simpl in H. apply andb_true_iff in H as [Hx Hl]. simpl. rewrite Hx, (IH Hl). reflexivity.
Qed.

Lemma one_each (found : str -> list str) (eyf_ids : list str) :
  (forall eyf_id, In eyf_id eyf_ids -> length (found eyf_id) = 1) ->
  resolved (List.map (fun eyf_id => (eyf_id, found eyf_id)) eyf_ids)
  = flat_map found eyf_ids /\
  flat_map error_report (List.map (fun eyf_id => (eyf_id, found eyf_id)) eyf_ids) = [] /\
  length (flat_map found eyf_ids) = length eyf_ids.
Proof.
  induction eyf_ids as [|i l IH]; intros H; [repeat split|].
  destruct IH as (IH1 & IH2 & IH3); [intros e He; apply H; right; exact He|].
  pose proof (H i (or_introl eq_refl)) as Hi.
  cbn [List.map flat_map resolved]. fold (resolved (List.map (fun e => (e, found e)) l)).
  rewrite IH1, IH2. unfold error_report. cbn [snd fst].
  destruct (found i) as [|p [|q rest]]; try discriminate.
  cbn [app length]. rewrite IH3. repeat split.
Qed.

(** X7: the clean run.  When the folder is a directory whose regular files
    all follow the naming convention, every identifier is plain and has
    exactly one waiver named for it, the console takes the lines of the
    run and the answer is yes, [main] prints the summary with the full
    count and then the waivers, one per identifier in the order of the
    identifier file, and nothing else. *)
Theorem clean_run_lists_one_waiver_per_identifier
    (fs : filesystem) (out : console) (prog folder_path ids_file answer : str)
    (eyf_ids : list str) :
  result_of (read_eyf_ids_from_file fs ids_file) = inr eyf_ids ->
  stat_is_dir fs (parse_parts folder_path) = true ->
  forallb (re_match regex_pattern) (regular_files fs folder_path) = true ->
  forallb plain_identifier eyf_ids = true ->
  (forall eyf_id, In eyf_id eyf_ids ->
     length (waivers_named_for fs folder_path eyf_id) = 1) ->
  accepts out (summary (length eyf_ids) (length eyf_ids) :: prompt
               :: combined_lines (flat_map (waivers_named_for fs folder_path) eyf_ids))
  = true ->
  affirmative answer ->
  printed (trace_of (main [prog; folder_path; ids_file] fs out (Line answer)))
  = summary (length eyf_ids) (length eyf_ids)
    :: combined_lines (flat_map (waivers_named_for fs folder_path) eyf_ids) /\
  length (flat_map (waivers_named_for fs folder_path) eyf_ids) = length eyf_ids /\
  result_of (main [prog; folder_path; ids_file] fs out (Line answer)) = inr tt.
Proof.
  intros Hread Hdir Hconv Hplain Hone Hacc Hyes.
  assert (Hstat : fs_stat fs (path_str (parse_parts folder_path)) = Some Directory).
  { unfold stat_is_dir in Hdir.
    destruct (fs_stat fs (path_str (parse_parts folder_path))) as [[]|];
      try discriminate; reflexivity. }
  assert (Hval : result_of (validate_file_formats fs folder_path regex_pattern)
                 = inr (regular_files fs folder_path, [])).
  { rewrite (validate_file_formats_dir fs folder_path regex_pattern Hstat).
    cbn [result_of snd]. rewrite filter_negb_all, filter_all by exact Hconv.
    reflexivity. }
  assert (Hget : result_of (get_files_for_eyf_ids fs folder_path eyf_ids)
                 = inr (List.map (fun eyf_id =>
                                    (eyf_id, waivers_named_for fs folder_path eyf_id))
                          eyf_ids)).
  { rewrite (@get_files_for_eyf_ids_eq fs folder_path
               (waivers_named_for fs folder_path) eyf_ids).
    - reflexivity.
    - apply stat_is_dir_exists. exact Hdir.
    - intros eyf_id Hin. apply glob_plain; [|exact Hdir].
      rewrite forallb_forall in Hplain. apply Hplain. exact Hin. }
  destruct (one_each (waivers_named_for fs folder_path) eyf_ids Hone) as (E1 & E2 & E3).
  apply affirmative_iff in Hyes.
  destruct (@main_after_yes fs out prog folder_path ids_file answer eyf_ids _ _
              Hread Hval Hget) as [Hr Hp]; [|exact Hyes|].
  - rewrite E1, E2, E3. exact Hacc.
  - rewrite E1, E2, E3 in Hp. split; [exact Hp|]. split; [exact E3 | exact Hr].
Qed.

Lemma clean_run_lists_one_waiver_per_identifier_witness :
  printed (trace_of (main argv_scenario fs_scenario utf8_console (Line (lit "y"))))
  = summary 2 2
    :: combined_lines [lit "w/100_Jane Doe_KCS Records Consent_2023.pdf";
                       lit "w/101_John Roe_KCS Records Consent_2023.pdf"].
Proof.
  assert (Hyes : affirmative (lit "y")).
  { exists [], 121%N, []. repeat split. left. reflexivity. }
  assert (Hone : forall eyf_id, In eyf_id [lit "100"; lit "101"] ->
                   length (waivers_named_for fs_scenario (lit "w") eyf_id) = 1).
  { intros eyf_id [<-|[<-|[]]]; reflexivity. }
  destruct (@clean_run_lists_one_waiver_per_identifier fs_scenario utf8_console
              (lit "generate_pdf_request.py") (lit "w") (lit "ids.txt") (lit "y")
              [lit "100"; lit "101"] eq_refl eq_refl eq_refl eq_refl Hone eq_refl Hyes)
    as (Hp & _ & _).
  exact Hp.
Defined.

(** ** The underscore after the identifier *)

Lemma first_underscore (a b x y : str) :
  mem 95 a = false -> mem 95 b = false ->
  a ++ 95%N :: x = b ++ 95%N :: y -> a = b.
Proof.
  revert b. induction a as [|c a IH]; intros [|d b] Ha Hb E.
  - reflexivity.
  - injection E as <- _. discriminate.
  - injection E as -> _. discriminate.
  - injection E as -> E. unfold mem in Ha, Hb. cbn [existsb] in Ha, Hb.
    apply orb_false_iff in Ha as [_ Ha]. apply orb_false_iff in Hb as [_ Hb].
    f_equal. exact (IH b Ha Hb E).
Qed.

Lemma digits_without_underscore (ds : str) :
  forallb is_digit ds = true -> mem 95 ds = false /\ forallb plain_char ds = true.
Proof.
  induction ds as [|d ds IH]; intros H; [split; reflexivity|].
  simpl in H. apply andb_true_iff in H as [Hd Hds]. destruct (IH Hds) as [IH1 IH2].
  unfold is_digit in Hd. apply andb_true_iff in Hd as [H1 H2].
  apply N.leb_le in H1, H2.
  split.
  - unfold mem. cbn [existsb]. fold (mem 95 ds). rewrite IH1, orb_false_r.
    apply N.eqb_neq. lia.
  - cbn [forallb]. rewrite IH2, andb_true_r. apply plain_char_iff. lia.
Qed.

Lemma leading_number_digits (ds rest : str) :
  forallb is_digit ds = true -> leading_number (ds ++ 95%N :: rest) = ds.
Proof.
  induction ds as [|d ds IH]; intros H; [reflexivity|].
  simpl in H. apply andb_true_iff in H as [Hd Hds].
  cbn [app leading_number]. rewrite Hd, (IH Hds). reflexivity.
Qed.

(** X8: no waiver is claimed twice.  Two plain identifiers without an
    underscore whose patterns both match one name are the same identifier:
    the underscore the pattern puts after the identifier keeps [1] from
    matching the waivers of [12]. *)
Theorem one_identifier_per_waiver (id1 id2 name : str) :
  plain_identifier id1 = true -> plain_identifier id2 = true ->
  mem 95 id1 = false -> mem 95 id2 = false ->
  fnmatch (id1 ++ lit "_*.pdf") name = true ->
  fnmatch (id2 ++ lit "_*.pdf") name = true ->
  id1 = id2.
Proof.
  intros P1 P2 U1 U2 M1 M2.
  rewrite fnmatch_plain in M1 by exact P1. rewrite fnmatch_plain in M2 by exact P2.
  apply named_for_iff in M1 as [m1 E1]. apply named_for_iff in M2 as [m2 E2].
  rewrite E1 in E2. exact (@first_underscore id1 id2 _ _ U1 U2 E2).
Qed.

Lemma one_identifier_per_waiver_witness :
  fnmatch (lit "12_*.pdf") (lit "12_Jane Doe_KCS Records Consent_2023.pdf") = true /\
  fnmatch (lit "1_*.pdf") (lit "12_Jane Doe_KCS Records Consent_2023.pdf") = false /\
  lit "12" = lit "12".
Proof.
  split; [reflexivity|]. split; [reflexivity|].
  exact (@one_identifier_per_waiver (lit "12") (lit "12")
           (lit "12_Jane Doe_KCS Records Consent_2023.pdf")
           eq_refl eq_refl eq_refl eq_refl eq_refl eq_refl).
Defined.

(** X9: a waiver the validator accepts is found by its number only.  For a
    name that matches the naming pattern and a plain identifier without an
    underscore, the matcher's pattern matches exactly when the identifier
    is the run of digits that opens the name and the name ends with
    [.pdf]; that run is never empty, so a blank identifier finds none of
    the accepted waivers. *)
Theorem accepted_waiver_found_by_its_number (eyf_id name : str) :
  re_match regex_pattern name = true ->
  plain_identifier eyf_id = true ->
  mem 95 eyf_id = false ->
  (fnmatch (eyf_id ++ lit "_*.pdf") name = true <->
   eyf_id = leading_number name /\ endswith (lit ".pdf") name = true) /\
  leading_number name <> [].
Proof.
  intros Hm Hp Hu.
  apply re_match_iff, regex_pattern_conforming in Hm.
  destruct Hm as (ds & nm & rest & tail & -> & Hds & Hdig & _).
  cbn [lit app] in *. unfold lit at 1. cbn [String.list_ascii_of_string List.map].
  change (lit "_") with [95%N]. cbn [app].
  rewrite (leading_number_digits ds _ Hdig).
  split; [|exact Hds].
  rewrite fnmatch_plain by exact Hp. unfold named_for.
  rewrite andb_true_iff, startswith_iff. split.
  - intros [[r E] He]. split; [|exact He].
    symmetry. rewrite <- app_assoc in E. cbn [app] in E.
    refine (@first_underscore ds eyf_id _ r _ Hu E).
    apply digits_without_underscore. exact Hdig.
  - intros [-> He]. split; [|exact He].
    eexists. rewrite <- app_assoc. reflexivity.
Qed.

Lemma accepted_waiver_found_by_its_number_witness :
  (fnmatch (lit "1_*.pdf") (lit "12_Jane Doe_KCS Records Consent_2023.pdf") = true <->
   lit "1" = leading_number (lit "12_Jane Doe_KCS Records Consent_2023.pdf") /\
   endswith (lit ".pdf") (lit "12_Jane Doe_KCS Records Consent_2023.pdf") = true) /\
  leading_number (lit "12_Jane Doe_KCS Records Consent_2023.pdf") <> [].
Proof.
  exact (@accepted_waiver_found_by_its_number (lit "1")
           (lit "12_Jane Doe_KCS Records Consent_2023.pdf") eq_refl eq_refl eq_refl).
Defined.

(** ** Line endings of the identifier file *)

Lemma universal_newlines_to_crlf (text : str) :
  mem 13 text = false ->
  universal_newlines (to_crlf text) = text /\ universal_newlines text = text.
Proof.
  induction text as [|c text IH]; intros H; [split; reflexivity|].
  unfold mem in H. cbn [existsb] in H. apply orb_false_iff in H as [Hc H].
  destruct (IH H) as [IH1 IH2]. rewrite N.eqb_sym in Hc.
  unfold to_crlf. cbn [flat_map]. fold (to_crlf text).
  destruct (N.eqb c newline) eqn:En.
  - apply N.eqb_eq in En. subst c. split.
    + cbn [app universal_newlines]. change (N.eqb 13 13) with true.
      change (N.eqb newline newline) with true. cbn iota. rewrite IH1. reflexivity.
    + cbn [universal_newlines]. rewrite Hc, IH2. reflexivity.
  - split.
    + cbn [app universal_newlines]. rewrite Hc, IH1. reflexivity.
    + cbn [universal_newlines]. rewrite Hc, IH2. reflexivity.
Qed.

(** X10: Windows line endings change nothing.  For a text without
    carriage returns, the loader returns the same identifiers from the
    text and from the text with every newline written as carriage return
    and newline. *)
Theorem loader_ignores_crlf
    (fs1 fs2 : filesystem) (file1 file2 content : str) :
  fs_open fs1 file1 = Text content ->
  fs_open fs2 file2 = Text (to_crlf content) ->
  mem 13 content = false ->
  result_of (read_eyf_ids_from_file fs2 file2)
  = result_of (read_eyf_ids_from_file fs1 file1).
Proof.
  intros H1 H2 Hcr.
  rewrite (read_eyf_ids_from_file_eq fs1 file1 H1).
  rewrite (read_eyf_ids_from_file_eq fs2 file2 H2).
  destruct (universal_newlines_to_crlf content Hcr) as [E1 E2].
  cbn [result_of snd]. rewrite E1, E2. reflexivity.
Qed.

Lemma loader_ignores_crlf_witness :
  fs_open fs_scenario_crlf (lit "ids.txt")
  = Text [49; 48; 48; 13; 10; 49; 48; 49; 13; 10]%N /\
  result_of (read_eyf_ids_from_file fs_scenario_crlf (lit "ids.txt"))
  = inr [lit "100"; lit "101"].
Proof.
  split; [reflexivity|].
  rewrite (@loader_ignores_crlf fs_scenario fs_scenario_crlf (lit "ids.txt") (lit "ids.txt")
             (lit "100" ++ nl ++ lit "101" ++ nl) eq_refl eq_refl eq_refl).
  reflexivity.
Defined.

Lemma lstrip_app (x y : str) :
  lstrip (x ++ y) = if nilb (lstrip x) then lstrip y else lstrip x ++ y.
Proof.
  induction x as [|c x IH]; [reflexivity|].
  cbn [app lstrip]. destruct (isspace c); [exact IH | reflexivity].
Qed.

Lemma strip_app_space (x post : str) :
  forallb isspace post = true -> strip (x ++ post) = strip x.
Proof.
  intros Hpost. unfold strip, rstrip. rewrite lstrip_app.
  destruct (lstrip x) as [|c r] eqn:E.
  - cbn [nilb]. rewrite (lstrip_all_space post Hpost). reflexivity.
  - cbn [nilb]. rewrite rev_app_distr.
    rewrite lstrip_app_space by (rewrite forallb_rev; exact Hpost). reflexivity.
Qed.

Lemma universal_newlines_final (n : nat) : forall s : str,
  length s <= n -> s <> [] -> last s 0%N <> newline -> last s 0%N <> 13%N ->
  universal_newlines (s ++ nl) = universal_newlines s ++ nl /\
  universal_newlines s <> [] /\
  last (universal_newlines s) 0%N <> newline.
Proof.
  induction n as [|n IH]; intros s Hn Hne Hl Hcr.
  - destruct s; [congruence | simpl in Hn; lia].
  - destruct s as [|c rest]; [congruence|].
    cbn [length] in Hn.
    destruct rest as [|d rest'].
    + cbn [last] in Hl, Hcr. apply N.eqb_neq in Hcr.
      cbn [app universal_newlines]. rewrite Hcr.
      change (nl) with [newline]. cbn [universal_newlines].
      change (N.eqb newline 13) with false.
      split; [reflexivity|]. split; [discriminate | exact Hl].
    + assert (Hrest : last (c :: d :: rest') 0%N = last (d :: rest') 0%N) by reflexivity.
      rewrite Hrest in Hl, Hcr.
      destruct (N.eqb c 13) eqn:Ec.
      * destruct (N.eqb d newline) eqn:Ed.
        -- destruct rest' as [|x rest''].
           ++ apply N.eqb_eq in Ed. cbn [last] in Hl. congruence.
           ++ assert (Hr2 : last (d :: x :: rest'') 0%N = last (x :: rest'') 0%N)
                by reflexivity.
              rewrite Hr2 in Hl, Hcr.
              destruct (IH (x :: rest'')) as (E1 & E2 & E3);
                [cbn [length] in *; lia | discriminate | exact Hl | exact Hcr |].
              change ((c :: d :: x :: rest'') ++ nl) with (c :: d :: (x :: rest'') ++ nl).
              remember (x :: rest'') as r eqn:Er.
              assert (Hu : universal_newlines (c :: d :: r)
                           = newline :: universal_newlines r).
              { cbn [universal_newlines]. rewrite Ec, Ed. reflexivity. }
              assert (Hu' : universal_newlines (c :: d :: r ++ nl)
                            = newline :: universal_newlines (r ++ nl)).
              { cbn [universal_newlines]. rewrite Ec, Ed. reflexivity. }
              rewrite Hu, Hu', E1.
              split; [reflexivity|]. split; [discriminate|].
              destruct (universal_newlines r) as [|y u]; [congruence|]. exact E3.
        -- destruct (IH (d :: rest')) as (E1 & E2 & E3);
             [cbn [length] in *; lia | discriminate | exact Hl | exact Hcr |].
           change ((c :: d :: rest') ++ nl) with (c :: (d :: rest') ++ nl).
           remember (d :: rest') as r eqn:Er.
           assert (Hu : universal_newlines (c :: r) = newline :: universal_newlines r).
           { subst r. cbn [universal_newlines]. rewrite Ec, Ed. reflexivity. }
           assert (Hu' : universal_newlines (c :: r ++ nl)
                         = newline :: universal_newlines (r ++ nl)).
           { subst r. cbn [app universal_newlines]. rewrite Ec, Ed. reflexivity. }
           rewrite Hu, Hu', E1.
           split; [reflexivity|]. split; [discriminate|].
           destruct (universal_newlines r) as [|y u]; [congruence|]. exact E3.
      * destruct (IH (d :: rest')) as (E1 & E2 & E3);
          [cbn [length] in *; lia | discriminate | exact Hl | exact Hcr |].
        change ((c :: d :: rest') ++ nl) with (c :: (d :: rest') ++ nl).
        remember (d :: rest') as r eqn:Er.
        cbn [universal_newlines]. rewrite Ec, E1.
        split; [reflexivity|]. split; [discriminate|].
        destruct (universal_newlines r) as [|y u]; [congruence|]. exact E3.
Qed.

Lemma lines_from_final (s : str) : forall cur,
  (s = [] -> cur <> []) -> (s <> [] -> last s 0%N <> newline) ->
  List.map strip (lines_from cur (s ++ nl)) = List.map strip (lines_from cur s).
Proof.
  induction s as [|c s IH]; intros cur Hcur Hlast.
  - specialize (Hcur eq_refl). destruct cur as [|x cur]; [congruence|].
    cbn [app nl lines_from nilb]. change (nl) with [newline].
    cbn [lines_from]. change (N.eqb newline newline) with true.
    cbn [lines_from nilb List.map]. f_equal.
    change (rev (newline :: x :: cur)) with (rev (x :: cur) ++ [newline]).
    apply strip_app_space. reflexivity.
  - cbn [app lines_from]. destruct (N.eqb c newline) eqn:Ec.
    + cbn [List.map]. f_equal. apply IH.
      * intros ->. apply N.eqb_eq in Ec. subst c.
        exfalso. apply Hlast; [discriminate | reflexivity].
      * intros Hs. destruct s as [|d s]; [congruence|].
        apply (Hlast ltac:(discriminate)).
    + apply IH.
      * intros _. discriminate.
      * intros Hs. destruct s as [|d s]; [congruence|].
        apply (Hlast ltac:(discriminate)).
Qed.

(** X11: the newline after the last identifier is optional.  For a text
    that is not empty and does not end with a newline or a carriage
    return, the loader returns the same identifiers with and without a
    final newline added. *)
Theorem loader_final_newline_optional
    (fs1 fs2 : filesystem) (file1 file2 content : str) :
  fs_open fs1 file1 = Text content ->
  fs_open fs2 file2 = Text (content ++ nl) ->
  content <> [] -> last content 0%N <> newline -> last content 0%N <> 13%N ->
  result_of (read_eyf_ids_from_file fs2 file2)
  = result_of (read_eyf_ids_from_file fs1 file1).
Proof.
  intros H1 H2 Hne Hl Hcr.
  rewrite (read_eyf_ids_from_file_eq fs1 file1 H1).
  rewrite (read_eyf_ids_from_file_eq fs2 file2 H2).
  destruct (@universal_newlines_final (length content) content (le_n _) Hne Hl Hcr)
    as (E1 & E2 & E3).
  cbn [result_of snd]. rewrite E1. unfold lines. f_equal.
  apply lines_from_final; [intros E; congruence | intros _; exact E3].
Qed.

Lemma loader_final_newline_optional_witness :
  result_of (read_eyf_ids_from_file fs_scenario (lit "ids.txt"))
  = result_of (read_eyf_ids_from_file fs_scenario_open_end (lit "ids.txt")).
Proof.
  refine (@loader_final_newline_optional fs_scenario_open_end fs_scenario
            (lit "ids.txt") (lit "ids.txt") (lit "100" ++ nl ++ lit "101")
            eq_refl eq_refl _ _ _); vm_compute; discriminate.
Defined.

Lemma universal_newlines_no_cr (n : nat) : forall s : str,
  length s <= n -> ~ In 13%N (universal_newlines s).
Proof.
  induction n as [|n IH]; intros s Hn.
  - destruct s; [intros [] | simpl in Hn; lia].
  - destruct s as [|c rest]; [intros []|].
    cbn [length] in Hn. cbn [universal_newlines].
    destruct (N.eqb c 13) eqn:Ec.
    + destruct rest as [|d rest'].
      * intros [H|[]]. discriminate.
      * destruct (N.eqb d newline).
        -- intros [H|H]; [discriminate|].
           apply (IH rest'); [cbn [length] in Hn; lia | exact H].
        -- intros [H|H]; [discriminate|].
           apply (IH (d :: rest')); [cbn [length] in *; lia | exact H].
    + intros [H|H].
      * apply N.eqb_neq in Ec. congruence.
      * apply (IH rest); [lia | exact H].
Qed.

Lemma lines_from_chars (s : str) : forall cur line,
  ~ In newline cur ->
  In line (lines_from cur s) ->
  exists body, (line = body \/ line = body ++ nl) /\
               ~ In newline body /\
               forall c, In c body -> In c cur \/ In c s.
Proof.
  induction s as [|c s IH]; intros cur line Hcur Hin.
  - cbn [lines_from] in Hin. destruct (nilb cur); [contradiction|].
    destruct Hin as [<-|[]]. exists (rev cur). split; [left; reflexivity|].
    split.
    + intros H. apply in_rev in H. exact (Hcur H).
    + intros x Hx. left. apply in_rev. exact Hx.
  - cbn [lines_from] in Hin. destruct (N.eqb c newline) eqn:Ec.
    + destruct Hin as [<-|Hin].
      * exists (rev cur). split; [right; apply N.eqb_eq in Ec; subst c; reflexivity|].
        split.
        -- intros H. apply in_rev in H. exact (Hcur H).
        -- intros x Hx. left. apply in_rev. exact Hx.
      * destruct (IH [] line (fun H => H) Hin) as (body & Hb & Hn & Hc).
        exists body. split; [exact Hb|]. split; [exact Hn|].
        intros x Hx. destruct (Hc x Hx) as [[]|H]. right. right. exact H.
    + apply N.eqb_neq in Ec.
      destruct (IH (c :: cur) line) as (body & Hb & Hn & Hc); [|exact Hin|].
      * intros [H|H]; [congruence | exact (Hcur H)].
      * exists body. split; [exact Hb|]. split; [exact Hn|].
        intros x Hx. destruct (Hc x Hx) as [[<-|H]|H].
        -- right. left. reflexivity.
        -- left. exact H.
        -- right. right. exact H.
Qed.

Lemma strip_chars (s : str) (c : N) : In c (strip s) -> In c s.
Proof.
  intros H. destruct (strip_decompose s) as (pre & post & E & _).
  rewrite E. apply in_or_app. right. apply in_or_app. left. exact H.
Qed.

(** X12: no identifier holds a line break.  Whatever the text of the
    identifier file, no identifier the loader returns contains a newline
    or a carriage return, so each one stays on one line of the report and
    of the pattern given to the matcher. *)
Theorem identifiers_hold_no_line_break
    (fs : filesystem) (ids_file : str) (eyf_ids : list str) :
  result_of (read_eyf_ids_from_file fs ids_file) = inr eyf_ids ->
  forall eyf_id, In eyf_id eyf_ids ->
    ~ In newline eyf_id /\ ~ In 13%N eyf_id.
Proof.
  intros Hread eyf_id Hin.
  unfold read_eyf_ids_from_file, open_text in Hread.
  rewrite result_of_bind in Hread. rewrite result_of_bind in Hread.
  cbn [emit result_of snd] in Hread.
  destruct (fs_open fs ids_file) as [content|e|msg]; try discriminate.
  cbn [ret result_of snd] in Hread. injection Hread as <-.
  apply in_map_iff in Hin as (line & <- & Hline).
  destruct (@lines_from_chars (universal_newlines content) [] line (fun H => H) Hline)
    as (body & Hb & Hn & Hc).
  assert (Es : strip line = strip body).
  { destruct Hb as [->| ->]; [reflexivity | apply strip_app_space; reflexivity]. }
  rewrite Es. split.
  - intros H. apply Hn. apply strip_chars. exact H.
  - intros H. apply strip_chars in H. destruct (Hc _ H) as [[]|H'].
    exact (@universal_newlines_no_cr (length content) content (le_n _) H').
Qed.

Lemma identifiers_hold_no_line_break_witness :
  ~ In newline (lit "101") /\ ~ In 13%N (lit "101").
Proof.
  refine (@identifiers_hold_no_line_break fs_scenario_crlf (lit "ids.txt")
            [lit "100"; lit "101"] eq_refl (lit "101") _).
  right. left. reflexivity.
Defined.

(** ** The ways [main] ends *)

(** X13: the ways [main] can end.  It returns, or leaves through
    [sys.exit] with 0 or with 1, or lets through the failure of the
    identifier loader, an interrupt from the keyboard at the prompt, or the
    failure of a [print] outside the [try] (the usage, the handler's
    line) on a console that cannot encode it.  So the status of the
    process is 0 or 1 unless the prompt is interrupted, and 130 then. *)
Theorem ways_main_can_end
    (argv : list str) (fs : filesystem) (out : console) (stdin : stdin_state) :
  (result_of (main argv fs out stdin) = inr tt \/
   result_of (main argv fs out stdin) = inl (SystemExit 0) \/
   result_of (main argv fs out stdin) = inl (SystemExit 1) \/
   (exists e, length argv = 3 /\
              result_of (read_eyf_ids_from_file fs (nth 2 argv [])) = inl e /\
              is_Exception e = true /\
              result_of (main argv fs out stdin) = inl e) \/
   (stdin = Interrupted /\
    result_of (main argv fs out stdin) = inl KeyboardInterrupt) \/
   (exists line msg, out line = Some msg /\
                     result_of (main argv fs out stdin)
                     = inl (UnicodeEncodeError msg))) /\
  (exit_status (main argv fs out stdin) = 0 \/
   exit_status (main argv fs out stdin) = 1 \/
   stdin = Interrupted /\ exit_status (main argv fs out stdin) = 130).
Proof.
  assert (Hways :
            result_of (main argv fs out stdin) = inr tt \/
            result_of (main argv fs out stdin) = inl (SystemExit 0) \/
            result_of (main argv fs out stdin) = inl (SystemExit 1) \/
            (exists e, length argv = 3 /\
                       result_of (read_eyf_ids_from_file fs (nth 2 argv [])) = inl e /\
                       is_Exception e = true /\
                       result_of (main argv fs out stdin) = inl e) \/
            (stdin = Interrupted /\
             result_of (main argv fs out stdin) = inl KeyboardInterrupt) \/
            (exists line msg, out line = Some msg /\
                              result_of (main argv fs out stdin)
                              = inl (UnicodeEncodeError msg))).
  { destruct (Nat.eq_dec (length argv) 3) as [H3|H3].
    2:{ rewrite (@main_usage argv fs out stdin H3). unfold printing.
        cbn [result_of snd].
        destruct (rejection out usage) as [e|] eqn:E;
          [|right; right; left; reflexivity].
        destruct (@rejection_exception out usage e E) as (line & msg & _ & Hl & ->).
        do 5 right. exists line, msg. split; [exact Hl | reflexivity]. }
    rewrite (@main_three argv fs out stdin H3), result_of_bind.
    destruct (result_of (read_eyf_ids_from_file fs (nth 2 argv []))) as [e|eyf_ids] eqn:Rr.
    { right. right. right. left. exists e. repeat split; try assumption.
      exact (@roe_read_eyf_ids_from_file fs (nth 2 argv []) e Rr). }
    rewrite result_of_try_except.
    pose proof (body_exit_one fs out stdin (nth 1 argv []) eyf_ids) as Hone.
    pose proof (surjective_M
                  (validate_file_formats fs (nth 1 argv []) regex_pattern)) as Ev.
    destruct (result_of (main_try_body fs out stdin (nth 1 argv []) eyf_ids))
      as [e|[]] eqn:Rb; [|left; reflexivity].
    destruct (is_Exception e) eqn:Ie.
    - unfold print.
      destruct (out (lit "Unexpected Error: " ++ str_of_exn e)) as [msg|] eqn:Eo.
      + do 5 right. exists (lit "Unexpected Error: " ++ str_of_exn e), msg.
        split; [exact Eo | reflexivity].
      + left. reflexivity.
    - destruct (result_of (validate_file_formats fs (nth 1 argv []) regex_pattern))
        as [e'|[valid_files invalid_files]] eqn:Rv.
      + rewrite (@body_validator_fails fs out stdin (nth 1 argv []) eyf_ids _ _ Ev) in Rb.
        cbn [result_of snd] in Rb. injection Rb as <-.
        pose proof (@roe_validate_file_formats fs (nth 1 argv []) regex_pattern _ Rv).
        congruence.
      + destruct invalid_files as [|x l].
        * destruct (@body_clean_result fs out stdin (nth 1 argv []) eyf_ids _ _ Ev)
            as [H'|[H'|[[H' Hs]|(e' & H' & He')]]]; rewrite H' in Rb;
            try discriminate; injection Rb as <-.
          -- right. left. reflexivity.
          -- do 4 right. left. split; [exact Hs | reflexivity].
          -- congruence.
        * rewrite (@body_violation fs out stdin (nth 1 argv []) eyf_ids _ _ (x :: l) Ev)
            in Rb by discriminate.
          cbn [result_of snd] in Rb.
          destruct (rejection out (violation_header :: x :: l)) as [e'|] eqn:Er.
          -- destruct (@rejection_exception out _ e' Er) as (line & msg & _ & _ & ->).
             injection Rb as <-. discriminate.
          -- injection Rb as <-. right. right. left. reflexivity. }
  split; [exact Hways|].
  unfold exit_status.
  destruct Hways as [H|[H|[H|[(e & _ & _ & He & H)|[[Hs H]|(line & msg & _ & H)]]]]];
    rewrite H; auto.
  right. left. destruct e; try discriminate; reflexivity.
Qed.

(** X14: matching waits for a clean folder.  If [main] searched for
    anything at all, it had its two arguments, the identifier file had
    been loaded, and the validator had returned without a single name
    breaking the convention: after a missing folder, an unreadable folder
    or a violation, no search is made. *)
Theorem matcher_runs_only_after_clean_validation
    (argv : list str) (fs : filesystem) (out : console) (stdin : stdin_state) :
  globbed (trace_of (main argv fs out stdin)) <> [] ->
  length argv = 3 /\
  exists eyf_ids valid_files,
    result_of (read_eyf_ids_from_file fs (nth 2 argv [])) = inr eyf_ids /\
    result_of (validate_file_formats fs (nth 1 argv []) regex_pattern)
    = inr (valid_files, []).
Proof.
  intros Hg.
  assert (Hprint : forall e : exn,
             globbed (trace_of (print out (lit "Unexpected Error: " ++ str_of_exn e)))
             = []).
  { intros e. unfold print.
    destruct (out (lit "Unexpected Error: " ++ str_of_exn e)); reflexivity. }
  destruct (Nat.eq_dec (length argv) 3) as [H3|H3].
  2: { exfalso. apply Hg. rewrite (@main_usage argv fs out stdin H3).
       apply printed_printing. }
  split; [exact H3|].
  rewrite (@main_three argv fs out stdin H3), trace_of_bind in Hg.
  rewrite read_eyf_ids_from_file_trace in Hg.
  destruct (result_of (read_eyf_ids_from_file fs (nth 2 argv []))) as [e|eyf_ids] eqn:Rr.
  { exfalso. apply Hg. reflexivity. }
  exists eyf_ids.
  rewrite trace_of_try_except in Hg.
  destruct (validate_file_formats_quiet fs (nth 1 argv []) regex_pattern) as [_ Hq].
  pose proof (surjective_M (validate_file_formats fs (nth 1 argv []) regex_pattern)) as Ev.
  destruct (result_of (validate_file_formats fs (nth 1 argv []) regex_pattern))
    as [e|[valid_files invalid_files]] eqn:Rv.
  - exfalso. apply Hg.
    rewrite (@body_validator_fails fs out stdin (nth 1 argv []) eyf_ids _ _ Ev).
    cbn [trace_of result_of fst snd].
    rewrite (@roe_validate_file_formats fs (nth 1 argv []) regex_pattern _ Rv).
    rewrite !globbed_app, Hq, Hprint. reflexivity.
  - destruct invalid_files as [|x l].
    + exists valid_files. split; reflexivity.
    + exfalso. apply Hg.
      rewrite (@body_violation fs out stdin (nth 1 argv []) eyf_ids _ _ (x :: l) Ev)
        by discriminate.
      cbn [trace_of result_of fst snd].
      rewrite !globbed_app, Hq, globbed_prints.
      destruct (rejection out (violation_header :: x :: l)) as [e|];
        [destruct (is_Exception e); [rewrite Hprint|]|]; reflexivity.
Qed.

Lemma matcher_runs_only_after_clean_validation_witness :
  globbed (trace_of (main argv_scenario fs_scenario utf8_console (Line (lit "n"))))
  = [lit "100_*.pdf"; lit "101_*.pdf"] /\
  exists eyf_ids valid_files,
    result_of (read_eyf_ids_from_file fs_scenario (lit "ids.txt")) = inr eyf_ids /\
    result_of (validate_file_formats fs_scenario (lit "w") regex_pattern)
    = inr (valid_files, []).
Proof.
  split; [reflexivity|].
  refine (proj2 (@matcher_runs_only_after_clean_validation argv_scenario fs_scenario
                   utf8_console (Line (lit "n")) _)).
  vm_compute. discriminate.
Defined.

(** X15: a run without a terminal.  When the summary is reached and the
    standard input is at its end, the prompt raises [EOFError] inside the
    [try]; when there is no standard input at all, [input] raises
    [RuntimeError] before it shows the prompt.  Either way the handler
    prints the failure as an unexpected error on a console that takes the
    lines, nothing is listed for combination, and [main] returns with
    status 0. *)
Theorem prompt_without_an_answer
    (fs : filesystem) (out : console) (prog folder_path ids_file : str)
    (eyf_ids valid_files : list str) (results : list (str * list str)) :
  result_of (read_eyf_ids_from_file fs ids_file) = inr eyf_ids ->
  result_of (validate_file_formats fs folder_path regex_pattern)
  = inr (valid_files, []) ->
  result_of (get_files_for_eyf_ids fs folder_path eyf_ids) = inr results ->
  accepts out (flat_map error_report results
               ++ [summary (length (resolved results)) (length eyf_ids); prompt;
                   lit "Unexpected Error: EOF when reading a line";
                   lit "Unexpected Error: input(): lost sys.stdin"]) = true ->
  (result_of (main [prog; folder_path; ids_file] fs out EndOfInput) = inr tt /\
   printed (trace_of (main [prog; folder_path; ids_file] fs out EndOfInput))
   = flat_map error_report results
     ++ [summary (length (resolved results)) (length eyf_ids);
         lit "Unexpected Error: EOF when reading a line"] /\
   exit_status (main [prog; folder_path; ids_file] fs out EndOfInput) = 0) /\
  (result_of (main [prog; folder_path; ids_file] fs out Lost) = inr tt /\
   printed (trace_of (main [prog; folder_path; ids_file] fs out Lost))
   = flat_map error_report results
     ++ [summary (length (resolved results)) (length eyf_ids);
         lit "Unexpected Error: input(): lost sys.stdin"] /\
   exit_status (main [prog; folder_path; ids_file] fs out Lost) = 0).
Proof.
  intros Hread Hval Hget Hacc.
  rewrite accepts_app in Hacc. apply andb_true_iff in Hacc as [Hrep Hrest].
  apply accepts_cons in Hrest as [Hsum Hrest].
  apply accepts_cons in Hrest as [Hprompt Hrest].
  apply accepts_cons in Hrest as [Heof Hrest].
  apply accepts_cons in Hrest as [Hlost _].
  assert (Hacc : accepts out (flat_map error_report results
                              ++ [summary (length (resolved results)) (length eyf_ids)])
                 = true).
  { rewrite accepts_app, Hrep. apply accepts_cons. split; [exact Hsum | reflexivity]. }
  split.
  - destruct (@main_at_prompt fs out EndOfInput prog folder_path ids_file eyf_ids
                valid_files results Hread Hval Hget Hacc) as (before & Hp & _ & E).
    rewrite E, confirmation_eq, Hprompt.
    cbn [bind emit raise try_except is_Exception app]. unfold print.
    change (lit "Unexpected Error: " ++ str_of_exn EOFError)
      with (lit "Unexpected Error: EOF when reading a line").
    rewrite Heof. cbn [emit trace_of result_of fst snd exit_status].
    split; [reflexivity|]. split; [|reflexivity].
    rewrite printed_app, Hp, <- app_assoc. reflexivity.
  - destruct (@main_at_prompt fs out Lost prog folder_path ids_file eyf_ids
                valid_files results Hread Hval Hget Hacc) as (before & Hp & _ & E).
    rewrite E, confirmation_eq.
    cbn [bind emit raise try_except is_Exception app]. unfold print.
    change (lit "Unexpected Error: "
            ++ str_of_exn (RuntimeError (lit "input(): lost sys.stdin")))
      with (lit "Unexpected Error: input(): lost sys.stdin").
    rewrite Hlost. cbn [emit trace_of result_of fst snd exit_status].
    split; [reflexivity|]. split; [|reflexivity].
    rewrite printed_app, Hp, <- app_assoc. reflexivity.
Qed.

Lemma prompt_without_an_answer_witness :
  printed (trace_of (main argv_scenario fs_scenario utf8_console EndOfInput))
  = [lit "Successfully matched waivers for 2 out of 2 EYF IDs. Proceed with PDF generation?";
     lit "Unexpected Error: EOF when reading a line"] /\
  printed (trace_of (main argv_scenario fs_scenario utf8_console Lost))
  = [lit "Successfully matched waivers for 2 out of 2 EYF IDs. Proceed with PDF generation?";
     lit "Unexpected Error: input(): lost sys.stdin"] /\
  exit_status (main argv_scenario fs_scenario utf8_console Lost) = 0.
Proof.
  destruct (@prompt_without_an_answer fs_scenario utf8_console
              (lit "generate_pdf_request.py")
              (lit "w") (lit "ids.txt")
              [lit "100"; lit "101"]
              (List.map fst waivers)
              [(lit "100", [lit "w/100_Jane Doe_KCS Records Consent_2023.pdf"]);
               (lit "101", [lit "w/101_John Roe_KCS Records Consent_2023.pdf"])]
              eq_refl eq_refl eq_refl eq_refl) as ((_ & Hp & _) & (_ & Hl & Hs)).
  split; [exact Hp|]. split; [exact Hl | exact Hs].
Defined.

(** X16: the summary agrees with the report.  Whenever [main] reaches the
    summary and the console takes the reports and the summary, the first
    count is the number of resolved identifiers and the second the number
    of identifiers loaded; the first never exceeds the second, and they
    are equal exactly when no error report was printed before the
    summary. *)
Theorem summary_agrees_with_the_report
    (fs : filesystem) (out : console) (stdin : stdin_state)
    (prog folder_path ids_file : str)
    (eyf_ids valid_files : list str) (results : list (str * list str)) :
  result_of (read_eyf_ids_from_file fs ids_file) = inr eyf_ids ->
  result_of (validate_file_formats fs folder_path regex_pattern)
  = inr (valid_files, []) ->
  result_of (get_files_for_eyf_ids fs folder_path eyf_ids) = inr results ->
  accepts out (flat_map error_report results
               ++ [summary (length (resolved results)) (length eyf_ids)]) = true ->
  (exists rest,
      printed (trace_of (main [prog; folder_path; ids_file] fs out stdin))
      = flat_map error_report results
        ++ summary (length (resolved results)) (length eyf_ids) :: rest) /\
  length (resolved results) <= length eyf_ids /\
  (length (resolved results) = length eyf_ids <-> flat_map error_report results = []).
Proof.
  intros Hread Hval Hget Hacc.
  destruct (@main_at_prompt fs out stdin prog folder_path ids_file eyf_ids
              valid_files results Hread Hval Hget Hacc) as (before & Hp & _ & E).
  split.
  { rewrite E, trace_of_bind. cbn [trace_of result_of fst snd].
    rewrite printed_app, Hp, <- app_assoc. eexists. reflexivity. }
  assert (Hlen : length results = length eyf_ids).
  { pose proof (get_files_for_eyf_ids_returns fs folder_path eyf_ids Hget) as Eg.
    rewrite Eg in Hget. cbn [result_of snd] in Hget. injection Hget as <-.
    apply length_map. }
  pose proof (resolved_unresolved_length results) as H1.
  pose proof (error_headers_count results) as H2.
  split; [lia|]. split.
  - intros Hall. apply no_report_when_resolved.
    destruct (unresolved results); [reflexivity|]. simpl in H1. lia.
  - intros Hnone. rewrite Hnone in H2. cbn in H2. lia.
Qed.

Lemma summary_agrees_with_the_report_witness :
  (exists rest,
      printed (trace_of (main argv_scenario fs_scenario utf8_console (Line (lit "n"))))
      = summary 2 2 :: rest) /\
  2 <= 2.
Proof.
  destruct (@summary_agrees_with_the_report fs_scenario utf8_console (Line (lit "n"))
              (lit "generate_pdf_request.py") (lit "w") (lit "ids.txt")
              [lit "100"; lit "101"]
              (List.map fst waivers)
              [(lit "100", [lit "w/100_Jane Doe_KCS Records Consent_2023.pdf"]);
               (lit "101", [lit "w/101_John Roe_KCS Records Consent_2023.pdf"])]
              eq_refl eq_refl eq_refl eq_refl) as (Hp & Hle & _).
  split; [exact Hp | exact Hle].
Defined.
